(** * Endroid Music service worker: dual-cache offline strategy

    A shallow embedding of [service-worker.js].  The worker's handlers are
    asynchronous JavaScript functions over the browser's [CacheStorage];
    here every handler is a function in a small state monad over a [World]
    (the cache storage, the console, the detached work that is still
    pending) and is run against a [Host], the behaviour of the platform
    during that run: how URL strings resolve, what [fetch] answers, and
    which cache writes are refused by the storage layer.

    Conventions.
    - A cache is a finite map from absolute URL to stored response (all the
      handlers here see GET requests only; [Vary] and search options are
      not used by the source).
    - [caches.open], [caches.delete] and the read operations ([match],
      [keys]) succeed; the writes ([put], [addAll]) may be refused, which
      is what every [try]/[catch] of the source around a write is about.
    - Writes handed to one [Promise.all] run side by side: when one of
      them is refused the [Promise.all] rejects at once, and the host
      says whether an accepted one has reached its cache by the time the
      handler returns.
    - Work that the source does not await ([setTimeout], a promise chain
      whose result is dropped, a write that a rejected [Promise.all] no
      longer waits for) is recorded in [tasks] and run later by [runTask];
      the world a handler returns is the world at the moment its promise
      settles. *)

From stdpp Require Import gmap strings list fin_maps pretty.
From Stdlib Require Import ZArith String Ascii Lia.
From Stdlib Require Uint63 Floats.

Local Open Scope string_scope.
Local Open Scope list_scope.
Local Open Scope Z_scope.

(** ** Strings: the JavaScript string methods the worker uses *)

Module Str.

(** [s.startsWith(p)] *)
Definition startsWith (s p : string) : bool := String.prefix p s.

(** [s.includes(p)] *)
Fixpoint includes (s p : string) : bool :=
  String.prefix p s ||
  match s with
  | EmptyString => false
  | String _ s' => includes s' p
  end.

(** [s.endsWith(p)] *)
Fixpoint endsWith (s p : string) : bool :=
  String.eqb s p ||
  match s with
  | EmptyString => false
  | String _ s' => endsWith s' p
  end.

Definition lowerChar (c : ascii) : ascii :=
  let n := nat_of_ascii c in
  if (65 <=? n)%nat && (n <=? 90)%nat then ascii_of_nat (n + 32) else c.

(** ASCII case folding, which is what the [i] flag of a regular
    expression amounts to on the letters of a literal pattern. *)
Fixpoint toLowerCase (s : string) : string :=
  match s with
  | EmptyString => EmptyString
  | String c s' => String (lowerChar c) (toLowerCase s')
  end.

(** The text of [s] after the first occurrence of [sep], if any. *)
Fixpoint afterFirst (sep s : string) : option string :=
  if String.prefix sep s
  then Some (String.substring (String.length sep)
                              (String.length s - String.length sep) s)
  else match s with
       | EmptyString => None
       | String _ s' => afterFirst sep s'
       end.

(** Longest prefix of [s] with no character satisfying [stop]. *)
Fixpoint takeUntil (stop : ascii -> bool) (s : string) : string :=
  match s with
  | EmptyString => EmptyString
  | String c s' => if stop c then EmptyString else String c (takeUntil stop s')
  end.

(** What is left of [s] from the first character satisfying [stop]. *)
Fixpoint dropUntil (stop : ascii -> bool) (s : string) : string :=
  match s with
  | EmptyString => EmptyString
  | String c s' => if stop c then s else dropUntil stop s'
  end.

(** The text after the last ["/"] of [s] (all of [s] when it has none). *)
Fixpoint lastSegment (s : string) : string :=
  match s with
  | EmptyString => EmptyString
  | String c s' =>
      if includes s' "/" then lastSegment s'
      else if Ascii.eqb c "/" then s' else s
  end.

End Str.

(** ** URLs *)

Module Url.

Definition isDelim (c : ascii) : bool :=
  Ascii.eqb c "/" || Ascii.eqb c "?" || Ascii.eqb c "#".

Definition isQueryOrFragment (c : ascii) : bool :=
  Ascii.eqb c "?" || Ascii.eqb c "#".

(** [new URL(u).pathname] for a hierarchical URL
    [scheme://authority/path?query#fragment]: the text from the first
    ["/"] after the authority up to the query or fragment, ["/"] when
    that is empty.  (Dot segments and percent-encoding are left as they
    are written.) *)
Definition pathname (u : string) : string :=
  let rest := match Str.afterFirst "://" u with
              | Some r => Str.dropUntil isDelim r
              | None => u
              end in
  let p := Str.takeUntil isQueryOrFragment rest in
  if String.eqb p "" then "/" else p.

(** The last segment of the path. *)
Definition filename (u : string) : string := Str.lastSegment (pathname u).

End Url.

(** ** Data model *)

(** A request: the fields of [Request] the worker reads. *)
Record Request := mkRequest {
  method : string;
  url : string;          (* absolute *)
  mode : string;         (* "navigate", "cors", ... *)
  cacheMode : string     (* "default", "reload", ... *)
}.

Record Response := mkResponse {
  status : Z;
  statusText : string;
  headers : list (string * string);
  body : string
}.

(** Whether a header of that name is among [hs]; header names compare
    without regard to case. *)
Definition hasHeader (name : string) (hs : list (string * string)) : bool :=
  existsb (fun h => String.eqb (Str.toLowerCase (fst h)) (Str.toLowerCase name)) hs.

(** [new Response(body, init)] with a string for body: [status] defaults
    to 200 and [statusText] to the empty string when [init] does not
    give them, and the body brings its content type when [init] names
    none. *)
Definition newResponse (b : string) (st : option Z) (stText : option string)
    (hs : list (string * string)) : Response :=
  {| status := default 200 st;
     statusText := default "" stText;
     headers := if hasHeader "content-type" hs then hs
                else hs ++ [("content-type", "text/plain;charset=UTF-8")];
     body := b |}.

(** [JSON.stringify] of an object whose fields are all strings that need
    no escaping. *)
Definition dquote : string := String (ascii_of_nat 34) EmptyString.

Definition quoted (s : string) : string := dquote +:+ s +:+ dquote.

Fixpoint jsonFields (fs : list (string * string)) : string :=
  match fs with
  | [] => ""
  | [(k, v)] => quoted k +:+ ":" +:+ quoted v
  | (k, v) :: fs' => quoted k +:+ ":" +:+ quoted v +:+ "," +:+ jsonFields fs'
  end.

Definition JSON_stringify (fs : list (string * string)) : string :=
  "{" +:+ jsonFields fs +:+ "}".

(** One [Cache]: absolute URL to stored response; [put] replaces. *)
Abbreviation Cache := (gmap string Response).

(** [CacheStorage]: the named caches of the origin, in creation order
    (the order [caches.match] and [caches.keys] go through them). *)
Abbreviation CacheStorage := (list (string * gmap string Response)).

Inductive LogEntry :=
  | ConsoleLog (msg : string)
  | ConsoleError (msg : string).

(** Work started by a handler and not awaited by it. *)
Inductive Task :=
  | Timeout (delay : Z) (request : Request)
      (* the [setTimeout] callback of [refreshCacheInBackground] *)
  | DetachedPut (cacheName : string) (request : Request) (response : Response)
      (* [caches.open(name).then(cache => { cache.put(...) })], dropped *)
  | LandingPut (cacheName : string) (key : string) (response : Response).
      (* a [cache.put] the storage layer has accepted and that is still
         in flight: nobody awaits it any more *)

(** One attempted cache write: which cache, which key, and whether the
    storage layer took it. *)
Record WriteAttempt := mkWrite {
  wCache : string;
  wKey : string;
  wOk : bool
}.

Record World := mkWorld {
  storage : CacheStorage;
  console : list LogEntry;       (* oldest first *)
  tasks : list Task;             (* oldest first *)
  journal : list WriteAttempt;   (* oldest first *)
  skipWaitingCalled : bool
}.

(** The platform as one run of a handler sees it. *)
Record Host := mkHost {
  resolve : string -> string;
    (* a URL string made absolute against the worker's location, as
       [new Request(s)] does *)
  network : Request -> option Response;
    (* [fetch]: [None] when the promise rejects *)
  storageFault : nat -> string -> string -> bool;
    (* whether the [n]-th write attempted in this run, into the cache of
       that name under that key, is refused *)
  landsLate : nat -> bool
    (* whether the [n]-th write attempted in this run, when it is accepted
       but the [Promise.all] that awaited it has rejected in the meantime,
       reaches its cache only after the handler has returned *)
}.

(** What a handler's promise settles to. *)
Inductive Outcome :=
  | Resolved (r : Response)
  | Rejected (reason : string).

(** ** Constants of the worker *)

Definition CACHE_PRIMARY : string := "endroid-music-primary-v2.1".
Definition CACHE_SECONDARY : string := "endroid-music-secondary-v2.1".
Definition CACHE_DATA : string := "endroid-music-data-v2.1".

(** The source lists six assets and leaves out the comma between the last
    two; the list is taken as the six strings it spells.  Everything below
    that depends on the manifest is first defined for an arbitrary list of
    assets and then instantiated here. *)
Definition CRITICAL_ASSETS : list string :=
  [ "/";
    "/index.html";
    "/manifest.json";
    "/icon.svg";
    "/service-worker.js";
    "https://fonts.googleapis.com/icon?family=Material+Icons" ].

Definition OPTIONAL_ASSETS : list string := [].

(** ** Cache storage *)

Module Store.

(** The cache of that name, if it exists. *)
Fixpoint find (name : string) (cs : CacheStorage) : option (gmap string Response) :=
  match cs with
  | [] => None
  | (n, c) :: cs' => if String.eqb n name then Some c else find name cs'
  end.

(** Contents of the cache of that name; empty when it does not exist yet
    (which is what [caches.open] would then create). *)
Definition tier (name : string) (cs : CacheStorage) : gmap string Response :=
  default ∅ (find name cs).

(** [caches.open(name)]: creates the cache, empty, when it is absent. *)
Definition open (name : string) (cs : CacheStorage) : CacheStorage :=
  match find name cs with
  | Some _ => cs
  | None => cs ++ [(name, ∅)]
  end.

(** Apply [f] to the cache of that name. *)
Fixpoint update (name : string) (f : gmap string Response -> gmap string Response)
    (cs : CacheStorage) : CacheStorage :=
  match cs with
  | [] => []
  | (n, c) :: cs' =>
      (n, if String.eqb n name then f c else c) :: update name f cs'
  end.

(** [caches.match(request)]: the first hit, caches in creation order. *)
Fixpoint matchAny (key : string) (cs : CacheStorage) : option Response :=
  match cs with
  | [] => None
  | (_, c) :: cs' =>
      match c !! key with
      | Some r => Some r
      | None => matchAny key cs'
      end
  end.

End Store.

(** ** The handler monad

    A run threads the world and the number of cache writes it has
    attempted so far (the index the host's fault oracle is asked at). *)

Definition M (A : Type) : Type := World * nat -> A * (World * nat).

Definition ret {A} (a : A) : M A := fun s => (a, s).

Definition bind {A B} (m : M A) (k : A -> M B) : M B :=
  fun s => let '(a, s') := m s in k a s'.

Notation "x <- m ;; k" := (bind m (fun x => k))
  (at level 100, m at next level, right associativity).
Notation "m ;;; k" := (bind m (fun _ => k))
  (at level 100, right associativity).

(** Run a handler from the start: no write attempted yet. *)
Definition run {A} (m : M A) (w : World) : A * World :=
  let '(a, (w', _)) := m (w, 0%nat) in (a, w').

Definition result {A} (m : M A) (w : World) : A := fst (run m w).
Definition after {A} (m : M A) (w : World) : World := snd (run m w).

Fixpoint forEach {A} (f : A -> M unit) (l : list A) : M unit :=
  match l with
  | [] => ret tt
  | x :: l' => f x ;;; forEach f l'
  end.

(** A [for] loop that returns from the function at the first hit. *)
Fixpoint firstSome {A B} (f : A -> M (option B)) (l : list A) : M (option B) :=
  match l with
  | [] => ret None
  | x :: l' =>
      r <- f x ;;
      match r with
      | Some b => ret (Some b)
      | None => firstSome f l'
      end
  end.

Fixpoint mapM {A B} (f : A -> M B) (l : list A) : M (list B) :=
  match l with
  | [] => ret []
  | x :: l' => b <- f x ;; bs <- mapM f l' ;; ret (b :: bs)
  end.

Definition setStorage (cs : CacheStorage) (w : World) : World :=
  {| storage := cs; console := console w; tasks := tasks w;
     journal := journal w; skipWaitingCalled := skipWaitingCalled w |}.

(** The world with one more console line. *)
Definition say (e : LogEntry) (w : World) : World :=
  {| storage := storage w; console := console w ++ [e];
     tasks := tasks w; journal := journal w;
     skipWaitingCalled := skipWaitingCalled w |}.

(** The world with one more piece of pending work. *)
Definition enqueue (t : Task) (w : World) : World :=
  {| storage := storage w; console := console w;
     tasks := tasks w ++ [t]; journal := journal w;
     skipWaitingCalled := skipWaitingCalled w |}.

Definition consoleLog (msg : string) : M unit := fun '(w, n) =>
  (tt, (say (ConsoleLog msg) w, n)).

Definition consoleError (msg : string) : M unit := fun '(w, n) =>
  (tt, (say (ConsoleError msg) w, n)).

(** Hand a piece of work to the event loop without awaiting it. *)
Definition spawn (t : Task) : M unit := fun '(w, n) =>
  (tt, (enqueue t w, n)).

Definition skipWaiting : M unit := fun '(w, n) =>
  (tt, ({| storage := storage w; console := console w;
           tasks := tasks w; journal := journal w;
           skipWaitingCalled := true |}, n)).

(** [caches.open(name)] *)
Definition cachesOpen (name : string) : M unit := fun '(w, n) =>
  (tt, (setStorage (Store.open name (storage w)) w, n)).

(** [(await caches.open(name)).match(key)] *)
Definition cacheMatch (name key : string) : M (option Response) :=
  cachesOpen name ;;;
  fun '(w, n) => (Store.tier name (storage w) !! key, (w, n)).

(** The contents of the cache of that name, as the reads of a loop see
    them. *)
Definition readCache (name : string) : M (gmap string Response) := fun '(w, n) =>
  (Store.tier name (storage w), (w, n)).

(** [caches.match(request)] *)
Definition cachesMatch (key : string) : M (option Response) := fun '(w, n) =>
  (Store.matchAny key (storage w), (w, n)).

Definition record (a : WriteAttempt) (w : World) : World :=
  {| storage := storage w; console := console w; tasks := tasks w;
     journal := journal w ++ [a]; skipWaitingCalled := skipWaitingCalled w |}.

(** ** The worker *)

Definition newline : string := String (ascii_of_nat 10) EmptyString.

Fixpoint joinLines (ls : list string) : string :=
  match ls with
  | [] => ""
  | [l] => l
  | l :: ls' => l +:+ newline +:+ joinLines ls'
  end.

(** The document [getOfflineResponse] synthesizes for a navigation. *)
Definition OFFLINE_PAGE : string :=
  joinLines
    [ "";
      "      <!DOCTYPE html>";
      "      <html>";
      "        <head>";
      "          <meta charset=" +:+ dquote +:+ "UTF-8" +:+ dquote +:+ ">";
      "          <meta name=" +:+ dquote +:+ "viewport" +:+ dquote +:+ " content=" +:+ dquote +:+ "width=device-width, initial-scale=1.0" +:+ dquote +:+ ">";
      "          <title>Endroid Music - Offline</title>";
      "          <style>";
      "            body { ";
      "              font-family: Arial, sans-serif; ";
      "              background: #000; ";
      "              color: white; ";
      "              text-align: center; ";
      "              padding: 50px; ";
      "            }";
      "            .container { ";
      "              background: #6750A4; ";
      "              padding: 30px; ";
      "              border-radius: 10px; ";
      "              max-width: 400px; ";
      "              margin: 0 auto; ";
      "            }";
      "          </style>";
      "        </head>";
      "        <body>";
      "          <div class=" +:+ dquote +:+ "container" +:+ dquote +:+ ">";
      "            <h2>Endroid Music</h2>";
      "            <p>⚠️ You are currently offline</p>";
      "            <p>The app will work fully when you reconnect to the internet</p>";
      "            <p>Previously loaded music files may still be available</p>";
      "          </div>";
      "        </body>";
      "      </html>";
      "      " ].

(** [/\.(mp3|wav|ogg|flac)$/i] *)
Definition AUDIO_EXTENSIONS : list string := ["mp3"; "wav"; "ogg"; "flac"].

Definition isAudioUrl (u : string) : bool :=
  existsb (fun ext => Str.endsWith (Str.toLowerCase u) ("." +:+ ext))
          AUDIO_EXTENSIONS.

(** Where the [fetch] listener sends a request. *)
Inductive Route :=
  | Ignored              (* the listener returns without [respondWith] *)
  | ApiStrategy          (* [handleApiRequest] *)
  | DualCacheStrategy.   (* [handleDualCacheRequest] *)

(** The two guards at the top of the [fetch] listener. *)
Definition route (request : Request) : Route :=
  if negb (String.eqb (method request) "GET")
     || Str.startsWith (url request) "chrome-extension://"
     || Str.includes (url request) "browser-sync"
  then Ignored
  else if Str.includes (url request) "/api/"
          || Str.includes (url request) ".json"
             && negb (Str.includes (url request) "manifest.json")
  then ApiStrategy
  else DualCacheStrategy.

(** The double that the literal [0.8] denotes: the quotient of 4 by 5,
    correctly rounded. *)
Definition DOUBLE_0_8 : PrimFloat.float :=
  PrimFloat.div (PrimFloat.of_uint63 (Uint63.of_Z 4))
                (PrimFloat.of_uint63 (Uint63.of_Z 5)).

(** [criticalAssetsCount >= CRITICAL_ASSETS.length * 0.8] as the source
    computes it, in double precision. *)
Definition meetsThresholdDouble (count len : Z) : bool :=
  PrimFloat.leb
    (PrimFloat.mul (PrimFloat.of_uint63 (Uint63.of_Z len)) DOUBLE_0_8)
    (PrimFloat.of_uint63 (Uint63.of_Z count)).

(** The same comparison in integers, which is what the development
    reasons with.  The double nearest to 0.8 exceeds 0.8 by the factor
    1 + 2^-54, so the exact product [length * 0.8] exceeds
    [4 * length / 5] by less than half a unit in the last place and rounds
    to it when it is an integer; when it is not, it is at least 1/5 away
    from any integer, which is more than the rounding moves it for a
    length below 2^50.  Hence the double comparison holds exactly when
    [4 * length <= 5 * count]; [threshold_in_double] checks the agreement
    by evaluation for every manifest of up to 300 entries. *)
Definition meetsThreshold (count len : Z) : bool := 4 * len <=? 5 * count.

(** Both comparisons agree for every length up to [bound] and every count
    up to the length. *)
Definition thresholdsAgreeUpTo (bound : nat) : bool :=
  forallb (fun len =>
    forallb (fun count =>
      Bool.eqb (meetsThresholdDouble (Z.of_nat count) (Z.of_nat len))
               (meetsThreshold (Z.of_nat count) (Z.of_nat len)))
      (seq 0 (S len)))
    (seq 0 (S bound)).

Section Worker.

Variable host : Host.

Definition fetch (request : Request) : M (option Response) :=
  ret (network host request).

(** [new Request(s)] and [new Request(s, { cache: 'reload' })] *)
Definition newRequest (s : string) (cm : string) : Request :=
  {| method := "GET"; url := resolve host s; mode := "cors"; cacheMode := cm |}.

(** [(await caches.open(name)).put(key, response)]: [true] when the
    write went through, [false] when the promise rejects. *)
Definition cachePut (name key : string) (response : Response) : M bool :=
  cachesOpen name ;;;
  fun '(w, n) =>
    if storageFault host n name key
    then (false, (record (mkWrite name key false) w, S n))
    else (true,
          (record (mkWrite name key true)
             (setStorage (Store.update name (insert key response) (storage w)) w),
           S n)).

(** Whether the write that comes [k] writes from now in this run, into
    that cache under that key, is one the storage layer refuses. *)
Definition willRefuse (k : nat) (name key : string) : M bool := fun '(w, n) =>
  (storageFault host (k + n) name key, (w, n)).

(** One of the writes handed to a [Promise.all], which rejects as soon
    as one of them is refused.  [overtaken] tells that another write of
    the batch is refused: this write, when it is accepted, may then still
    be in flight when the [catch] runs and when the handler returns; the
    host says whether it is, and in that case it is left to land later.
    The journal has the writes in the order they are issued. *)
Definition racingPut (overtaken : bool) (name key : string) (response : Response)
    : M bool :=
  cachesOpen name ;;;
  fun '(w, n) =>
    if storageFault host n name key
    then (false, (record (mkWrite name key false) w, S n))
    else if overtaken && landsLate host n
    then (true,
          (enqueue (LandingPut name key response)
             (record (mkWrite name key true) w), S n))
    else (true,
          (record (mkWrite name key true)
             (setStorage (Store.update name (insert key response) (storage w)) w),
           S n)).

(** [updateBothCaches(requestKey, response)].  The two first writes are
    both issued before [Promise.all] is awaited; it waits for both when
    neither is refused, and rejects at the first refusal otherwise, with
    the other write possibly still in flight.  The retries of the [catch]
    are awaited one by one. *)
Definition updateBothCaches (requestKey : string) (response : Response) : M unit :=
  let key := resolve host requestKey in
  refused1 <- willRefuse 0 CACHE_PRIMARY key ;;
  refused2 <- willRefuse 1 CACHE_SECONDARY key ;;
  ok1 <- racingPut refused2 CACHE_PRIMARY key response ;;
  ok2 <- racingPut refused1 CACHE_SECONDARY key response ;;
  if ok1 && ok2
  then consoleLog ("[Service Worker] Updated both caches for: " +:+ requestKey)
  else
    consoleError "[Service Worker] Failed to update caches:" ;;;
    (* Try to update at least one cache *)
    ok3 <- cachePut CACHE_PRIMARY key response ;;
    if ok3 then ret tt
    else
      (* Last attempt with secondary *)
      ok4 <- cachePut CACHE_SECONDARY key response ;;
      if ok4 then ret tt
      else consoleError "[Service Worker] All cache updates failed".

(** [refreshCacheInBackground(request)] up to its [setTimeout]. *)
Definition refreshCacheInBackground (request : Request) : M unit :=
  if isAudioUrl (url request) then ret tt
  else spawn (Timeout 1000 request).

(** The callback [refreshCacheInBackground] hands to [setTimeout]. *)
Definition refreshCallback (request : Request) : M unit :=
  networkResponse <- fetch request ;;
  match networkResponse with
  | Some r =>
      if status r =? 200 then updateBothCaches (url request) r else ret tt
  | None => ret tt  (* Silent fail - network might be down *)
  end.

(** The loop of [findSimilarResource]: the first of Primary and
    Secondary that holds [key]. *)
Definition probe (names : list string) (key : string) : M (option Response) :=
  firstSome (fun cacheName => cacheMatch cacheName key) names.

(** [findSimilarResource(request)] *)
Definition findSimilarResource (request : Request) : M (option Response) :=
  let path := Url.pathname (url request) in
  r1 <- (if Str.endsWith path "/" || negb (Str.includes path ".")
         then probe [CACHE_PRIMARY; CACHE_SECONDARY] (resolve host "/index.html")
         else ret None) ;;
  match r1 with
  | Some r => ret (Some r)
  | None =>
      if String.eqb path "/" || String.eqb path "" || String.eqb path "/index.html"
      then probe [CACHE_PRIMARY; CACHE_SECONDARY] (resolve host "/")
      else ret None
  end.

(** [getNavigationFallback()] *)
Definition getNavigationFallback : M (option Response) :=
  firstSome
    (fun cacheName =>
       a <- cacheMatch cacheName (resolve host "/index.html") ;;
       b <- cacheMatch cacheName (resolve host "/") ;;
       c <- cacheMatch cacheName (resolve host "index.html") ;;
       ret (match a, b with
            | Some r, _ => Some r
            | None, Some r => Some r
            | None, None => c
            end))
    [CACHE_PRIMARY; CACHE_SECONDARY].

(** The error a refused write rejects with. *)
Definition STORAGE_ERROR : string := "QuotaExceededError".

(** [handleDualCacheRequest(request)] *)
Definition handleDualCacheRequest (request : Request) : M Outcome :=
  let requestKey := url request in
  (* Strategy 1: the [try] block; [Some] when it returns *)
  fresh <- (networkResponse <- fetch request ;;
            match networkResponse with
            | Some r =>
                if status r =? 200
                then updateBothCaches requestKey r ;;; ret (Some r)
                else ret None
            | None =>
                consoleLog "[Service Worker] Network unavailable, using cache:" ;;;
                ret None
            end) ;;
  match fresh with
  | Some r => ret (Resolved r)
  | None =>
      (* Strategy 2: Try primary cache *)
      cachedP <- cacheMatch CACHE_PRIMARY (url request) ;;
      match cachedP with
      | Some cachedResponse =>
          consoleLog ("[Service Worker] Served from primary cache: " +:+ requestKey) ;;;
          refreshCacheInBackground request ;;;
          ret (Resolved cachedResponse)
      | None =>
          (* Strategy 3: Try secondary cache *)
          cachedS <- cacheMatch CACHE_SECONDARY (url request) ;;
          match cachedS with
          | Some cachedResponse =>
              consoleLog ("[Service Worker] Served from secondary cache: " +:+ requestKey) ;;;
              ok <- cachePut CACHE_PRIMARY (url request) cachedResponse ;;
              if ok then ret (Resolved cachedResponse)
              else ret (Rejected STORAGE_ERROR)
          | None =>
              (* Strategy 4: Try to find similar resource *)
              similar <- findSimilarResource request ;;
              match similar with
              | Some cachedResponse =>
                  consoleLog ("[Service Worker] Served similar resource for: " +:+ requestKey) ;;;
                  ret (Resolved cachedResponse)
              | None =>
                  (* Strategy 5: For navigation requests, return the main page *)
                  fallback <- (if String.eqb (mode request) "navigate"
                               then getNavigationFallback else ret None) ;;
                  match fallback with
                  | Some fallbackResponse => ret (Resolved fallbackResponse)
                  | None => ret (Rejected "No cache available")
                  end
              end
          end
      end
  end.

(** The body the API strategy answers with when nothing else is left. *)
Definition offlineApiResponse : Response :=
  newResponse (JSON_stringify [("error", "Offline")]) None None
              [("Content-Type", "application/json")].

(** [handleApiRequest(event)]: the promise given to [respondWith]. *)
Definition handleApiRequest (request : Request) : M Outcome :=
  networkResponse <- fetch request ;;
  match networkResponse with
  | Some response =>
      (if status response =? 200
       then spawn (DetachedPut CACHE_DATA request response)
       else ret tt) ;;;
      ret (Resolved response)
  | None =>
      cachedResponse <- cachesMatch (url request) ;;
      match cachedResponse with
      | Some r => ret (Resolved r)
      | None => ret (Resolved offlineApiResponse)
      end
  end.

(** [getOfflineResponse(request)] *)
Definition getOfflineResponse (request : Request) : M Response :=
  cached <- probe [CACHE_PRIMARY; CACHE_SECONDARY; CACHE_DATA] (url request) ;;
  match cached with
  | Some r => ret r
  | None =>
      if String.eqb (mode request) "navigate"
      then ret (newResponse OFFLINE_PAGE None None
                  [("Content-Type", "text/html"); ("Cache-Control", "no-cache")])
      else ret (newResponse "Offline - Resource not available"
                  (Some 404) (Some "Offline") [])
  end.

(** The [fetch] listener: [None] when the event is left to the browser. *)
Definition onFetch (request : Request) : M (option Outcome) :=
  match route request with
  | Ignored => ret None
  | ApiStrategy => o <- handleApiRequest request ;; ret (Some o)
  | DualCacheStrategy =>
      o <- handleDualCacheRequest request ;;
      match o with
      | Resolved r => ret (Some (Resolved r))
      | Rejected _ =>
          consoleError "[Service Worker] Fetch failed:" ;;;
          r <- getOfflineResponse request ;;
          ret (Some (Resolved r))
      end
  end.

(** Run a piece of detached work when the event loop gets to it. *)
Definition runTask (t : Task) : M unit :=
  match t with
  | Timeout _ request => refreshCallback request
  | DetachedPut name request response =>
      cachePut name (url request) response ;;; ret tt
  | LandingPut name key response =>
      fun '(w, n) =>
        (tt, (setStorage (Store.update name (insert key response) (storage w)) w, n))
  end.

End Worker.

(** ** Installation, health check and repair *)

Section Maintenance.

Variable host : Host.

(** The critical asset manifest ([CRITICAL_ASSETS] in the source). *)
Variable manifest : list string.

(** An integer as a template literal prints it. *)
Definition decimal (z : Z) : string := pretty z.

(** A response [cache.addAll] accepts: an ok status other than 206. *)
Definition addAllAccepts (r : Response) : bool :=
  (200 <=? status r) && (status r <=? 299) && negb (status r =? 206).

(** The fetches of [cache.addAll]: every request answered with an
    accepted response, or nothing. *)
Fixpoint fetchAll (requests : list Request) : option (list (string * Response)) :=
  match requests with
  | [] => Some []
  | q :: qs =>
      match network host q with
      | Some r =>
          if addAllAccepts r
          then match fetchAll qs with
               | Some es => Some ((url q, r) :: es)
               | None => None
               end
          else None
      | None => None
      end
  end.

Fixpoint hasDuplicate (ks : list string) : bool :=
  match ks with
  | [] => false
  | k :: ks' => existsb (String.eqb k) ks' || hasDuplicate ks'
  end.

Definition putEntries (es : list (string * Response)) (c : gmap string Response)
    : gmap string Response :=
  fold_left (fun acc e => <[fst e := snd e]> acc) es c.

(** [(await caches.open(name)).addAll(requests)]: all the entries are
    written, or none is.  It rejects when a fetch fails or is not
    accepted, when two requests of the batch have the same URL, and when
    the storage layer refuses the batch. *)
Definition cacheAddAll (name : string) (requests : list Request) : M bool :=
  match fetchAll requests with
  | None => ret false
  | Some es =>
      if hasDuplicate (map fst es) then ret false
      else fun '(w, n) =>
        if existsb (fun e => storageFault host n name (fst e)) es
        then (false,
              (fold_left (fun w' e => record (mkWrite name (fst e) false) w') es w,
               S n))
        else (true,
              (fold_left (fun w' e => record (mkWrite name (fst e) true) w') es
                 (setStorage (Store.update name (putEntries es) (storage w)) w),
               S n))
  end.

(** One of the three promise chains of the [install] listener. *)
Definition installCache (name : string) (announce failure : string)
    (requests : list Request) : M unit :=
  cachesOpen name ;;;
  consoleLog announce ;;;
  ok <- cacheAddAll name requests ;;
  if ok then ret tt else consoleError failure.

(** The [install] listener.  The three chains are started in this order
    and each swallows its own failure, so the outer [catch] is never
    taken. *)
Definition install : M unit :=
  consoleLog "[Service Worker] Installing..." ;;;
  installCache CACHE_PRIMARY
    "[Service Worker] Caching critical assets in primary cache"
    "[Service Worker] Primary cache installation failed:"
    (map (fun u => newRequest host u "reload") manifest) ;;;
  installCache CACHE_SECONDARY
    "[Service Worker] Caching critical assets in secondary cache"
    "[Service Worker] Secondary cache installation failed:"
    (map (fun u => newRequest host u "reload") manifest) ;;;
  installCache CACHE_DATA
    "[Service Worker] Caching optional assets in data cache"
    "[Service Worker] Data cache installation failed:"
    (map (fun u => newRequest host u "default") OPTIONAL_ASSETS) ;;;
  consoleLog "[Service Worker] All caches prepared successfully" ;;;
  skipWaiting.

(** The counting loop of [checkCacheHealth] over one cache. *)
Fixpoint countCritical (c : gmap string Response) (assets : list string) : Z :=
  match assets with
  | [] => 0
  | asset :: rest =>
      (match c !! resolve host asset with
       | Some response => if status response =? 200 then 1 else 0
       | None => 0
       end) + countCritical c rest
  end.

(** The body of the first loop of [checkCacheHealth] for one cache: its
    [healthy] flag. *)
Definition checkOne (name : string) : M bool :=
  cachesOpen name ;;;
  cache <- readCache name ;;
  let criticalAssetsCount := countCritical cache manifest in
  let healthy := meetsThreshold criticalAssetsCount (Z.of_nat (List.length manifest)) in
  consoleLog ("[Service Worker] " +:+ name +:+ " health: "
              +:+ (if healthy then "GOOD" else "POOR")
              +:+ " (" +:+ decimal criticalAssetsCount +:+ "/"
              +:+ decimal (Z.of_nat (List.length manifest)) +:+ " assets)") ;;;
  ret healthy.

(** The body of the loop of [repairCache] for one asset: its own
    [try]/[catch] logs a refused write and goes on. *)
Definition repairAsset (cacheName healthyCacheName asset : string) : M unit :=
  response <- cacheMatch healthyCacheName (resolve host asset) ;;
  match response with
  | Some r =>
      ok <- cachePut host cacheName (resolve host asset) r ;;
      if ok
      then consoleLog ("[Service Worker] Repaired " +:+ asset +:+ " in " +:+ cacheName)
      else consoleError ("[Service Worker] Failed to repair " +:+ asset +:+ ":")
  | None => ret tt
  end.

(** [repairCache(cacheName)] *)
Definition repairCache (cacheName : string) : M unit :=
  cachesOpen cacheName ;;;
  let healthyCacheName :=
    if String.eqb cacheName CACHE_PRIMARY then CACHE_SECONDARY else CACHE_PRIMARY in
  cachesOpen healthyCacheName ;;;
  forEach (repairAsset cacheName healthyCacheName) manifest ;;;
  consoleLog ("[Service Worker] " +:+ cacheName +:+ " repair completed").

(** [checkCacheHealth()]; the [healthy] flags it computed are returned
    for inspection. *)
Definition checkCacheHealth : M (list (string * bool)) :=
  consoleLog "[Service Worker] Running cache health check..." ;;;
  cacheChecks <- mapM (fun name => healthy <- checkOne name ;; ret (name, healthy))
                      [CACHE_PRIMARY; CACHE_SECONDARY] ;;
  forEach
    (fun cacheCheck : string * bool =>
       if snd cacheCheck then ret tt
       else
         consoleLog ("[Service Worker] Repairing " +:+ fst cacheCheck +:+ "...") ;;;
         repairCache (fst cacheCheck))
    cacheChecks ;;;
  ret cacheChecks.

End Maintenance.

(** ** The two ways a write settles, as functions on the world *)

Definition putAccepted (name key : string) (r : Response) (w : World) : World :=
  record (mkWrite name key true)
    (setStorage (Store.update name (insert key r) (Store.open name (storage w))) w).

Definition putRefused (name key : string) (w : World) : World :=
  record (mkWrite name key false) (setStorage (Store.open name (storage w)) w).

(** The world once [caches.open(name)] has settled. *)
Definition opened (name : string) (w : World) : World :=
  setStorage (Store.open name (storage w)) w.

(** A write that is accepted and left in flight: it is in the journal,
    the cache is open, and the entry is still to land. *)
Definition putLanding (name key : string) (r : Response) (w : World) : World :=
  enqueue (LandingPut name key r) (record (mkWrite name key true) (opened name w)).

(** A network attempt that does not produce a response the dual-cache
    strategy keeps: the promise rejects, or the status is not 200. *)
Definition networkFails (host : Host) (request : Request) : Prop :=
  match network host request with
  | Some r => status r <> 200
  | None => True
  end.

(** The writes [updateBothCaches] attempts in a run of its own, in order,
    as the fault oracle decides them. *)
Definition attemptsOf (host : Host) (key : string) : list WriteAttempt :=
  let f0 := storageFault host 0 CACHE_PRIMARY key in
  let f1 := storageFault host 1 CACHE_SECONDARY key in
  let f2 := storageFault host 2 CACHE_PRIMARY key in
  let f3 := storageFault host 3 CACHE_SECONDARY key in
  [mkWrite CACHE_PRIMARY key (negb f0); mkWrite CACHE_SECONDARY key (negb f1)]
  ++ (if f0 || f1
      then mkWrite CACHE_PRIMARY key (negb f2)
           :: (if f2 then [mkWrite CACHE_SECONDARY key (negb f3)] else [])
      else []).

(** The tier [repairCache] copies from when it repairs [cacheName]. *)
Definition donorOf (cacheName : string) : string :=
  if String.eqb cacheName CACHE_PRIMARY then CACHE_SECONDARY else CACHE_PRIMARY.

(** An asset the cache holds with status 200. *)
Definition heldWithSuccess (host : Host) (c : gmap string Response)
    (asset : string) : bool :=
  match c !! resolve host asset with
  | Some r => status r =? 200
  | None => false
  end.

(** The manifest entries a cache holds with status 200. *)
Definition healthyEntries (host : Host) (c : gmap string Response)
    (assets : list string) : list string :=
  List.filter (heldWithSuccess host c) assets.

(** The [healthy] flag the health check computes for the cache of that
    name in a given world. *)
Definition verdict (host : Host) (manifest : list string) (name : string)
    (w : World) : bool :=
  meetsThreshold (countCritical host (Store.tier name (storage w)) manifest)
                 (Z.of_nat (List.length manifest)).

(** The line the health check logs for the cache of that name. *)
Definition healthLog (host : Host) (manifest : list string) (name : string)
    (w : World) : LogEntry :=
  ConsoleLog ("[Service Worker] " +:+ name +:+ " health: "
              +:+ (if verdict host manifest name w then "GOOD" else "POOR")
              +:+ " ("
              +:+ decimal (countCritical host (Store.tier name (storage w)) manifest)
              +:+ "/" +:+ decimal (Z.of_nat (List.length manifest)) +:+ " assets)").

(** The state after the repair pass over one tier, which runs only when
    the tier was found unhealthy. *)
Definition repairIfUnhealthy (host : Host) (manifest : list string)
    (name : string) (healthy : bool) (s : World * nat) : World * nat :=
  if healthy then s
  else snd (repairCache host manifest name
              (say (ConsoleLog ("[Service Worker] Repairing " +:+ name +:+ "...")) s.1, s.2)).

(** What one chain of the [install] listener does to its cache, and the
    write counter after it: the batch goes in, or nothing changes. *)
Definition installEffect (host : Host) (name : string) (requests : list Request)
    (n : nat) : (gmap string Response -> gmap string Response) * nat :=
  match fetchAll host requests with
  | None => (id, n)
  | Some es =>
      if hasDuplicate (map fst es) then (id, n)
      else if existsb (fun e => storageFault host n name (fst e)) es
           then (id, S n)
           else (putEntries es, S n)
  end.

(** The storage [install] leaves behind, as a function of the storage it
    finds: Primary, Secondary and Data are opened and written in turn. *)
Definition installedStorage (host : Host) (manifest : list string)
    (cs : CacheStorage) : CacheStorage :=
  let critical := map (fun u => newRequest host u "reload") manifest in
  let optional := map (fun u => newRequest host u "default") OPTIONAL_ASSETS in
  let eP := installEffect host CACHE_PRIMARY critical 0 in
  let eS := installEffect host CACHE_SECONDARY critical (snd eP) in
  let eD := installEffect host CACHE_DATA optional (snd eS) in
  Store.update CACHE_DATA (fst eD) (Store.open CACHE_DATA
    (Store.update CACHE_SECONDARY (fst eS) (Store.open CACHE_SECONDARY
      (Store.update CACHE_PRIMARY (fst eP) (Store.open CACHE_PRIMARY cs))))).

(** Every cache of that name is a fixed point of [f]. *)
Definition settled (name : string) (f : gmap string Response -> gmap string Response)
    (cs : CacheStorage) : Prop :=
  Forall (fun nc => fst nc = name -> f (snd nc) = snd nc) cs.

(** [p] occurs somewhere in [s]. *)
Definition contains (s p : string) : Prop :=
  exists a b, s = a +:+ p +:+ b.

(** [cached] is the entry under [key] of the first cache of the storage,
    in creation order, that has one. *)
Definition firstHolder (key : string) (cs : CacheStorage) (cached : Response) : Prop :=
  exists before name cache rest,
    cs = before ++ (name, cache) :: rest /\
    (forall nc, In nc before -> snd nc !! key = None) /\
    cache !! key = Some cached.

(** No cache of the storage has an entry under [key]. *)
Definition heldNowhere (key : string) (cs : CacheStorage) : Prop :=
  forall nc, In nc cs -> snd nc !! key = None.

(** A character of a URL against a character of a lower-case pattern,
    under the [i] flag: the same character, or the capital letter of
    which the pattern's character is the small one. *)
Definition sameLetter (c d : ascii) : Prop :=
  c = d \/
  ((65 <= nat_of_ascii c)%nat /\ (nat_of_ascii c <= 90)%nat /\
   (nat_of_ascii c + 32)%nat = nat_of_ascii d).

Fixpoint matchesIgnoringCase (s pattern : string) : Prop :=
  match s, pattern with
  | EmptyString, EmptyString => True
  | String c s', String d pattern' => sameLetter c d /\ matchesIgnoringCase s' pattern'
  | _, _ => False
  end.

(** The characters of a pattern are none of them capital letters. *)
Fixpoint lowerCasePattern (p : string) : Prop :=
  match p with
  | EmptyString => True
  | String d p' =>
      (nat_of_ascii d < 65 \/ 90 < nat_of_ascii d)%nat /\ lowerCasePattern p'
  end.

(** The URL, taken as a whole string, ends in [.mp3], [.wav], [.ogg] or
    [.flac], in any letter case. *)
Definition hasAudioExtension (u : string) : Prop :=
  exists stem ext,
    u = stem +:+ ext /\
    (matchesIgnoringCase ext ".mp3" \/ matchesIgnoringCase ext ".wav" \/
     matchesIgnoringCase ext ".ogg" \/ matchesIgnoringCase ext ".flac").

(** The routing rule in the words of the specification: the path contains
    [/api/], or the file name ends in [.json] and is not the manifest
    descriptor.  It is compared below with [route], which is the rule of
    the source. *)
Definition apiLikeBySpec (u : string) : bool :=
  Str.includes (Url.pathname u) "/api/"
  || Str.endsWith (Url.filename u) ".json"
     && negb (String.eqb (Url.filename u) "manifest.json").

(** ** A concrete host, for running the handlers on examples *)

Module Demo.

Definition ORIGIN : string := "https://music.example".

Definition resolveAt (s : string) : string :=
  if Str.includes s "://" then s
  else if Str.startsWith s "/" then ORIGIN +:+ s
  else ORIGIN +:+ "/" +:+ s.

Definition ok (b : string) : Response :=
  {| status := 200; statusText := "OK"; headers := []; body := b |}.

Definition online (q : Request) : option Response :=
  Some (ok ("fresh " +:+ url q)).

Definition offline (q : Request) : option Response := None.

Definition noFault (n : nat) (name key : string) : bool := false.

(** Only the [k]-th write of the run is refused. *)
Definition faultAt (k : nat) (n : nat) (name key : string) : bool := (n =? k)%nat.

(** Every write into the cache of that name is refused. *)
Definition faultIn (bad : string) (n : nat) (name key : string) : bool :=
  String.eqb name bad.

Definition get (u : string) : Request :=
  {| method := "GET"; url := u; mode := "cors"; cacheMode := "default" |}.

Definition emptyWorld : World :=
  {| storage := []; console := []; tasks := []; journal := [];
     skipWaitingCalled := false |}.

(** A world whose storage is the given caches. *)
Definition worldOf (cs : CacheStorage) : World :=
  {| storage := cs; console := []; tasks := []; journal := [];
     skipWaitingCalled := false |}.

Definition appJs : Request := get "https://music.example/app.js".

Definition onlineHost : Host :=
  {| resolve := resolveAt; network := online; storageFault := noFault;
     landsLate := fun _ => false |}.

Definition offlineHost : Host :=
  {| resolve := resolveAt; network := offline; storageFault := noFault;
     landsLate := fun _ => false |}.

(** Online, and the [k]-th write of a run is refused. *)
Definition onlineFaultAt (k : nat) : Host :=
  {| resolve := resolveAt; network := online; storageFault := faultAt k;
     landsLate := fun _ => false |}.

(** Online, the [k]-th write of a run is refused, and a write that is
    overtaken by a refusal lands late. *)
Definition onlineRacing (k : nat) : Host :=
  {| resolve := resolveAt; network := online; storageFault := faultAt k;
     landsLate := fun _ => true |}.

(** Online, and every write is refused. *)
Definition onlineRefusing : Host :=
  {| resolve := resolveAt; network := online;
     storageFault := fun _ _ _ => true;
     landsLate := fun _ => false |}.

Definition freshAppJs : Response := ok "fresh https://music.example/app.js".

Definition songMp3 : Request := get "https://music.example/song.mp3".

Definition cachedSong : Response := ok "cached song".

Definition cachedAppJs : Response := ok "cached app.js".

(** Primary, Secondary and Data exist; only the named cache holds
    something, one entry. *)
Definition onlyIn (name : string) (q : Request) (r : Response) : World :=
  worldOf
    (map (fun n => (n, if String.eqb n name then {[url q := r]} else ∅))
         [CACHE_PRIMARY; CACHE_SECONDARY; CACHE_DATA]).

Definition indexHtml : Request := get "https://music.example/index.html".

Definition cachedShell : Response := ok "<html>shell</html>".

Definition apiTracks : Request := get "https://music.example/api/tracks.json".

Definition cachedTracks : Response := ok "[1,2,3]".

(** Offline, and the [k]-th write of a run is refused. *)
Definition offlineFaultAt (k : nat) : Host :=
  {| resolve := resolveAt; network := offline; storageFault := faultAt k;
     landsLate := fun _ => false |}.

End Demo.

(** ** Activation and the control channel *)

(** The three cache names the [activate] listener keeps. *)
Definition currentCaches : list string :=
  [CACHE_PRIMARY; CACHE_SECONDARY; CACHE_DATA].

(** [currentCaches.includes(cacheName)] *)
Definition isCurrent (cacheName : string) : bool :=
  existsb (String.eqb cacheName) currentCaches.

(** The storage without the cache of that name. *)
Definition storeDelete (name : string) (cs : CacheStorage) : CacheStorage :=
  List.filter (fun nc => negb (String.eqb (fst nc) name)) cs.

(** [caches.keys()] *)
Definition cachesKeys : M (list string) := fun '(w, n) =>
  (map fst (storage w), (w, n)).

(** [caches.delete(name)]: resolves to whether there was such a cache. *)
Definition cachesDelete (name : string) : M bool := fun '(w, n) =>
  (match Store.find name (storage w) with Some _ => true | None => false end,
   (setStorage (storeDelete name (storage w)) w, n)).

(** The [activate] listener.  The deletions are started together and
    awaited together; they are run here in the order of [caches.keys()].
    [caches.keys] and [caches.delete] resolve, as every operation on the
    cache storage other than a write does here, so the chain ends in
    [self.clients.claim()] and the [catch] of the listener, which is
    there for a rejection of one of them, is not modelled. *)
Definition activate : M unit :=
  consoleLog "[Service Worker] Activating..." ;;;
  cacheNames <- cachesKeys ;;
  forEach
    (fun cacheName =>
       if negb (isCurrent cacheName)
       then consoleLog ("[Service Worker] Deleting old cache: " +:+ cacheName) ;;;
            _ <- cachesDelete cacheName ;; ret tt
       else ret tt)
    cacheNames ;;;
  consoleLog "[Service Worker] Activation complete".

(** What the worker posts on the reply port: [{ success: true }]. *)
Inductive PortMessage :=
  | Success.

Section Control.

Variable host : Host.
Variable manifest : list string.

(** The [message] listener, as the work it starts: [dataType] is
    [event.data.type] ([None] when [event.data] is missing or has no
    type), [hasPort] tells whether [event.ports[0]] is there (without it
    [postMessage] throws inside the promise chain and nothing is posted).
    The value is what was posted on the port. *)
Definition onMessage (dataType : option string) (hasPort : bool)
    : M (list PortMessage) :=
  cleared <- (match dataType with
              | Some t =>
                  if String.eqb t "CLEAR_CACHE"
                  then cacheNames <- cachesKeys ;;
                       forEach (fun cacheName => _ <- cachesDelete cacheName ;; ret tt)
                               cacheNames ;;;
                       ret (if hasPort then [Success] else [])
                  else ret []
              | None => ret []
              end) ;;
  checked <- (match dataType with
              | Some t =>
                  if String.eqb t "CHECK_CACHE"
                  then _ <- checkCacheHealth host manifest ;;
                       ret (if hasPort then [Success] else [])
                  else ret []
              | None => ret []
              end) ;;
  ret (cleared ++ checked).

End Control.

(** ** Relations between the world before and after a computation *)

(** [m] takes every state to one that [R] relates it to, with a value
    that satisfies [Q]. *)
Definition ensures {A} (R : World -> World -> Prop) (Q : A -> Prop) (m : M A) : Prop :=
  forall s, R (fst s) (fst (snd (m s))) /\ Q (fst (m s)).

(** Nothing observable but the console changes: the caches hold what
    they held, nothing is written, nothing is scheduled. *)
Definition readOnly (w w' : World) : Prop :=
  (forall name, Store.tier name (storage w') = Store.tier name (storage w)) /\
  journal w' = journal w /\
  tasks w' = tasks w /\
  skipWaitingCalled w' = skipWaitingCalled w.

(** The entries that can differ are those of the caches [names] under
    the keys [keys]. *)
Definition onlyTouches (names keys : list string) (w w' : World) : Prop :=
  forall name key,
    ~ In name names \/ ~ In key keys ->
    Store.tier name (storage w') !! key = Store.tier name (storage w) !! key.

(** No write is attempted. *)
Definition noWrite (w w' : World) : Prop := journal w' = journal w.

(** Nothing relates the two worlds. *)
Definition anyWorld (w w' : World) : Prop := True.

(** [R] lets a write into that cache under that key go any way: taken,
    refused, or taken and left in flight. *)
Definition allowsWrite (R : World -> World -> Prop) (name key : string) : Prop :=
  (forall r w, R w (putAccepted name key r w)) /\
  (forall w, R w (putRefused name key w)) /\
  (forall r w, R w (putLanding name key r w)).

(** The work the second world has pending beyond the first is all of
    the given kind. *)
Definition leavesOnly (expected : Task -> Prop) (w w' : World) : Prop :=
  exists new, tasks w' = tasks w ++ new /\ Forall expected new.

(** Pending work that belongs to the handling of [request] and writes
    only into the caches [names] under the keys [keys]: a re-validation
    of the request (it writes Primary and Secondary), a detached write
    of an answer to it, a write still in flight. *)
Definition expectedOf (names keys : list string) (request : Request) (t : Task)
    : Prop :=
  match t with
  | Timeout _ q =>
      q = request /\ In CACHE_PRIMARY names /\ In CACHE_SECONDARY names
  | DetachedPut name q _ => q = request /\ In name names
  | LandingPut name key _ => In name names /\ In key keys
  end.

(** Only entries of [names] under [keys] differ, and only work of that
    kind has been added. *)
Definition confined (names keys : list string) (request : Request) (w w' : World)
    : Prop :=
  onlyTouches names keys w w' /\ leavesOnly (expectedOf names keys request) w w'.

(** The caches a routed request may write to. *)
Definition tiersOf (r : Route) : list string :=
  match r with
  | Ignored => []
  | ApiStrategy => [CACHE_DATA]
  | DualCacheStrategy => [CACHE_PRIMARY; CACHE_SECONDARY]
  end.

(** The worlds a world can get to as the event loop runs, against a
    host of its own and in any order, pieces of the pending work from
    position [n] on. *)
Inductive settling (later : Host) (n : nat) (w : World) : World -> Prop :=
  | settling_now : settling later n w w
  | settling_step w' t :
      settling later n w w' ->
      In t (drop n (tasks w')) ->
      settling later n w (after (runTask later t) w').

(** ** The fallback chain as lookups in the storage *)

(** The entry under [key] in the first of the caches [names] that has
    one. *)
Fixpoint firstHit (names : list string) (key : string) (cs : CacheStorage)
    : option Response :=
  match names with
  | [] => None
  | name :: rest =>
      match Store.tier name cs !! key with
      | Some r => Some r
      | None => firstHit rest key cs
      end
  end.

(** What [findSimilarResource] finds in a given storage. *)
Definition similarIn (host : Host) (request : Request) (cs : CacheStorage)
    : option Response :=
  let path := Url.pathname (url request) in
  match (if Str.endsWith path "/" || negb (Str.includes path ".")
         then firstHit [CACHE_PRIMARY; CACHE_SECONDARY] (resolve host "/index.html") cs
         else None) with
  | Some r => Some r
  | None =>
      if String.eqb path "/" || String.eqb path "" || String.eqb path "/index.html"
      then firstHit [CACHE_PRIMARY; CACHE_SECONDARY] (resolve host "/") cs
      else None
  end.

(** The three aliases of the shell document in one cache, in the order
    [getNavigationFallback] looks at them. *)
Definition shellOf (host : Host) (c : gmap string Response) : option Response :=
  match c !! resolve host "/index.html", c !! resolve host "/" with
  | Some r, _ => Some r
  | None, Some r => Some r
  | None, None => c !! resolve host "index.html"
  end.

(** What [getNavigationFallback] finds in a given storage. *)
Definition shellIn (host : Host) (cs : CacheStorage) : option Response :=
  match shellOf host (Store.tier CACHE_PRIMARY cs) with
  | Some r => Some r
  | None => shellOf host (Store.tier CACHE_SECONDARY cs)
  end.

(** The two responses [getOfflineResponse] synthesizes. *)
Definition offlinePage : Response :=
  newResponse OFFLINE_PAGE None None
    [("Content-Type", "text/html"); ("Cache-Control", "no-cache")].

Definition offlineNotFound : Response :=
  newResponse "Offline - Resource not available" (Some 404) (Some "Offline") [].

(** What the [fetch] listener answers a dual-cache request with when the
    network attempt has failed and neither Primary nor Secondary holds the
    request, in a given storage. *)
Definition lastResort (host : Host) (request : Request) (cs : CacheStorage)
    : Response :=
  match similarIn host request cs with
  | Some r => r
  | None =>
      match (if String.eqb (mode request) "navigate" then shellIn host cs else None) with
      | Some r => r
      | None =>
          match Store.tier CACHE_DATA cs !! url request with
          | Some r => r
          | None =>
              if String.eqb (mode request) "navigate" then offlinePage
              else offlineNotFound
          end
      end
  end.

(** Between two worlds: whatever Primary or Secondary holds in the
    second, one of the two held under the same key in the first. *)
Definition copiesOnly (w w' : World) : Prop :=
  forall name key r,
    In name [CACHE_PRIMARY; CACHE_SECONDARY] ->
    Store.tier name (storage w') !! key = Some r ->
    Store.tier CACHE_PRIMARY (storage w) !! key = Some r \/
    Store.tier CACHE_SECONDARY (storage w) !! key = Some r.

(** The host with its network taken away. *)
Definition disconnected (host : Host) : Host :=
  {| resolve := resolve host;
     network := fun _ => None;
     storageFault := storageFault host;
     landsLate := landsLate host |}.

(** ** More concrete hosts, requests and worlds *)

Module Scenario.

(** An application route, a file and a navigation to a file. *)
Definition dashboard : Request := Demo.get "https://music.example/dashboard".

Definition logoPng : Request := Demo.get "https://music.example/logo.png".

Definition aboutPage : Request :=
  {| method := "GET"; url := "https://music.example/about.html";
     mode := "navigate"; cacheMode := "default" |}.

(** What [Demo.online] answers the installation's request for an asset
    with. *)
Definition served (asset : string) : Response :=
  Demo.ok ("fresh " +:+ Demo.resolveAt asset).

(** Online, but the icon cannot be fetched. *)
Definition iconMissing : Host :=
  {| resolve := Demo.resolveAt;
     network := fun q =>
       if String.eqb (url q) "https://music.example/icon.svg" then None
       else Demo.online q;
     storageFault := Demo.noFault;
     landsLate := fun _ => false |}.

Definition notFound : Response :=
  {| status := 404; statusText := "Not Found"; headers := []; body := "no such file" |}.

(** Online, and every request is answered with status 404. *)
Definition answering404 : Host :=
  {| resolve := Demo.resolveAt;
     network := fun _ => Some notFound;
     storageFault := Demo.noFault;
     landsLate := fun _ => false |}.

(** A request that is not a GET. *)
Definition upload : Request :=
  {| method := "POST"; url := "https://music.example/upload";
     mode := "cors"; cacheMode := "default" |}.

(** A manifest of the shell document alone. *)
Definition shellOnly : list string := ["/index.html"].

End Scenario.

(** * Properties *)

(** ** Strings and URLs on examples *)

Example pathname_with_query :
  Url.pathname "https://example.org/music/song.mp3?x=1" = "/music/song.mp3".
Proof. reflexivity. Qed.

Example pathname_of_origin : Url.pathname "https://example.org" = "/".
Proof. reflexivity. Qed.

Example filename_with_fragment :
  Url.filename "https://example.org/api/tracks.json#top" = "tracks.json".
Proof. reflexivity. Qed.

Example audio_is_case_insensitive_and_anchored :
  isAudioUrl "https://music.example/Song.MP3" = true /\
  isAudioUrl "https://music.example/song.mp3?x=1" = false.
Proof. split; reflexivity. Qed.

(** ** Cache storage *)

Section StoreFacts.

Implicit Types (cs : CacheStorage) (name : string).

Lemma find_open_same name cs :
  Store.find name (Store.open name cs) = Some (Store.tier name cs).
Proof.
  unfold Store.open, Store.tier.
  destruct (Store.find name cs) as [c|] eqn:E; [exact E|].
  simpl. induction cs as [|[n c] cs IH]; simpl in *.
  - by rewrite String.eqb_refl.
  - destruct (String.eqb n name); [discriminate|]. by apply IH.
Qed.

Lemma find_open_other name name' cs :
  name <> name' -> Store.find name' (Store.open name cs) = Store.find name' cs.
Proof.
  intros Hne. unfold Store.open.
  destruct (Store.find name cs); [done|].
  induction cs as [|[n c] cs IH]; simpl.
  - apply String.eqb_neq in Hne. by rewrite Hne.
  - destruct (String.eqb n name'); [done|]. apply IH.
Qed.

Lemma tier_open name name' cs :
  Store.tier name' (Store.open name cs) = Store.tier name' cs.
Proof.
  destruct (String.eqb_spec name name') as [->|Hne].
  - unfold Store.tier at 1. by rewrite find_open_same.
  - unfold Store.tier. by rewrite find_open_other.
Qed.

Lemma find_update name name' f cs :
  Store.find name' (Store.update name f cs) =
  (if String.eqb name' name then f else id) <$> Store.find name' cs.
Proof.
  induction cs as [|[n c] cs IH]; simpl; [done|].
  destruct (String.eqb_spec n name') as [->|Hn]; [|exact IH].
  simpl. by destruct (String.eqb name' name).
Qed.

Lemma tier_update_other name name' f cs :
  name <> name' -> Store.tier name' (Store.update name f cs) = Store.tier name' cs.
Proof.
  intros Hne. unfold Store.tier. rewrite find_update.
  destruct (String.eqb_spec name' name) as [->|_]; [done|].
  by destruct (Store.find name' cs).
Qed.

Lemma tier_update_open name f cs :
  Store.tier name (Store.update name f (Store.open name cs)) = f (Store.tier name cs).
Proof.
  unfold Store.tier at 1. rewrite find_update, find_open_same.
  by rewrite String.eqb_refl.
Qed.

Lemma find_update_is_Some name name' f cs :
  is_Some (Store.find name' (Store.update name f cs)) <-> is_Some (Store.find name' cs).
Proof. rewrite find_update. by rewrite fmap_is_Some. Qed.

End StoreFacts.

(** ** Cache writes *)

Section WriteFacts.

Variable host : Host.

Lemma cachePut_run name key r w n :
  cachePut host name key r (w, n) =
  if storageFault host n name key
  then (false, (putRefused name key w, S n))
  else (true, (putAccepted name key r w, S n)).
Proof.
  unfold cachePut, bind, cachesOpen, putRefused, putAccepted. simpl.
  by destruct (storageFault host n name key).
Qed.

Lemma tier_putAccepted_same name key r w :
  Store.tier name (storage (putAccepted name key r w)) =
  <[key := r]> (Store.tier name (storage w)).
Proof. simpl. apply tier_update_open. Qed.

Lemma tier_putAccepted_other name name' key r w :
  name <> name' ->
  Store.tier name' (storage (putAccepted name key r w)) = Store.tier name' (storage w).
Proof. intros Hne. simpl. rewrite tier_update_other by done. apply tier_open. Qed.

Lemma tier_putRefused name name' key w :
  Store.tier name' (storage (putRefused name key w)) = Store.tier name' (storage w).
Proof. simpl. apply tier_open. Qed.

Lemma tier_putLanding name name' key r w :
  Store.tier name' (storage (putLanding name key r w)) = Store.tier name' (storage w).
Proof. simpl. apply tier_open. Qed.

Lemma lookup_putAccepted name key r w :
  Store.tier name (storage (putAccepted name key r w)) !! key = Some r.
Proof. rewrite tier_putAccepted_same. apply lookup_insert_eq. Qed.

End WriteFacts.

Lemma tier_names_distinct :
  CACHE_PRIMARY <> CACHE_SECONDARY /\ CACHE_PRIMARY <> CACHE_DATA /\
  CACHE_SECONDARY <> CACHE_DATA.
Proof. repeat split; discriminate. Qed.

(** Split on what the fault oracle says about the next write in sight. *)
Ltac case_fault :=
  match goal with
  | |- context [storageFault ?h ?n ?c ?k] =>
      let F := fresh "Hfault" in destruct (storageFault h n c k) eqn:F
  end.

(** Unfold a handler down to the writes. *)
Ltac unfold_handler :=
  unfold result, after, run, handleDualCacheRequest, handleApiRequest,
    updateBothCaches, refreshCacheInBackground, fetch, bind, ret.

Section DualCache.

Variable host : Host.

(** Whatever the storage layer does with the writes, a 200 from the
    network is what the dual-cache strategy answers with. *)
Lemma dual_success_result request r w :
  network host request = Some r -> status r = 200 ->
  result (handleDualCacheRequest host request) w = Resolved r.
Proof.
  intros Hnet Hst.
  unfold result, run, handleDualCacheRequest, fetch, bind, ret.
  rewrite Hnet, Hst. simpl.
  by destruct (updateBothCaches host (url request) r (w, 0%nat)) as [[] [w1 n1]].
Qed.

End DualCache.

Lemma storage_say e w : storage (say e w) = storage w.
Proof. reflexivity. Qed.

Lemma storage_setStorage cs w : storage (setStorage cs w) = cs.
Proof. reflexivity. Qed.

Lemma journal_putAccepted name key r w :
  journal (putAccepted name key r w) = journal w ++ [mkWrite name key true].
Proof. reflexivity. Qed.

Lemma journal_putRefused name key w :
  journal (putRefused name key w) = journal w ++ [mkWrite name key false].
Proof. reflexivity. Qed.

Section UpdateBoth.

Variable host : Host.

Lemma racingPut_run overtaken name key r w n :
  racingPut host overtaken name key r (w, n) =
  if storageFault host n name key
  then (false, (putRefused name key w, S n))
  else if overtaken && landsLate host n
       then (true, (putLanding name key r w, S n))
       else (true, (putAccepted name key r w, S n)).
Proof.
  unfold racingPut, bind, cachesOpen, putRefused, putAccepted, putLanding, opened.
  simpl. destruct (storageFault host n name key); [done|].
  by destruct (overtaken && landsLate host n).
Qed.

Ltac discriminate_hyp :=
  match goal with
  | H : true = false |- _ => discriminate H
  | H : false = true |- _ => discriminate H
  end.

(** [updateBothCaches] down to the writes, ready for a case split on
    what the host does with each. *)
Ltac split_on_writes :=
  unfold after, run, updateBothCaches, bind, ret, willRefuse,
    consoleLog, consoleError;
  cbv beta iota zeta; cbn [Nat.add];
  rewrite ?racingPut_run;
  repeat (first [ case_fault
                | match goal with
                  | |- context [landsLate ?h ?n] => destruct (landsLate h n) eqn:?
                  end ];
          try discriminate_hyp;
          cbn [andb orb negb]; cbv beta iota;
          rewrite ?racingPut_run, ?cachePut_run);
  cbn [fst snd].

(** Read a tier through the writes of a run. *)
Ltac through_writes :=
  repeat first
    [ rewrite storage_say
    | rewrite tier_putRefused
    | rewrite tier_putLanding
    | rewrite tier_putAccepted_same, lookup_insert_eq
    | rewrite tier_putAccepted_other by (discriminate || done) ].

(** The run of [updateBothCaches] when the storage layer takes both
    writes. *)
Lemma updateBothCaches_accepted requestKey r w n :
  storageFault host n CACHE_PRIMARY (resolve host requestKey) = false ->
  storageFault host (S n) CACHE_SECONDARY (resolve host requestKey) = false ->
  updateBothCaches host requestKey r (w, n) =
  (tt, (say (ConsoleLog ("[Service Worker] Updated both caches for: " +:+ requestKey))
          (putAccepted CACHE_SECONDARY (resolve host requestKey) r
             (putAccepted CACHE_PRIMARY (resolve host requestKey) r w)),
        S (S n))).
Proof.
  intros H0 H1. unfold updateBothCaches, bind, willRefuse.
  cbv beta iota zeta. cbn [Nat.add].
  rewrite H0, H1, racingPut_run, H0. cbn [andb]. cbv beta iota.
  rewrite racingPut_run, H1. reflexivity.
Qed.

(** The handler awaits [updateBothCaches]: the world it returns in is the
    world in which [updateBothCaches] has settled. *)
Lemma dual_success_run request r w :
  network host request = Some r -> status r = 200 ->
  run (handleDualCacheRequest host request) w =
  (Resolved r, after (updateBothCaches host (url request) r) w).
Proof.
  intros Hnet Hst.
  unfold after, run, handleDualCacheRequest, fetch, bind, ret.
  rewrite Hnet, Hst. simpl.
  by destruct (updateBothCaches host (url request) r (w, 0%nat)) as [[] [w1 n1]].
Qed.

Lemma dual_success_after request r w :
  network host request = Some r -> status r = 200 ->
  after (handleDualCacheRequest host request) w =
  after (updateBothCaches host (url request) r) w.
Proof.
  intros Hnet Hst. unfold after at 1. by rewrite (dual_success_run request r).
Qed.

Lemma updateBothCaches_journal requestKey r w :
  journal (after (updateBothCaches host requestKey r) w) =
  journal w ++ attemptsOf host (resolve host requestKey).
Proof.
  unfold attemptsOf. split_on_writes;
    simpl; rewrite <- ?app_assoc; reflexivity.
Qed.

(** What [updateBothCaches] leaves in flight: an accepted first write
    whose partner was refused, when the host has it land late. *)
Lemma updateBothCaches_tasks requestKey r w :
  let key := resolve host requestKey in
  let f0 := storageFault host 0 CACHE_PRIMARY key in
  let f1 := storageFault host 1 CACHE_SECONDARY key in
  tasks (after (updateBothCaches host requestKey r) w) =
    tasks w
    ++ (if negb f0 && f1 && landsLate host 0
        then [LandingPut CACHE_PRIMARY key r] else [])
    ++ (if f0 && negb f1 && landsLate host 1
        then [LandingPut CACHE_SECONDARY key r] else []).
Proof.
  cbv zeta. split_on_writes; simpl; rewrite ?app_nil_r; reflexivity.
Qed.

Lemma updateBothCaches_all_refused requestKey r w :
  storageFault host 0 CACHE_PRIMARY (resolve host requestKey) = true ->
  storageFault host 1 CACHE_SECONDARY (resolve host requestKey) = true ->
  storageFault host 2 CACHE_PRIMARY (resolve host requestKey) = true ->
  storageFault host 3 CACHE_SECONDARY (resolve host requestKey) = true ->
  last (console (after (updateBothCaches host requestKey r) w)) =
    Some (ConsoleError "[Service Worker] All cache updates failed").
Proof.
  intros H0 H1 H2 H3.
  unfold after, run, updateBothCaches, bind, ret, willRefuse. cbv beta iota zeta.
  cbn [Nat.add]. rewrite H0, H1, racingPut_run, H0. cbv beta iota.
  rewrite racingPut_run, H1. cbn [andb]. cbv beta iota.
  unfold consoleError at 1. cbv beta iota.
  rewrite cachePut_run, H2. cbv beta iota. rewrite cachePut_run, H3. cbv beta iota.
  unfold consoleError. cbn [fst snd]. apply last_snoc.
Qed.

(** What the two tiers hold under the key once [updateBothCaches] has
    settled: the response when a write into the tier has landed by then
    (the first one, accepted and not left in flight, or the retry), and
    what they held otherwise. *)
Lemma updateBothCaches_tiers requestKey r w :
  let key := resolve host requestKey in
  let f0 := storageFault host 0 CACHE_PRIMARY key in
  let f1 := storageFault host 1 CACHE_SECONDARY key in
  let f2 := storageFault host 2 CACHE_PRIMARY key in
  let f3 := storageFault host 3 CACHE_SECONDARY key in
  let w' := after (updateBothCaches host requestKey r) w in
  Store.tier CACHE_PRIMARY (storage w') !! key =
    (if negb f0 && negb (f1 && landsLate host 0) || (f0 || f1) && negb f2
     then Some r else Store.tier CACHE_PRIMARY (storage w) !! key) /\
  Store.tier CACHE_SECONDARY (storage w') !! key =
    (if negb f1 && negb (f0 && landsLate host 1) || (f0 || f1) && f2 && negb f3
     then Some r else Store.tier CACHE_SECONDARY (storage w) !! key).
Proof.
  cbv zeta. split; split_on_writes; through_writes; reflexivity.
Qed.

End UpdateBoth.

Arguments putAccepted : simpl never.
Arguments putRefused : simpl never.
Arguments say : simpl never.
Arguments enqueue : simpl never.

(** ** The dual-cache strategy on a successful fetch *)

Section DualSuccess.

Variable host : Host.

(** C1 (amended).  For a request handled by the dual-cache strategy
    whose fetch returns a response with status 200, the network response
    is what the handler returns, whatever the storage layer does with the
    writes.  When the handler returns, a tier holds that response under
    the request's URL exactly when a write into it has landed by then:
    its first write, accepted and not left in flight by a refusal of the
    other one, or its retry (Primary is retried after any refusal,
    Secondary only after a refused Primary retry); otherwise the tier
    holds what it held.  In particular both tiers hold the response when
    neither of the two first writes is refused. *)
Theorem dual_success_fills_both_tiers request r w :
  network host request = Some r -> status r = 200 ->
  let key := resolve host (url request) in
  let f0 := storageFault host 0 CACHE_PRIMARY key in
  let f1 := storageFault host 1 CACHE_SECONDARY key in
  let f2 := storageFault host 2 CACHE_PRIMARY key in
  let f3 := storageFault host 3 CACHE_SECONDARY key in
  let w' := after (handleDualCacheRequest host request) w in
  result (handleDualCacheRequest host request) w = Resolved r /\
  Store.tier CACHE_PRIMARY (storage w') !! key =
    (if negb f0 && negb (f1 && landsLate host 0) || (f0 || f1) && negb f2
     then Some r else Store.tier CACHE_PRIMARY (storage w) !! key) /\
  Store.tier CACHE_SECONDARY (storage w') !! key =
    (if negb f1 && negb (f0 && landsLate host 1) || (f0 || f1) && f2 && negb f3
     then Some r else Store.tier CACHE_SECONDARY (storage w) !! key) /\
  (f0 = false -> f1 = false ->
   Store.tier CACHE_PRIMARY (storage w') !! key = Some r /\
   Store.tier CACHE_SECONDARY (storage w') !! key = Some r).
Proof.
  intros Hnet Hst key f0 f1 f2 f3 w'.
  split; [by apply dual_success_result|].
  subst w'. rewrite (dual_success_after host request r w) by done.
  destruct (updateBothCaches_tiers host (url request) r w) as [HP HS].
  fold key f0 f1 f2 f3 in HP, HS.
  split; [exact HP|]. split; [exact HS|].
  intros H0 H1. rewrite HP, HS, H0, H1. by split.
Qed.

(** C2 (amended).  On a fetch with status 200 the handler awaits
    [updateBothCaches] before it returns: it returns the network
    response in the world in which [updateBothCaches] has settled, and
    both first writes and the awaited retries are in the journal by
    then.  When neither of the two first writes is refused, both have
    landed and no work is left pending.  When one of them is refused,
    [Promise.all] rejects at once and the other one, if the storage
    layer accepts it, may be the one piece of work still in flight when
    the handler returns.  The outcome of the writes is never part of the
    handler's result. *)
Theorem dual_success_returns_after_writes request r w :
  network host request = Some r -> status r = 200 ->
  let key := resolve host (url request) in
  let f0 := storageFault host 0 CACHE_PRIMARY key in
  let f1 := storageFault host 1 CACHE_SECONDARY key in
  let w' := after (handleDualCacheRequest host request) w in
  run (handleDualCacheRequest host request) w =
    (Resolved r, after (updateBothCaches host (url request) r) w) /\
  journal w' = journal w ++ attemptsOf host key /\
  tasks w' =
    tasks w
    ++ (if negb f0 && f1 && landsLate host 0
        then [LandingPut CACHE_PRIMARY key r] else [])
    ++ (if f0 && negb f1 && landsLate host 1
        then [LandingPut CACHE_SECONDARY key r] else []) /\
  (f0 = false -> f1 = false ->
   journal w' = journal w ++ [mkWrite CACHE_PRIMARY key true;
                              mkWrite CACHE_SECONDARY key true] /\
   tasks w' = tasks w /\
   Store.tier CACHE_PRIMARY (storage w') !! key = Some r /\
   Store.tier CACHE_SECONDARY (storage w') !! key = Some r).
Proof.
  intros Hnet Hst key f0 f1 w'.
  split; [by apply dual_success_run|].
  subst w'. rewrite (dual_success_after host request r w) by done.
  pose proof (updateBothCaches_journal host (url request) r w) as Hj.
  pose proof (updateBothCaches_tasks host (url request) r w) as Ht.
  destruct (updateBothCaches_tiers host (url request) r w) as [HP HS].
  cbv zeta in Ht. fold key in Hj, Ht, HP, HS. fold f0 f1 in Ht, HP, HS.
  split; [exact Hj|]. split; [exact Ht|].
  intros H0 H1. rewrite Hj, Ht, HP, HS. unfold attemptsOf. fold key f0 f1.
  rewrite H0, H1. simpl. by rewrite app_nil_r.
Qed.

(** C3 (amended).  [updateBothCaches] writes Primary then Secondary; if
    either write is refused it writes Primary again, whichever tier
    failed, and writes Secondary again only when that Primary retry is
    refused as well.  When every write is refused the failure is logged,
    and in all cases the handler still answers with the network
    response. *)
Theorem updateBothCaches_retries_primary_first requestKey r w :
  let key := resolve host requestKey in
  let f0 := storageFault host 0 CACHE_PRIMARY key in
  let f1 := storageFault host 1 CACHE_SECONDARY key in
  let f2 := storageFault host 2 CACHE_PRIMARY key in
  let f3 := storageFault host 3 CACHE_SECONDARY key in
  let w' := after (updateBothCaches host requestKey r) w in
  (f0 = true \/ f1 = true ->
   journal w' = journal w ++ [mkWrite CACHE_PRIMARY key (negb f0);
                              mkWrite CACHE_SECONDARY key (negb f1);
                              mkWrite CACHE_PRIMARY key (negb f2)]
                          ++ (if f2 then [mkWrite CACHE_SECONDARY key (negb f3)] else [])) /\
  (f0 = true -> f1 = true -> f2 = true -> f3 = true ->
   last (console w') = Some (ConsoleError "[Service Worker] All cache updates failed")) /\
  (forall request, network host request = Some r -> status r = 200 ->
   result (handleDualCacheRequest host request) w = Resolved r).
Proof.
  intros key f0 f1 f2 f3 w'. subst w'.
  rewrite updateBothCaches_journal. fold key. unfold attemptsOf. fold f0 f1 f2 f3.
  split; [|split].
  - intros Hfail.
    assert (f0 || f1 = true) as -> by (destruct Hfail as [-> | ->]; [done | apply orb_true_r]).
    by destruct f2.
  - subst f0 f1 f2 f3 key. intros H0 H1 H2 H3.
    by apply updateBothCaches_all_refused.
  - intros request Hnet Hst. by apply dual_success_result.
Qed.

End DualSuccess.

(** C1, counterexample.  The fetch answers 200 and the storage layer
    refuses the one write into the Secondary tier: [updateBothCaches]
    retries Primary only, and the handler returns with the Secondary tier
    not holding the response. *)
Lemma dual_success_secondary_write_refused :
  network (Demo.onlineFaultAt 1) Demo.appJs = Some Demo.freshAppJs /\
  status Demo.freshAppJs = 200 /\
  route Demo.appJs = DualCacheStrategy /\
  result (handleDualCacheRequest (Demo.onlineFaultAt 1) Demo.appJs) Demo.emptyWorld
    = Resolved Demo.freshAppJs /\
  Store.tier CACHE_SECONDARY
    (storage (after (handleDualCacheRequest (Demo.onlineFaultAt 1) Demo.appJs)
                    Demo.emptyWorld))
    !! url Demo.appJs = None.
Proof. repeat split; vm_compute; reflexivity. Qed.

Lemma dual_success_fills_both_tiers_witness :
  result (handleDualCacheRequest Demo.onlineHost Demo.appJs) Demo.emptyWorld
    = Resolved Demo.freshAppJs /\
  Store.tier CACHE_PRIMARY
    (storage (after (handleDualCacheRequest Demo.onlineHost Demo.appJs) Demo.emptyWorld))
    !! url Demo.appJs = Some Demo.freshAppJs /\
  Store.tier CACHE_SECONDARY
    (storage (after (handleDualCacheRequest Demo.onlineHost Demo.appJs) Demo.emptyWorld))
    !! url Demo.appJs = Some Demo.freshAppJs.
Proof.
  pose proof (dual_success_fills_both_tiers Demo.onlineHost Demo.appJs Demo.freshAppJs
                Demo.emptyWorld eq_refl eq_refl) as H.
  cbv zeta in H. destruct H as (Hres & _ & _ & Hboth).
  split; [exact Hres|]. apply Hboth; reflexivity.
Defined.

(** Only the first write into Primary is refused and nothing lands
    late: the retry fills Primary, and both tiers hold the response
    when the handler returns. *)
Lemma primary_refused_once_both_tiers_filled :
  storageFault (Demo.onlineFaultAt 0) 0 CACHE_PRIMARY (url Demo.appJs) = true /\
  Store.tier CACHE_PRIMARY
    (storage (after (handleDualCacheRequest (Demo.onlineFaultAt 0) Demo.appJs)
                    Demo.emptyWorld))
    !! url Demo.appJs = Some Demo.freshAppJs /\
  Store.tier CACHE_SECONDARY
    (storage (after (handleDualCacheRequest (Demo.onlineFaultAt 0) Demo.appJs)
                    Demo.emptyWorld))
    !! url Demo.appJs = Some Demo.freshAppJs.
Proof. repeat split; vm_compute; reflexivity. Qed.

(** The same refusal with the write into Secondary still in flight when
    [Promise.all] rejects: the handler returns with Secondary not yet
    holding the response, and the write lands afterwards. *)
Lemma secondary_write_overtaken :
  result (handleDualCacheRequest (Demo.onlineRacing 0) Demo.appJs) Demo.emptyWorld
    = Resolved Demo.freshAppJs /\
  Store.tier CACHE_PRIMARY
    (storage (after (handleDualCacheRequest (Demo.onlineRacing 0) Demo.appJs)
                    Demo.emptyWorld))
    !! url Demo.appJs = Some Demo.freshAppJs /\
  Store.tier CACHE_SECONDARY
    (storage (after (handleDualCacheRequest (Demo.onlineRacing 0) Demo.appJs)
                    Demo.emptyWorld))
    !! url Demo.appJs = None /\
  tasks (after (handleDualCacheRequest (Demo.onlineRacing 0) Demo.appJs) Demo.emptyWorld)
    = [LandingPut CACHE_SECONDARY (url Demo.appJs) Demo.freshAppJs] /\
  Store.tier CACHE_SECONDARY
    (storage (after (runTask (Demo.onlineRacing 0)
                       (LandingPut CACHE_SECONDARY (url Demo.appJs) Demo.freshAppJs))
                    (after (handleDualCacheRequest (Demo.onlineRacing 0) Demo.appJs)
                           Demo.emptyWorld)))
    !! url Demo.appJs = Some Demo.freshAppJs.
Proof. repeat split; vm_compute; reflexivity. Qed.

(** C2, counterexample.  With the network answering 200 and no storage
    fault, at the moment the handler's promise settles both cache writes
    have already been carried out and nothing has been left to run later:
    the response was returned after the writes, not ahead of them. *)
Lemma dual_success_waits_for_writes :
  network Demo.onlineHost Demo.appJs = Some Demo.freshAppJs /\
  status Demo.freshAppJs = 200 /\
  result (handleDualCacheRequest Demo.onlineHost Demo.appJs) Demo.emptyWorld
    = Resolved Demo.freshAppJs /\
  journal (after (handleDualCacheRequest Demo.onlineHost Demo.appJs) Demo.emptyWorld)
    = [mkWrite CACHE_PRIMARY (url Demo.appJs) true;
       mkWrite CACHE_SECONDARY (url Demo.appJs) true] /\
  tasks (after (handleDualCacheRequest Demo.onlineHost Demo.appJs) Demo.emptyWorld) = [].
Proof. repeat split; vm_compute; reflexivity. Qed.

Lemma dual_success_returns_after_writes_witness :
  run (handleDualCacheRequest Demo.onlineHost Demo.appJs) Demo.emptyWorld =
    (Resolved Demo.freshAppJs,
     after (updateBothCaches Demo.onlineHost (url Demo.appJs) Demo.freshAppJs)
           Demo.emptyWorld) /\
  journal (after (handleDualCacheRequest Demo.onlineHost Demo.appJs) Demo.emptyWorld) =
    journal Demo.emptyWorld
    ++ [mkWrite CACHE_PRIMARY (url Demo.appJs) true;
        mkWrite CACHE_SECONDARY (url Demo.appJs) true] /\
  tasks (after (handleDualCacheRequest Demo.onlineHost Demo.appJs) Demo.emptyWorld)
    = tasks Demo.emptyWorld.
Proof.
  pose proof (dual_success_returns_after_writes Demo.onlineHost Demo.appJs
                Demo.freshAppJs Demo.emptyWorld eq_refl eq_refl) as H.
  cbv zeta in H. destruct H as (Hrun & _ & _ & Hdone).
  split; [exact Hrun|].
  destruct Hdone as (Hjournal & Htasks & _); [reflexivity|reflexivity|].
  split; [exact Hjournal | exact Htasks].
Defined.

(** C3, counterexample.  Only the first write, the one into Primary, is
    refused.  The retry that follows goes to Primary again, the tier that
    failed, and Secondary, the tier that did not fail, is not written a
    second time. *)
Lemma primary_refusal_retried_on_primary :
  storageFault (Demo.onlineFaultAt 0) 0 CACHE_PRIMARY (url Demo.appJs) = true /\
  storageFault (Demo.onlineFaultAt 0) 1 CACHE_SECONDARY (url Demo.appJs) = false /\
  journal (after (updateBothCaches (Demo.onlineFaultAt 0) (url Demo.appJs) Demo.freshAppJs)
                 Demo.emptyWorld)
    = [mkWrite CACHE_PRIMARY (url Demo.appJs) false;
       mkWrite CACHE_SECONDARY (url Demo.appJs) true;
       mkWrite CACHE_PRIMARY (url Demo.appJs) true].
Proof. repeat split; vm_compute; reflexivity. Qed.

Lemma updateBothCaches_retries_primary_first_witness :
  journal (after (updateBothCaches Demo.onlineRefusing (url Demo.appJs) Demo.freshAppJs)
                 Demo.emptyWorld)
    = [mkWrite CACHE_PRIMARY (url Demo.appJs) false;
       mkWrite CACHE_SECONDARY (url Demo.appJs) false;
       mkWrite CACHE_PRIMARY (url Demo.appJs) false;
       mkWrite CACHE_SECONDARY (url Demo.appJs) false] /\
  last (console (after (updateBothCaches Demo.onlineRefusing (url Demo.appJs)
                          Demo.freshAppJs) Demo.emptyWorld))
    = Some (ConsoleError "[Service Worker] All cache updates failed") /\
  result (handleDualCacheRequest Demo.onlineRefusing Demo.appJs) Demo.emptyWorld
    = Resolved Demo.freshAppJs.
Proof.
  destruct (updateBothCaches_retries_primary_first Demo.onlineRefusing
              (url Demo.appJs) Demo.freshAppJs Demo.emptyWorld) as (Hretry & Hlog & Hres).
  split; [|split].
  - apply Hretry. left. reflexivity.
  - apply Hlog; reflexivity.
  - apply Hres; reflexivity.
Defined.

(** ** The audio test *)

Lemma append_String c (s t : string) : String c s +:+ t = String c (s +:+ t).
Proof. reflexivity. Qed.

Lemma append_empty_l (t : string) : "" +:+ t = t.
Proof. reflexivity. Qed.

Lemma endsWith_spec s p : Str.endsWith s p = true <-> exists a, s = a +:+ p.
Proof.
  induction s as [|c s IH].
  - change (Str.endsWith "" p) with (String.eqb "" p || false).
    rewrite orb_false_r, String.eqb_eq. split.
    + intros <-. by exists "".
    + intros (a & Ha). destruct a as [|x a]; [done|].
      rewrite append_String in Ha. discriminate Ha.
  - change (Str.endsWith (String c s) p)
      with (String.eqb (String c s) p || Str.endsWith s p).
    rewrite orb_true_iff, String.eqb_eq, IH. split.
    + intros [<-|(a & ->)]; [by exists ""|]. by exists (String c a).
    + intros (a & Ha). destruct a as [|x a].
      * left. by rewrite append_empty_l in Ha.
      * right. rewrite append_String in Ha. injection Ha as _ ->. by exists a.
Qed.

Lemma toLowerCase_app s t :
  Str.toLowerCase (s +:+ t) = Str.toLowerCase s +:+ Str.toLowerCase t.
Proof.
  induction s as [|c s IH]; [done|].
  rewrite append_String. simpl Str.toLowerCase. by rewrite append_String, IH.
Qed.

Lemma toLowerCase_split u a p :
  Str.toLowerCase u = a +:+ p ->
  exists stem ext, u = stem +:+ ext /\ Str.toLowerCase ext = p.
Proof.
  revert u. induction a as [|x a IH]; intros u Hu.
  - exists "", u. by rewrite append_empty_l in Hu.
  - rewrite append_String in Hu. destruct u as [|c u]; [discriminate Hu|].
    simpl in Hu. injection Hu as _ Hu.
    destruct (IH u Hu) as (stem & ext & -> & Hext).
    by exists (String c stem), ext.
Qed.

Lemma lowerChar_spec c d :
  (nat_of_ascii d < 65 \/ 90 < nat_of_ascii d)%nat ->
  Str.lowerChar c = d <-> sameLetter c d.
Proof.
  intros Hd. unfold Str.lowerChar, sameLetter. cbv zeta.
  pose proof (nat_ascii_bounded c) as Hc.
  destruct (Nat.leb_spec 65 (nat_of_ascii c)) as [Hlo|Hlo];
    destruct (Nat.leb_spec (nat_of_ascii c) 90) as [Hhi|Hhi]; simpl.
  - split.
    + intros <-. right. rewrite nat_ascii_embedding by lia. lia.
    + intros [<-|(_ & _ & Heq)]; [lia|].
      by rewrite Heq, ascii_nat_embedding.
  - split; [by left|]. intros [H|(_ & H & _)]; [done|lia].
  - split; [by left|]. intros [H|(H & _)]; [done|lia].
  - split; [by left|]. intros [H|(H & _)]; [done|lia].
Qed.

Lemma toLowerCase_matches s p :
  lowerCasePattern p -> Str.toLowerCase s = p <-> matchesIgnoringCase s p.
Proof.
  revert p. induction s as [|c s IH]; intros [|d p]; simpl; try done.
  intros [Hd Hp]. rewrite <- (IH p Hp), <- (lowerChar_spec c d Hd).
  split; [by intros [= -> ->]|by intros [-> ->]].
Qed.

Lemma endsWith_lower_spec u p :
  lowerCasePattern p ->
  Str.endsWith (Str.toLowerCase u) p = true <->
  exists stem ext, u = stem +:+ ext /\ matchesIgnoringCase ext p.
Proof.
  intros Hp. rewrite endsWith_spec. split.
  - intros (a & Ha). destruct (toLowerCase_split u a p Ha) as (stem & ext & -> & Hext).
    exists stem, ext. split; [done|]. by apply toLowerCase_matches.
  - intros (stem & ext & -> & Hext). exists (Str.toLowerCase stem).
    rewrite toLowerCase_app. f_equal. by apply toLowerCase_matches.
Qed.

(** The audio test of the code is the test for an audio extension. *)
Lemma isAudioUrl_spec u : isAudioUrl u = true <-> hasAudioExtension u.
Proof.
  unfold isAudioUrl, AUDIO_EXTENSIONS, hasAudioExtension. cbn [existsb].
  change ("." +:+ "mp3") with ".mp3". change ("." +:+ "wav") with ".wav".
  change ("." +:+ "ogg") with ".ogg". change ("." +:+ "flac") with ".flac".
  rewrite orb_false_r, !orb_true_iff.
  rewrite !endsWith_lower_spec
    by (simpl; repeat split;
        first [left; apply Nat.ltb_lt; reflexivity | right; apply Nat.ltb_lt; reflexivity]).
  split.
  - intros [(stem & ext & -> & H)|[(stem & ext & -> & H)|
            [(stem & ext & -> & H)|(stem & ext & -> & H)]]];
      exists stem, ext; tauto.
  - intros (stem & ext & -> & [H|[H|[H|H]]]);
      [left|right; left|right; right; left|right; right; right]; by exists stem, ext.
Qed.

Lemma isAudioUrl_false u : isAudioUrl u = false <-> ~ hasAudioExtension u.
Proof.
  rewrite <- isAudioUrl_spec. by destruct (isAudioUrl u); split.
Qed.

(** ** The dual-cache strategy when the network attempt fails *)

Lemma cacheMatch_run name key w n :
  cacheMatch name key (w, n) =
  (Store.tier name (storage w) !! key,
   (setStorage (Store.open name (storage w)) w, n)).
Proof.
  unfold cacheMatch, bind, cachesOpen. simpl. by rewrite tier_open.
Qed.

Section DualOffline.

Variable host : Host.

(** The [try] block of the handler comes back empty-handed. *)
Lemma networkFails_cases request :
  networkFails host request ->
  network host request = None \/
  exists r, network host request = Some r /\ (status r =? 200) = false.
Proof.
  unfold networkFails. destruct (network host request) as [r|]; [|by left].
  intros Hst. right. exists r. split; [done|]. by apply Z.eqb_neq.
Qed.

(** C4.  When the network attempt fails (the fetch rejects or its status
    is not 200) and the Primary tier holds an entry under the request's
    URL, the handler returns that entry, so the body returned is the body
    of the Primary entry.  It schedules nothing when the URL, as a whole
    string, ends in .mp3, .wav, .ogg or .flac (in any letter case), and
    otherwise exactly one background re-validation of the request, after
    1000 ms.  No cache write is made before the handler returns. *)
Theorem primary_hit_served_and_revalidated request entry w :
  networkFails host request ->
  Store.tier CACHE_PRIMARY (storage w) !! url request = Some entry ->
  result (handleDualCacheRequest host request) w = Resolved entry /\
  (exists r, result (handleDualCacheRequest host request) w = Resolved r /\
             body r = body entry) /\
  (hasAudioExtension (url request) ->
   tasks (after (handleDualCacheRequest host request) w) = tasks w) /\
  (~ hasAudioExtension (url request) ->
   tasks (after (handleDualCacheRequest host request) w) =
     tasks w ++ [Timeout 1000 request]) /\
  journal (after (handleDualCacheRequest host request) w) = journal w.
Proof.
  intros Hfail Hhit.
  assert (run (handleDualCacheRequest host request) w =
          (Resolved entry,
           (if isAudioUrl (url request) then id else enqueue (Timeout 1000 request))
             (say (ConsoleLog ("[Service Worker] Served from primary cache: " +:+ url request))
                (setStorage (Store.open CACHE_PRIMARY
                   (storage (match network host request with
                             | Some _ => w
                             | None => say (ConsoleLog "[Service Worker] Network unavailable, using cache:") w
                             end)))
                   (match network host request with
                    | Some _ => w
                    | None => say (ConsoleLog "[Service Worker] Network unavailable, using cache:") w
                    end))))) as Hrun.
  { unfold run, handleDualCacheRequest, refreshCacheInBackground, fetch, bind, ret.
    destruct (networkFails_cases request Hfail) as [-> | (r & -> & ->)]; simpl;
      rewrite tier_open, Hhit; simpl;
      destruct (isAudioUrl (url request)); reflexivity. }
  unfold result, after. rewrite Hrun. simpl.
  split; [done|]. split; [by exists entry|].
  split; [|split].
  - intros Haudio. apply isAudioUrl_spec in Haudio. rewrite Haudio.
    by destruct (network host request).
  - intros Hother. apply isAudioUrl_false in Hother. rewrite Hother.
    by destruct (network host request).
  - by destruct (isAudioUrl (url request)), (network host request).
Qed.

End DualOffline.

(** [/song.mp3] and [/app.js], each served from Primary with the network
    down: no timer for the song, one for the script. *)
Lemma primary_hit_served_and_revalidated_witness :
  (result (handleDualCacheRequest Demo.offlineHost Demo.songMp3)
          (Demo.onlyIn CACHE_PRIMARY Demo.songMp3 Demo.cachedSong)
     = Resolved Demo.cachedSong /\
   tasks (after (handleDualCacheRequest Demo.offlineHost Demo.songMp3)
                (Demo.onlyIn CACHE_PRIMARY Demo.songMp3 Demo.cachedSong)) = []) /\
  (result (handleDualCacheRequest Demo.offlineHost Demo.appJs)
          (Demo.onlyIn CACHE_PRIMARY Demo.appJs Demo.cachedAppJs)
     = Resolved Demo.cachedAppJs /\
   tasks (after (handleDualCacheRequest Demo.offlineHost Demo.appJs)
                (Demo.onlyIn CACHE_PRIMARY Demo.appJs Demo.cachedAppJs))
     = [Timeout 1000 Demo.appJs]).
Proof.
  split.
  - destruct (primary_hit_served_and_revalidated Demo.offlineHost Demo.songMp3
                Demo.cachedSong (Demo.onlyIn CACHE_PRIMARY Demo.songMp3 Demo.cachedSong))
      as (Hres & _ & Haudio & _).
    + exact I.
    + vm_compute. reflexivity.
    + split; [exact Hres|]. apply Haudio.
      exists "https://music.example/song", ".mp3". split; [reflexivity|].
      left. simpl. repeat split; left; reflexivity.
  - destruct (primary_hit_served_and_revalidated Demo.offlineHost Demo.appJs
                Demo.cachedAppJs (Demo.onlyIn CACHE_PRIMARY Demo.appJs Demo.cachedAppJs))
      as (Hres & _ & _ & Hother & _).
    + exact I.
    + vm_compute. reflexivity.
    + split; [exact Hres|]. apply Hother.
      intros Haudio. apply isAudioUrl_spec in Haudio. vm_compute in Haudio.
      discriminate Haudio.
Defined.

(** The extension test in capitals, and on a URL with a query string
    after the extension. *)
Example audio_extension_on_examples :
  hasAudioExtension "https://music.example/Song.MP3" /\
  ~ hasAudioExtension "https://music.example/song.mp3?x=1".
Proof.
  split.
  - exists "https://music.example/Song", ".MP3". split; [reflexivity|].
    left. simpl. repeat split;
      first [ by left
            | by (right; repeat split; try (apply Nat.leb_le; reflexivity)) ].
  - intros Haudio. apply isAudioUrl_spec in Haudio. vm_compute in Haudio.
    discriminate Haudio.
Qed.

(** The audio exclusion on an example: a cached song is served from
    Primary and no timer is set. *)
Example cached_song_is_not_revalidated :
  result (handleDualCacheRequest Demo.offlineHost Demo.songMp3)
         (Demo.onlyIn CACHE_PRIMARY Demo.songMp3 Demo.cachedSong)
    = Resolved Demo.cachedSong /\
  tasks (after (handleDualCacheRequest Demo.offlineHost Demo.songMp3)
               (Demo.onlyIn CACHE_PRIMARY Demo.songMp3 Demo.cachedSong)) = [].
Proof. split; vm_compute; reflexivity. Qed.

Section Promotion.

Variable host : Host.

(** The world in which the handler attempts the promotion write. *)
Lemma secondary_hit_run request entry w :
  networkFails host request ->
  Store.tier CACHE_PRIMARY (storage w) !! url request = None ->
  Store.tier CACHE_SECONDARY (storage w) !! url request = Some entry ->
  exists w1,
    Store.tier CACHE_PRIMARY (storage w1) = Store.tier CACHE_PRIMARY (storage w) /\
    Store.tier CACHE_SECONDARY (storage w1) = Store.tier CACHE_SECONDARY (storage w) /\
    handleDualCacheRequest host request (w, 0%nat) =
      if storageFault host 0 CACHE_PRIMARY (url request)
      then (Rejected STORAGE_ERROR, (putRefused CACHE_PRIMARY (url request) w1, 1%nat))
      else (Resolved entry, (putAccepted CACHE_PRIMARY (url request) entry w1, 1%nat)).
Proof.
  intros Hfail Hmiss Hhit.
  set (w0 := match network host request with
             | Some _ => w
             | None => say (ConsoleLog "[Service Worker] Network unavailable, using cache:") w
             end).
  assert (storage w0 = storage w) as Hw0 by (subst w0; by destruct (network host request)).
  exists (say (ConsoleLog ("[Service Worker] Served from secondary cache: " +:+ url request))
            (setStorage (Store.open CACHE_SECONDARY (Store.open CACHE_PRIMARY (storage w0))) w0)).
  split; [simpl; by rewrite !tier_open, Hw0|].
  split; [simpl; by rewrite !tier_open, Hw0|].
  unfold handleDualCacheRequest, fetch, bind, ret. subst w0.
  destruct (networkFails_cases host request Hfail) as [-> | (r & -> & ->)]; simpl;
    rewrite !tier_open, Hmiss; simpl; rewrite !tier_open, Hhit; simpl;
    rewrite cachePut_run; by case_fault.
Qed.

(** C5 (amended).  When the network attempt fails, the Primary tier
    misses and the Secondary tier holds an entry under the request's URL,
    the requester receives the Secondary entry; and when the promotion
    write is not refused by the storage layer, the handler itself returns
    that entry and the Primary tier holds it under the same URL once the
    handler has returned, the Secondary tier keeping it as well. *)
Theorem secondary_hit_promoted request entry w :
  networkFails host request ->
  Store.tier CACHE_PRIMARY (storage w) !! url request = None ->
  Store.tier CACHE_SECONDARY (storage w) !! url request = Some entry ->
  (route request = DualCacheStrategy ->
   result (onFetch host request) w = Some (Resolved entry)) /\
  (storageFault host 0 CACHE_PRIMARY (url request) = false ->
   result (handleDualCacheRequest host request) w = Resolved entry /\
   Store.tier CACHE_PRIMARY
     (storage (after (handleDualCacheRequest host request) w)) !! url request
     = Some entry /\
   Store.tier CACHE_SECONDARY
     (storage (after (handleDualCacheRequest host request) w)) !! url request
     = Some entry).
Proof.
  intros Hfail Hmiss Hhit.
  destruct (secondary_hit_run request entry w Hfail Hmiss Hhit) as (w1 & HP & HS & Hrun).
  destruct tier_names_distinct as (Hps & _ & _).
  split.
  - intros Hroute. unfold result, run, onFetch, bind, ret. rewrite Hroute, Hrun.
    case_fault; [|reflexivity].
    unfold getOfflineResponse, probe, bind, ret. simpl. unfold bind, ret.
    rewrite cacheMatch_run, storage_say, tier_putRefused, HP, Hmiss.
    cbv beta iota. rewrite cacheMatch_run, storage_setStorage.
    rewrite tier_open, tier_putRefused, HS, Hhit. reflexivity.
  - intros Hok. unfold result, after, run. rewrite Hrun, Hok. simpl.
    split; [done|]. split.
    + rewrite tier_update_open. apply lookup_insert_eq.
    + rewrite tier_update_other, tier_open by done. by rewrite HS.
Qed.

End Promotion.

(** C5, counterexample.  The song is in the Secondary tier only, the
    network is down and the storage layer refuses the promotion write:
    the handler rejects, and the Primary tier is left without the entry.
    (The [fetch] listener then serves the Secondary entry through
    [getOfflineResponse].) *)
Lemma promotion_write_refused :
  networkFails (Demo.offlineFaultAt 0) Demo.songMp3 /\
  Store.tier CACHE_PRIMARY (storage (Demo.onlyIn CACHE_SECONDARY Demo.songMp3 Demo.cachedSong))
    !! url Demo.songMp3 = None /\
  Store.tier CACHE_SECONDARY (storage (Demo.onlyIn CACHE_SECONDARY Demo.songMp3 Demo.cachedSong))
    !! url Demo.songMp3 = Some Demo.cachedSong /\
  result (handleDualCacheRequest (Demo.offlineFaultAt 0) Demo.songMp3)
         (Demo.onlyIn CACHE_SECONDARY Demo.songMp3 Demo.cachedSong)
    = Rejected STORAGE_ERROR /\
  Store.tier CACHE_PRIMARY
    (storage (after (onFetch (Demo.offlineFaultAt 0) Demo.songMp3)
                    (Demo.onlyIn CACHE_SECONDARY Demo.songMp3 Demo.cachedSong)))
    !! url Demo.songMp3 = None /\
  result (onFetch (Demo.offlineFaultAt 0) Demo.songMp3)
         (Demo.onlyIn CACHE_SECONDARY Demo.songMp3 Demo.cachedSong)
    = Some (Resolved Demo.cachedSong).
Proof. split; [exact I|]. repeat split; vm_compute; reflexivity. Qed.

Lemma secondary_hit_promoted_witness :
  result (onFetch Demo.offlineHost Demo.songMp3)
         (Demo.onlyIn CACHE_SECONDARY Demo.songMp3 Demo.cachedSong)
    = Some (Resolved Demo.cachedSong) /\
  result (handleDualCacheRequest Demo.offlineHost Demo.songMp3)
         (Demo.onlyIn CACHE_SECONDARY Demo.songMp3 Demo.cachedSong)
    = Resolved Demo.cachedSong /\
  Store.tier CACHE_PRIMARY
    (storage (after (handleDualCacheRequest Demo.offlineHost Demo.songMp3)
                    (Demo.onlyIn CACHE_SECONDARY Demo.songMp3 Demo.cachedSong)))
    !! url Demo.songMp3 = Some Demo.cachedSong /\
  Store.tier CACHE_SECONDARY
    (storage (after (handleDualCacheRequest Demo.offlineHost Demo.songMp3)
                    (Demo.onlyIn CACHE_SECONDARY Demo.songMp3 Demo.cachedSong)))
    !! url Demo.songMp3 = Some Demo.cachedSong.
Proof.
  destruct (secondary_hit_promoted Demo.offlineHost Demo.songMp3 Demo.cachedSong
              (Demo.onlyIn CACHE_SECONDARY Demo.songMp3 Demo.cachedSong))
    as (Hlistener & Hhandler).
  - exact I.
  - vm_compute. reflexivity.
  - vm_compute. reflexivity.
  - split; [apply Hlistener; reflexivity | apply Hhandler; reflexivity].
Defined.

(** The scenario of the specification: [/song.mp3], network down, present
    in Secondary only.  The stored body comes back, no timer is set, and
    Primary holds the entry afterwards. *)
Example song_in_secondary_only :
  result (onFetch Demo.offlineHost Demo.songMp3)
         (Demo.onlyIn CACHE_SECONDARY Demo.songMp3 Demo.cachedSong)
    = Some (Resolved Demo.cachedSong) /\
  tasks (after (onFetch Demo.offlineHost Demo.songMp3)
               (Demo.onlyIn CACHE_SECONDARY Demo.songMp3 Demo.cachedSong)) = [] /\
  Store.tier CACHE_PRIMARY
    (storage (after (onFetch Demo.offlineHost Demo.songMp3)
                    (Demo.onlyIn CACHE_SECONDARY Demo.songMp3 Demo.cachedSong)))
    !! url Demo.songMp3 = Some Demo.cachedSong.
Proof. repeat split; vm_compute; reflexivity. Qed.

(** ** Routing *)

Lemma append_cons c s t : String c s +:+ t = String c (s +:+ t).
Proof. reflexivity. Qed.

Lemma prefix_spec p s : String.prefix p s = true <-> exists b, s = p +:+ b.
Proof.
  revert s. induction p as [|a p IH]; intros s; simpl.
  - destruct s; split; eauto.
  - destruct s as [|c s]; simpl.
    + split; [discriminate | intros (b & Hb); discriminate].
    + destruct (ascii_dec a c) as [->|Hne].
      * rewrite IH. split; intros (b & Hb); exists b;
          rewrite append_cons in *; congruence.
      * split; [discriminate|].
        intros (b & Hb). rewrite append_cons in Hb. congruence.
Qed.

Lemma includes_spec s p : Str.includes s p = true <-> contains s p.
Proof.
  unfold contains. induction s as [|c s IH].
  - change (Str.includes "" p) with (String.prefix p "" || false).
    rewrite orb_false_r, prefix_spec. split.
    + intros (b & Hb). by exists "", b.
    + intros (a & b & Hab). destruct a; [by exists b | discriminate].
  - change (Str.includes (String c s) p)
      with (String.prefix p (String c s) || Str.includes s p).
    rewrite orb_true_iff, IH, prefix_spec. split.
    + intros [(b & Hb) | (a & b & Hab)].
      * by exists "", b.
      * exists (String c a), b. rewrite append_cons. by rewrite Hab.
    + intros (a & b & Hab). destruct a as [|c' a].
      * left. by exists b.
      * right. exists a, b. rewrite append_cons in Hab. congruence.
Qed.

Lemma includes_false s p : Str.includes s p = false <-> ~ contains s p.
Proof.
  rewrite <- includes_spec. by destruct (Str.includes s p); split.
Qed.

(** C6 (amended).  A request is routed to the API strategy exactly when
    the listener does not skip it (it is a GET, its URL does not start
    with [chrome-extension://] and does not contain [browser-sync]) and
    its URL, taken as a whole string, contains [/api/], or contains
    [.json] and does not contain [manifest.json]; and the listener then
    answers with [handleApiRequest]. *)
Theorem api_routing_rule request :
  (route request = ApiStrategy <->
   method request = "GET" /\
   ~ (exists rest, url request = "chrome-extension://" +:+ rest) /\
   ~ contains (url request) "browser-sync" /\
   (contains (url request) "/api/" \/
    contains (url request) ".json" /\ ~ contains (url request) "manifest.json")) /\
  (forall host w,
     route request = ApiStrategy ->
     run (onFetch host request) w =
     (Some (result (handleApiRequest host request) w),
      after (handleApiRequest host request) w)).
Proof.
  split.
  - unfold route, Str.startsWith.
    rewrite <- prefix_spec, <- !includes_spec.
    destruct (String.eqb_spec (method request) "GET") as [Hm|Hm];
      destruct (String.prefix "chrome-extension://" (url request));
      destruct (Str.includes (url request) "browser-sync");
      destruct (Str.includes (url request) "/api/");
      destruct (Str.includes (url request) ".json");
      destruct (Str.includes (url request) "manifest.json");
      simpl; split; try discriminate; try tauto; intros; intuition congruence.
  - intros host w Hroute. unfold result, after, run, onFetch, bind, ret.
    rewrite Hroute.
    by destruct (handleApiRequest host request (w, 0%nat)) as [o [w' n']].
Qed.

(** C6, counterexample.  A GET for [/data.jsonp]: the path has no [/api/]
    and the file name does not end in [.json], yet the URL contains
    [.json] and the request goes to the API strategy. *)
Lemma jsonp_routed_to_api :
  method (Demo.get "https://music.example/data.jsonp") = "GET" /\
  apiLikeBySpec (url (Demo.get "https://music.example/data.jsonp")) = false /\
  Url.pathname "https://music.example/data.jsonp" = "/data.jsonp" /\
  Url.filename "https://music.example/data.jsonp" = "data.jsonp" /\
  route (Demo.get "https://music.example/data.jsonp") = ApiStrategy.
Proof. repeat split; reflexivity. Qed.

(** The other direction fails as well: a query string is enough to keep a
    JSON file that is not the manifest descriptor away from the API
    strategy. *)
Example json_with_manifest_in_query :
  apiLikeBySpec "https://music.example/tracks.json?from=manifest.json" = true /\
  route (Demo.get "https://music.example/tracks.json?from=manifest.json")
    = DualCacheStrategy.
Proof. split; reflexivity. Qed.

Lemma api_routing_rule_witness :
  run (onFetch Demo.offlineHost (Demo.get "https://music.example/api/tracks")) Demo.emptyWorld =
  (Some (result (handleApiRequest Demo.offlineHost
                   (Demo.get "https://music.example/api/tracks")) Demo.emptyWorld),
   after (handleApiRequest Demo.offlineHost
            (Demo.get "https://music.example/api/tracks")) Demo.emptyWorld).
Proof.
  apply (api_routing_rule (Demo.get "https://music.example/api/tracks")).
  reflexivity.
Defined.

(** ** The API strategy *)

Lemma matchAny_only name key c (cs : CacheStorage) :
  Store.tier name cs !! key = Some c ->
  (forall n cache, In (n, cache) cs -> n <> name -> cache !! key = None) ->
  Store.matchAny key cs = Some c.
Proof.
  unfold Store.tier. induction cs as [|[n cache] cs IH]; simpl.
  - by rewrite lookup_empty.
  - intros Hhit Hothers. destruct (String.eqb_spec n name) as [->|Hne].
    + simpl in Hhit. by rewrite Hhit.
    + rewrite (Hothers n cache) by auto. apply IH; [done|].
      intros n' cache' Hin. apply Hothers. by right.
Qed.

Lemma api_run host request w :
  run (handleApiRequest host request) w =
  match network host request with
  | Some r =>
      (Resolved r,
       if status r =? 200 then enqueue (DetachedPut CACHE_DATA request r) w else w)
  | None =>
      (Resolved (default offlineApiResponse (Store.matchAny (url request) (storage w))), w)
  end.
Proof.
  unfold run, handleApiRequest, fetch, cachesMatch, bind, ret.
  destruct (network host request) as [r|]; simpl.
  - by destruct (status r =? 200).
  - by destruct (Store.matchAny (url request) (storage w)).
Qed.

Lemma matchAny_first key cs cached :
  firstHolder key cs cached -> Store.matchAny key cs = Some cached.
Proof.
  intros (before & name & cache & rest & -> & Hmiss & Hhit).
  induction before as [|[n c] before IH]; simpl.
  - by rewrite Hhit.
  - pose proof (Hmiss (n, c) (or_introl eq_refl)) as Hc. simpl in Hc.
    rewrite Hc. apply IH. intros nc Hin. apply Hmiss. by right.
Qed.

Lemma matchAny_nowhere key cs :
  heldNowhere key cs -> Store.matchAny key cs = None.
Proof.
  induction cs as [|[n c] cs IH]; intros Hmiss; simpl; [done|].
  pose proof (Hmiss (n, c) (or_introl eq_refl)) as Hc. simpl in Hc.
  rewrite Hc. apply IH. intros nc Hin. apply Hmiss. by right.
Qed.

(** C7 (amended).  The API strategy always answers with a response.
    Whatever the network answers is returned as it is, whatever its
    status, and nothing is written by the time the handler returns; when
    the status is 200, one write of the answer into the Data tier is
    started and left to run on its own (once that write has run and was
    not refused, the Data tier holds the answer under the request's URL),
    and with any other status nothing is started.  Only when the fetch
    rejects does the handler look in the caches: the first cache of the
    storage, in creation order, that holds the request's URL provides
    the answer, and when none does the answer is the synthesized one,
    with status 200, the JSON content type and the body
    [{ error: 'Offline' }] as JSON text (given below by its character
    codes).  In particular a request whose only cached copy is in the
    Data tier gets that copy when the fetch rejects. *)
Theorem api_always_answers host request w :
  (exists r, result (handleApiRequest host request) w = Resolved r) /\
  (forall r,
     network host request = Some r ->
     result (handleApiRequest host request) w = Resolved r /\
     storage (after (handleApiRequest host request) w) = storage w /\
     journal (after (handleApiRequest host request) w) = journal w /\
     tasks (after (handleApiRequest host request) w) =
       tasks w ++ (if status r =? 200 then [DetachedPut CACHE_DATA request r] else [])) /\
  (forall later r w',
     storageFault later 0 CACHE_DATA (url request) = false ->
     Store.tier CACHE_DATA
       (storage (after (runTask later (DetachedPut CACHE_DATA request r)) w'))
       !! url request = Some r) /\
  (network host request = None ->
   after (handleApiRequest host request) w = w /\
   (forall cached,
      firstHolder (url request) (storage w) cached ->
      result (handleApiRequest host request) w = Resolved cached) /\
   (heldNowhere (url request) (storage w) ->
    result (handleApiRequest host request) w = Resolved offlineApiResponse)) /\
  status offlineApiResponse = 200 /\
  map (fun c => Z.of_nat (nat_of_ascii c)) (list_ascii_of_string (body offlineApiResponse)) =
    [123; 34; 101; 114; 114; 111; 114; 34; 58;
     34; 79; 102; 102; 108; 105; 110; 101; 34; 125] /\
  headers offlineApiResponse = [("Content-Type", "application/json")] /\
  (forall cached,
     network host request = None ->
     Store.tier CACHE_DATA (storage w) !! url request = Some cached ->
     (forall name cache,
        In (name, cache) (storage w) -> name <> CACHE_DATA ->
        cache !! url request = None) ->
     result (handleApiRequest host request) w = Resolved cached).
Proof.
  unfold result, after. rewrite api_run.
  split; [|split; [|split; [|split; [|split; [|split; [|split]]]]]].
  - destruct (network host request); simpl; eauto.
  - intros r ->. simpl. split; [done|].
    destruct (status r =? 200); simpl; by rewrite ?app_nil_r.
  - intros later r w' Hok. unfold run, runTask, bind, ret.
    rewrite cachePut_run, Hok. simpl.
    rewrite tier_update_open. apply lookup_insert_eq.
  - intros ->. simpl. split; [done|]. split.
    + intros cached Hfirst. by rewrite (matchAny_first _ _ _ Hfirst).
    + intros Hnone. by rewrite (matchAny_nowhere _ _ Hnone).
  - reflexivity.
  - reflexivity.
  - reflexivity.
  - intros cached -> Hdata Hothers. simpl.
    by rewrite (matchAny_only CACHE_DATA (url request) cached).
Qed.

(** C10.  When the fetch rejects and no cache holds the request, the
    response the API strategy synthesizes carries status 200, the status
    [new Response] gives when none is asked for: the same status a
    successful answer from the network arrives with. *)
Theorem offline_api_response_has_status_200 host request w :
  network host request = None ->
  Store.matchAny (url request) (storage w) = None ->
  result (handleApiRequest host request) w = Resolved offlineApiResponse /\
  status offlineApiResponse = 200 /\
  body offlineApiResponse = JSON_stringify [("error", "Offline")] /\
  (forall online r,
     network online request = Some r -> status r = 200 ->
     exists r',
       result (handleApiRequest online request) w = Resolved r' /\
       status r' = status offlineApiResponse).
Proof.
  intros Hnet Hmiss. unfold result. rewrite api_run, Hnet, Hmiss.
  split; [done|]. split; [done|]. split; [done|].
  intros online r Hon Hst. exists r. by rewrite api_run, Hon.
Qed.

Lemma api_always_answers_witness :
  Store.tier CACHE_DATA
    (storage (after (runTask Demo.onlineHost
                       (DetachedPut CACHE_DATA Demo.apiTracks Demo.cachedTracks))
                    Demo.emptyWorld))
    !! url Demo.apiTracks = Some Demo.cachedTracks /\
  result (handleApiRequest Demo.offlineHost Demo.apiTracks)
         (Demo.onlyIn CACHE_DATA Demo.apiTracks Demo.cachedTracks)
    = Resolved Demo.cachedTracks.
Proof.
  destruct (api_always_answers Demo.offlineHost Demo.apiTracks
              (Demo.onlyIn CACHE_DATA Demo.apiTracks Demo.cachedTracks))
    as (_ & _ & Htask & Hdown & _).
  split.
  - apply Htask. reflexivity.
  - destruct Hdown as (_ & Hfirst & _); [reflexivity|].
    apply Hfirst.
    exists [(CACHE_PRIMARY, ∅); (CACHE_SECONDARY, ∅)], CACHE_DATA,
           {[url Demo.apiTracks := Demo.cachedTracks]}, [].
    split; [reflexivity|]. split.
    + intros nc [<-|[<-|[]]]; apply lookup_empty.
    + apply lookup_singleton_eq.
Defined.

(** C7, counterexample.  The network answers [/api/tracks.json] with
    status 404, a network failure in the terms of the specification,
    while the Data tier holds a copy of the request: the listener passes
    the 404 on and the cached copy is not served. *)
Lemma api_non_200_answer_passed_on :
  route Demo.apiTracks = ApiStrategy /\
  network Scenario.answering404 Demo.apiTracks = Some Scenario.notFound /\
  status Scenario.notFound = 404 /\
  Store.tier CACHE_DATA
    (storage (Demo.onlyIn CACHE_DATA Demo.apiTracks Demo.cachedTracks))
    !! url Demo.apiTracks = Some Demo.cachedTracks /\
  result (onFetch Scenario.answering404 Demo.apiTracks)
         (Demo.onlyIn CACHE_DATA Demo.apiTracks Demo.cachedTracks)
    = Some (Resolved Scenario.notFound).
Proof. repeat split; vm_compute; reflexivity. Qed.

(** The scenario of the specification: [/api/tracks.json], network down,
    a copy in the Data tier. *)
Example api_tracks_served_from_data_tier :
  route Demo.apiTracks = ApiStrategy /\
  result (onFetch Demo.offlineHost Demo.apiTracks)
         (Demo.onlyIn CACHE_DATA Demo.apiTracks Demo.cachedTracks)
    = Some (Resolved Demo.cachedTracks).
Proof. split; vm_compute; reflexivity. Qed.

Lemma offline_api_response_has_status_200_witness :
  result (handleApiRequest Demo.offlineHost Demo.apiTracks) Demo.emptyWorld
    = Resolved offlineApiResponse /\
  status offlineApiResponse = 200 /\
  body offlineApiResponse = JSON_stringify [("error", "Offline")] /\
  (exists r',
     result (handleApiRequest Demo.onlineHost Demo.apiTracks) Demo.emptyWorld
       = Resolved r' /\
     status r' = status offlineApiResponse).
Proof.
  destruct (offline_api_response_has_status_200 Demo.offlineHost Demo.apiTracks
              Demo.emptyWorld) as (Hres & Hst & Hbody & Hsame).
  - reflexivity.
  - reflexivity.
  - split; [exact Hres|]. split; [exact Hst|]. split; [exact Hbody|].
    apply (Hsame Demo.onlineHost (Demo.ok "fresh https://music.example/api/tracks.json"));
      reflexivity.
Defined.

(** ** Health check and repair *)

Lemma countCritical_healthyEntries host c assets :
  countCritical host c assets = Z.of_nat (List.length (healthyEntries host c assets)).
Proof.
  unfold healthyEntries. induction assets as [|a assets IH]; [done|].
  simpl. unfold heldWithSuccess at 1. rewrite IH.
  destruct (c !! resolve host a) as [r|]; [|done].
  destruct (status r =? 200); simpl; lia.
Qed.

Lemma meetsThreshold_spec count len :
  meetsThreshold count len = true <-> 80 * len <= 100 * count.
Proof. unfold meetsThreshold. rewrite Z.leb_le. lia. Qed.

(** A property of the state kept by every round of a loop holds when the
    loop is over. *)
Lemma forEach_invariant {A} (f : A -> M unit) (Inv : World * nat -> Prop) l :
  (forall x s, In x l -> Inv s -> Inv (snd (f x s))) ->
  forall s, Inv s -> Inv (snd (forEach f l s)).
Proof.
  induction l as [|x l IH]; intros Hstep s Hs; [done|].
  simpl. unfold bind. destruct (f x s) as [[] s1] eqn:E.
  apply IH; [intros y s' Hy; apply Hstep; by right|].
  specialize (Hstep x s (or_introl eq_refl) Hs). by rewrite E in Hstep.
Qed.

Lemma find_opened_other name name' w :
  name <> name' -> Store.find name' (storage (opened name w)) = Store.find name' (storage w).
Proof. intros Hne. simpl. by apply find_open_other. Qed.

Lemma tier_opened name name' w :
  Store.tier name' (storage (opened name w)) = Store.tier name' (storage w).
Proof. simpl. apply tier_open. Qed.

Lemma find_putAccepted_other name name' key r w :
  name <> name' ->
  Store.find name' (storage (putAccepted name key r w)) = Store.find name' (storage w).
Proof.
  intros Hne. unfold putAccepted. simpl. rewrite find_update.
  destruct (String.eqb_spec name' name) as [->|_]; [done|].
  rewrite find_open_other by done. by destruct (Store.find name' (storage w)).
Qed.

Lemma find_putRefused_other name name' key w :
  name <> name' ->
  Store.find name' (storage (putRefused name key w)) = Store.find name' (storage w).
Proof. intros Hne. unfold putRefused. simpl. by apply find_open_other. Qed.

Section Repair.

Variable host : Host.

Lemma repairAsset_run c d a w n :
  repairAsset host c d a (w, n) =
  match Store.tier d (storage w) !! resolve host a with
  | None => (tt, (opened d w, n))
  | Some r =>
      if storageFault host n c (resolve host a)
      then (tt, (say (ConsoleError ("[Service Worker] Failed to repair " +:+ a +:+ ":"))
                   (putRefused c (resolve host a) (opened d w)), S n))
      else (tt, (say (ConsoleLog ("[Service Worker] Repaired " +:+ a +:+ " in " +:+ c))
                   (putAccepted c (resolve host a) r (opened d w)), S n))
  end.
Proof.
  unfold repairAsset, bind. rewrite cacheMatch_run.
  destruct (Store.tier d (storage w) !! resolve host a) as [r|]; [|reflexivity].
  fold (opened d w). rewrite cachePut_run. by case_fault.
Qed.

(** One round of the repair loop leaves every cache but the one under
    repair as it was. *)
Lemma repairAsset_others c d a s name :
  name <> c ->
  Store.tier name (storage (snd (repairAsset host c d a s)).1) =
  Store.tier name (storage s.1).
Proof.
  intros Hne. destruct s as [w n]. rewrite repairAsset_run.
  destruct (Store.tier d (storage w) !! resolve host a) as [r|]; simpl.
  - case_fault; simpl.
    + by rewrite !tier_open.
    + rewrite tier_update_other by done. by rewrite !tier_open.
  - by rewrite tier_open.
Qed.

Lemma repairAsset_find c d a s name :
  name <> c -> name <> d ->
  Store.find name (storage (snd (repairAsset host c d a s)).1) =
  Store.find name (storage s.1).
Proof.
  intros Hc Hd. destruct s as [w n]. rewrite repairAsset_run.
  destruct (Store.tier d (storage w) !! resolve host a) as [r|].
  - case_fault; cbn [snd fst]; rewrite storage_say.
    + rewrite find_putRefused_other by done. by apply find_opened_other.
    + rewrite find_putAccepted_other by done. by apply find_opened_other.
  - cbn [snd fst]. by apply find_opened_other.
Qed.

(** What one round does to the cache under repair. *)
Lemma repairAsset_target c d a w n :
  Store.tier c (storage (snd (repairAsset host c d a (w, n))).1) =
  match Store.tier d (storage w) !! resolve host a with
  | Some r =>
      if storageFault host n c (resolve host a)
      then Store.tier c (storage w)
      else <[resolve host a := r]> (Store.tier c (storage w))
  | None => Store.tier c (storage w)
  end.
Proof.
  rewrite repairAsset_run.
  destruct (Store.tier d (storage w) !! resolve host a) as [r|]; simpl.
  - case_fault; simpl.
    + by rewrite !tier_open.
    + by rewrite tier_update_open, tier_open.
  - by rewrite tier_open.
Qed.

End Repair.

Lemma donorOf_other c : donorOf c <> c.
Proof.
  unfold donorOf. destruct (String.eqb_spec c CACHE_PRIMARY) as [->|Hne]; [done|].
  congruence.
Qed.

Section RepairLoop.

Variable host : Host.
Variables c d : string.
Hypothesis donor_is_other : d <> c.

Lemma repair_loop_others assets s name :
  name <> c ->
  Store.tier name (storage (snd (forEach (repairAsset host c d) assets s)).1) =
  Store.tier name (storage s.1).
Proof.
  intros Hne.
  apply (forEach_invariant (repairAsset host c d)
           (fun s' => Store.tier name (storage s'.1) = Store.tier name (storage s.1)));
    [|done].
  intros a s1 _ Hs1. by rewrite repairAsset_others.
Qed.

Lemma repair_loop_find assets s name :
  name <> c -> name <> d ->
  Store.find name (storage (snd (forEach (repairAsset host c d) assets s)).1) =
  Store.find name (storage s.1).
Proof.
  intros Hc Hd.
  apply (forEach_invariant (repairAsset host c d)
           (fun s' => Store.find name (storage s'.1) = Store.find name (storage s.1)));
    [|done].
  intros a s1 _ Hs1. by rewrite repairAsset_find.
Qed.

(** An entry of the cache under repair that agrees with the donor stays
    as it is through the rest of the loop. *)
Lemma repair_loop_preserves assets s key r :
  Store.tier d (storage s.1) !! key = Some r ->
  Store.tier c (storage s.1) !! key = Some r ->
  Store.tier c (storage (snd (forEach (repairAsset host c d) assets s)).1) !! key = Some r.
Proof.
  intros Hdonor Htarget.
  apply (forEach_invariant (repairAsset host c d)
           (fun s' => Store.tier d (storage s'.1) !! key = Some r /\
                      Store.tier c (storage s'.1) !! key = Some r)); [|done].
  intros a [w n] _ [Hd Hc]. split.
  - by rewrite repairAsset_others.
  - rewrite repairAsset_target. simpl in *.
    destruct (Store.tier d (storage w) !! resolve host a) as [r'|] eqn:E; [|done].
    case_fault; [done|].
    destruct (decide (resolve host a = key)) as [Heq|Hneq].
    + rewrite Heq in *. rewrite lookup_insert_eq. congruence.
    + by rewrite lookup_insert_ne.
Qed.

(** Every asset the donor holds is in the cache under repair when the
    loop is over, unless its write was refused. *)
Lemma repair_loop_copies assets s a r :
  In a assets ->
  Store.tier d (storage s.1) !! resolve host a = Some r ->
  (forall m, storageFault host m c (resolve host a) = false) ->
  Store.tier c (storage (snd (forEach (repairAsset host c d) assets s)).1)
    !! resolve host a = Some r.
Proof.
  intros Hin Hdonor Hok. revert s Hin Hdonor.
  induction assets as [|x assets IH]; intros s Hin Hdonor; [done|].
  simpl. unfold bind.
  destruct (repairAsset host c d x s) as [[] s1] eqn:E.
  assert (Store.tier d (storage s1.1) !! resolve host a = Some r) as Hdonor1.
  { replace s1 with (snd (repairAsset host c d x s)) by (by rewrite E).
    by rewrite repairAsset_others. }
  destruct Hin as [->|Hin]; [|by apply IH].
  apply repair_loop_preserves; [done|].
  replace s1 with (snd (repairAsset host c d a s)) by (by rewrite E).
  destruct s as [w n]. rewrite repairAsset_target. simpl in Hdonor.
  rewrite Hdonor, Hok. apply lookup_insert_eq.
Qed.

End RepairLoop.

Section RepairCache.

Variable host : Host.
Variable manifest : list string.

Lemma repairCache_run c s :
  snd (repairCache host manifest c s) =
  (let s1 := snd (forEach (repairAsset host c (donorOf c)) manifest
                    (opened (donorOf c) (opened c s.1), s.2)) in
   (say (ConsoleLog ("[Service Worker] " +:+ c +:+ " repair completed")) s1.1, s1.2)).
Proof.
  destruct s as [w n]. unfold repairCache, bind, cachesOpen, consoleLog. simpl.
  fold (donorOf c). fold (opened c w). fold (opened (donorOf c) (opened c w)).
  by destruct (forEach _ manifest _) as [[] [w1 n1]].
Qed.

Lemma repairCache_others c s name :
  name <> c ->
  Store.tier name (storage (snd (repairCache host manifest c s)).1) =
  Store.tier name (storage s.1).
Proof.
  intros Hne. rewrite repairCache_run. cbn [fst snd]. rewrite storage_say.
  rewrite repair_loop_others by done. cbn [fst]. by rewrite !tier_opened.
Qed.

Lemma repairCache_find c s name :
  name <> c -> name <> donorOf c ->
  Store.find name (storage (snd (repairCache host manifest c s)).1) =
  Store.find name (storage s.1).
Proof.
  intros Hc Hd. rewrite repairCache_run. cbn [fst snd]. rewrite storage_say.
  rewrite repair_loop_find by done. cbn [fst].
  rewrite find_opened_other by done. by apply find_opened_other.
Qed.

Lemma repairCache_copies c s a r :
  In a manifest ->
  Store.tier (donorOf c) (storage s.1) !! resolve host a = Some r ->
  (forall m, storageFault host m c (resolve host a) = false) ->
  Store.tier c (storage (snd (repairCache host manifest c s)).1)
    !! resolve host a = Some r.
Proof.
  intros Hin Hdonor Hok. rewrite repairCache_run. cbn [fst snd]. rewrite storage_say.
  apply repair_loop_copies; [apply donorOf_other|done| |done].
  cbn [fst]. by rewrite !tier_opened.
Qed.

End RepairCache.

Section HealthCheck.

Variable host : Host.
Variable manifest : list string.

Lemma checkOne_run name w n :
  checkOne host manifest name (w, n) =
  (verdict host manifest name w,
   (say (healthLog host manifest name w)
        (opened name w), n)).
Proof.
  unfold checkOne, bind, cachesOpen, readCache, consoleLog, ret, healthLog, verdict.
  cbv beta iota zeta. cbn [storage setStorage fst snd]. by rewrite tier_open.
Qed.

(** The health check is the two verdicts, taken on the caches as they
    are found, followed by the repair of Primary and then of Secondary,
    each only when its verdict is bad. *)
Lemma checkCacheHealth_run w n :
  exists w2,
    (forall name, Store.tier name (storage w2) = Store.tier name (storage w)) /\
    (forall name, name <> CACHE_PRIMARY -> name <> CACHE_SECONDARY ->
       Store.find name (storage w2) = Store.find name (storage w)) /\
    checkCacheHealth host manifest (w, n) =
      ([(CACHE_PRIMARY, verdict host manifest CACHE_PRIMARY w);
        (CACHE_SECONDARY, verdict host manifest CACHE_SECONDARY w)],
       repairIfUnhealthy host manifest CACHE_SECONDARY
         (verdict host manifest CACHE_SECONDARY w)
         (repairIfUnhealthy host manifest CACHE_PRIMARY
            (verdict host manifest CACHE_PRIMARY w) (w2, n))).
Proof.
  set (w0 := say (ConsoleLog "[Service Worker] Running cache health check...") w).
  set (w1 := say (healthLog host manifest CACHE_PRIMARY w0)
                 (opened CACHE_PRIMARY w0)).
  set (w2 := say (healthLog host manifest CACHE_SECONDARY w1)
                 (opened CACHE_SECONDARY w1)).
  assert (forall name, Store.tier name (storage w2) = Store.tier name (storage w)) as Htier.
  { intros name. subst w2 w1 w0. by rewrite storage_say, tier_opened, storage_say, tier_opened. }
  assert (verdict host manifest CACHE_PRIMARY w0 = verdict host manifest CACHE_PRIMARY w)
    as HvP by reflexivity.
  assert (verdict host manifest CACHE_SECONDARY w1 = verdict host manifest CACHE_SECONDARY w)
    as HvS.
  { unfold verdict. subst w1 w0. by rewrite storage_say, tier_opened. }
  exists w2. split; [exact Htier|]. split.
  - intros name HP HS. subst w2 w1 w0.
    rewrite storage_say, find_opened_other by done.
    rewrite storage_say, find_opened_other by done. done.
  - unfold checkCacheHealth. cbn [mapM]. unfold bind, ret.
    unfold consoleLog at 1. cbv beta iota. fold w0.
    rewrite checkOne_run. fold w1. rewrite checkOne_run. fold w2.
    rewrite HvP, HvS. cbn [forEach fst snd]. unfold bind, ret.
    unfold repairIfUnhealthy, consoleLog.
    destruct (verdict host manifest CACHE_PRIMARY w);
      destruct (verdict host manifest CACHE_SECONDARY w); cbn [fst snd];
      repeat match goal with
             | |- context [repairCache host manifest ?c ?s] =>
                 destruct (repairCache host manifest c s) as [[] [? ?]]; cbn [fst snd]
             end; reflexivity.
Qed.

End HealthCheck.

Section HealthTheorem.

Variable host : Host.
Variable manifest : list string.

Lemma verdict_spec name w :
  verdict host manifest name w = true <->
  80 * Z.of_nat (List.length manifest)
  <= 100 * Z.of_nat (List.length
                       (healthyEntries host (Store.tier name (storage w)) manifest)).
Proof.
  unfold verdict. by rewrite meetsThreshold_spec, countCritical_healthyEntries.
Qed.

Lemma repairIfUnhealthy_others name v s other :
  other <> name ->
  Store.tier other (storage (repairIfUnhealthy host manifest name v s).1) =
  Store.tier other (storage s.1).
Proof.
  intros Hne. unfold repairIfUnhealthy. destruct v; [done|].
  by rewrite repairCache_others.
Qed.

Lemma repairIfUnhealthy_find name v s other :
  other <> name -> other <> donorOf name ->
  Store.find other (storage (repairIfUnhealthy host manifest name v s).1) =
  Store.find other (storage s.1).
Proof.
  intros Hne Hd. unfold repairIfUnhealthy. destruct v; [done|].
  by rewrite repairCache_find.
Qed.

Lemma repairIfUnhealthy_copies name s asset r :
  In asset manifest ->
  Store.tier (donorOf name) (storage s.1) !! resolve host asset = Some r ->
  (forall m, storageFault host m name (resolve host asset) = false) ->
  Store.tier name (storage (repairIfUnhealthy host manifest name false s).1)
    !! resolve host asset = Some r.
Proof.
  intros Hin Hdonor Hok. unfold repairIfUnhealthy.
  by apply repairCache_copies.
Qed.

(** C8.  The health check gives a verdict for Primary and for Secondary
    and for no other tier; the verdict of a tier is good exactly when the
    manifest entries it holds with status 200 number at least 80% of the
    manifest.  A tier found unhealthy is repaired from the other tier:
    every manifest entry the other tier holds when the repair runs is in
    the repaired tier afterwards, except the entries whose write is
    refused, which do not stop the others.  (Secondary is repaired after
    Primary, and Primary is not written again after that, so what Primary
    holds at the end is what Secondary is repaired from.)  No cache other
    than Primary and Secondary is created or changed: the Data tier is
    neither checked nor repaired. *)
Theorem health_check_and_repair w :
  (exists vP vS,
     result (checkCacheHealth host manifest) w
       = [(CACHE_PRIMARY, vP); (CACHE_SECONDARY, vS)] /\
     (vP = true <->
      80 * Z.of_nat (List.length manifest)
      <= 100 * Z.of_nat (List.length
           (healthyEntries host (Store.tier CACHE_PRIMARY (storage w)) manifest))) /\
     (vS = true <->
      80 * Z.of_nat (List.length manifest)
      <= 100 * Z.of_nat (List.length
           (healthyEntries host (Store.tier CACHE_SECONDARY (storage w)) manifest)))) /\
  (~ 80 * Z.of_nat (List.length manifest)
     <= 100 * Z.of_nat (List.length
          (healthyEntries host (Store.tier CACHE_PRIMARY (storage w)) manifest)) ->
   forall asset r,
     In asset manifest ->
     Store.tier CACHE_SECONDARY (storage w) !! resolve host asset = Some r ->
     (forall m, storageFault host m CACHE_PRIMARY (resolve host asset) = false) ->
     Store.tier CACHE_PRIMARY (storage (after (checkCacheHealth host manifest) w))
       !! resolve host asset = Some r) /\
  (~ 80 * Z.of_nat (List.length manifest)
     <= 100 * Z.of_nat (List.length
          (healthyEntries host (Store.tier CACHE_SECONDARY (storage w)) manifest)) ->
   forall asset r,
     In asset manifest ->
     Store.tier CACHE_PRIMARY (storage (after (checkCacheHealth host manifest) w))
       !! resolve host asset = Some r ->
     (forall m, storageFault host m CACHE_SECONDARY (resolve host asset) = false) ->
     Store.tier CACHE_SECONDARY (storage (after (checkCacheHealth host manifest) w))
       !! resolve host asset = Some r) /\
  (forall name,
     name <> CACHE_PRIMARY -> name <> CACHE_SECONDARY ->
     Store.find name (storage (after (checkCacheHealth host manifest) w))
       = Store.find name (storage w)).
Proof.
  destruct (checkCacheHealth_run host manifest w 0%nat) as (w2 & Htier & Hfind & Hrun).
  destruct tier_names_distinct as (Hps & _ & _).
  unfold result, after, run. rewrite Hrun.
  set (s3 := repairIfUnhealthy host manifest CACHE_PRIMARY
               (verdict host manifest CACHE_PRIMARY w) (w2, 0%nat)).
  set (s4 := repairIfUnhealthy host manifest CACHE_SECONDARY
               (verdict host manifest CACHE_SECONDARY w) s3).
  replace (let '(a, (w', _)) := (_, s4) in (a, w')) with
    ([(CACHE_PRIMARY, verdict host manifest CACHE_PRIMARY w);
      (CACHE_SECONDARY, verdict host manifest CACHE_SECONDARY w)], s4.1)
    by (by destruct s4).
  cbn [fst snd].
  split; [|split; [|split]].
  - eexists _, _. split; [reflexivity|]. split; apply verdict_spec.
  - intros Hbad asset r Hin Hdonor Hok.
    assert (verdict host manifest CACHE_PRIMARY w = false) as HvP.
    { destruct (verdict host manifest CACHE_PRIMARY w) eqn:E; [|done].
      by apply verdict_spec in E. }
    subst s4. rewrite repairIfUnhealthy_others by done.
    subst s3. rewrite HvP. apply repairIfUnhealthy_copies; [done| |done].
    cbn [fst]. by rewrite Htier.
  - intros Hbad asset r Hin Hdonor Hok.
    assert (verdict host manifest CACHE_SECONDARY w = false) as HvS.
    { destruct (verdict host manifest CACHE_SECONDARY w) eqn:E; [|done].
      by apply verdict_spec in E. }
    subst s4. rewrite HvS in *.
    rewrite repairIfUnhealthy_others in Hdonor by done.
    by apply repairIfUnhealthy_copies.
  - intros name HP HS. subst s4 s3.
    rewrite repairIfUnhealthy_find by done.
    rewrite repairIfUnhealthy_find by done.
    cbn [fst]. by apply Hfind.
Qed.

End HealthTheorem.

Lemma health_check_and_repair_witness :
  Store.tier CACHE_PRIMARY
    (storage (after (checkCacheHealth Demo.offlineHost CRITICAL_ASSETS)
                    (Demo.onlyIn CACHE_SECONDARY Demo.indexHtml Demo.cachedShell)))
    !! resolve Demo.offlineHost "/index.html" = Some Demo.cachedShell /\
  Store.tier CACHE_SECONDARY
    (storage (after (checkCacheHealth Demo.offlineHost CRITICAL_ASSETS)
                    (Demo.onlyIn CACHE_SECONDARY Demo.indexHtml Demo.cachedShell)))
    !! resolve Demo.offlineHost "/index.html" = Some Demo.cachedShell /\
  Store.find CACHE_DATA
    (storage (after (checkCacheHealth Demo.offlineHost CRITICAL_ASSETS)
                    (Demo.onlyIn CACHE_SECONDARY Demo.indexHtml Demo.cachedShell)))
    = Store.find CACHE_DATA
        (storage (Demo.onlyIn CACHE_SECONDARY Demo.indexHtml Demo.cachedShell)).
Proof.
  destruct (health_check_and_repair Demo.offlineHost CRITICAL_ASSETS
              (Demo.onlyIn CACHE_SECONDARY Demo.indexHtml Demo.cachedShell))
    as (_ & HP & HS & Hother).
  assert (Store.tier CACHE_PRIMARY
            (storage (after (checkCacheHealth Demo.offlineHost CRITICAL_ASSETS)
                            (Demo.onlyIn CACHE_SECONDARY Demo.indexHtml Demo.cachedShell)))
            !! resolve Demo.offlineHost "/index.html" = Some Demo.cachedShell) as HP'.
  { apply HP.
    - vm_compute. intros Hle. apply Hle. reflexivity.
    - right. left. reflexivity.
    - vm_compute. reflexivity.
    - reflexivity. }
  split; [exact HP'|]. split.
  - apply HS.
    + vm_compute. intros Hle. apply Hle. reflexivity.
    + right. left. reflexivity.
    + exact HP'.
    + reflexivity.
  - apply Hother; discriminate.
Defined.

(** The health check on examples: an installed worker is healthy, and
    four of six assets are not enough. *)
Example health_after_install :
  result (checkCacheHealth Demo.onlineHost CRITICAL_ASSETS)
         (after (install Demo.onlineHost CRITICAL_ASSETS) Demo.emptyWorld)
  = [(CACHE_PRIMARY, true); (CACHE_SECONDARY, true)].
Proof. vm_compute. reflexivity. Qed.

Lemma threshold_in_double : thresholdsAgreeUpTo 300 = true.
Proof. vm_compute. reflexivity. Qed.

Example threshold_of_six :
  meetsThreshold 4 6 = false /\ meetsThreshold 5 6 = true /\
  meetsThreshold 4 5 = true /\ meetsThreshold 0 0 = true.
Proof. repeat split; reflexivity. Qed.

(** ** Installation *)

Lemma putEntries_cons e es c :
  putEntries (e :: es) c = putEntries es (<[fst e := snd e]> c).
Proof. reflexivity. Qed.

Lemma putEntries_outside es c k :
  ~ In k (map fst es) -> putEntries es c !! k = c !! k.
Proof.
  revert c. induction es as [|e es IH]; intros c Hk; [done|].
  rewrite putEntries_cons, IH by (intros H; apply Hk; by right).
  apply lookup_insert_ne. intros Heq. apply Hk. by left.
Qed.

(** The result of a batch depends on the cache only outside the keys of
    the batch. *)
Lemma putEntries_agree es c1 c2 :
  (forall k, ~ In k (map fst es) -> c1 !! k = c2 !! k) ->
  putEntries es c1 = putEntries es c2.
Proof.
  revert c1 c2. induction es as [|e es IH]; intros c1 c2 Hagree.
  - apply map_eq. intros k. apply Hagree. intros [].
  - rewrite !putEntries_cons. apply IH. intros k Hk.
    destruct (decide (fst e = k)) as [<-|Hne].
    + by rewrite !lookup_insert_eq.
    + rewrite !lookup_insert_ne by done. apply Hagree.
      intros [Heq|Hin]; [done|by apply Hk].
Qed.

(** Writes overwrite: putting the same batch a second time changes
    nothing. *)
Lemma putEntries_idempotent es c :
  putEntries es (putEntries es c) = putEntries es c.
Proof. apply putEntries_agree. intros k Hk. by apply putEntries_outside. Qed.

Lemma update_settled name f (cs : CacheStorage) :
  settled name f cs -> Store.update name f cs = cs.
Proof.
  unfold settled. induction 1 as [|[n c] cs Hc _ IH]; [done|].
  simpl. rewrite IH. destruct (String.eqb_spec n name) as [Heq|_]; [|done].
  simpl in Hc. by rewrite Hc.
Qed.

Lemma settled_update_same name f (cs : CacheStorage) :
  (forall c, f (f c) = f c) -> settled name f (Store.update name f cs).
Proof.
  intros Hf. unfold settled. induction cs as [|[n c] cs IH]; simpl; [constructor|].
  constructor; [|exact IH]. simpl. intros ->. by rewrite String.eqb_refl.
Qed.

Lemma settled_update_other name name' f g (cs : CacheStorage) :
  name <> name' -> settled name f cs -> settled name f (Store.update name' g cs).
Proof.
  intros Hne. unfold settled. induction 1 as [|[n c] cs Hc _ IH]; simpl; [constructor|].
  constructor; [|exact IH]. simpl in *. intros ->.
  apply String.eqb_neq in Hne. rewrite Hne. by apply Hc.
Qed.

Lemma settled_open_other name name' f (cs : CacheStorage) :
  name <> name' -> settled name f cs -> settled name f (Store.open name' cs).
Proof.
  intros Hne Hs. unfold Store.open. destruct (Store.find name' cs); [done|].
  apply Forall_app. split; [done|]. constructor; [|constructor].
  simpl. congruence.
Qed.

Lemma open_present name (cs : CacheStorage) :
  is_Some (Store.find name cs) -> Store.open name cs = cs.
Proof. intros [c Hc]. unfold Store.open. by rewrite Hc. Qed.

Lemma present_open name name' (cs : CacheStorage) :
  name = name' \/ is_Some (Store.find name' cs) ->
  is_Some (Store.find name' (Store.open name cs)).
Proof.
  intros [->|Hp].
  - rewrite find_open_same. eauto.
  - destruct (String.eqb_spec name name') as [->|Hne].
    + rewrite find_open_same. eauto.
    + by rewrite find_open_other.
Qed.

Lemma update_id name (cs : CacheStorage) : Store.update name id cs = cs.
Proof.
  induction cs as [|[n c] cs IH]; simpl; [done|].
  rewrite IH. by destruct (String.eqb n name).
Qed.

Lemma storage_fold_record {A} (g : A -> WriteAttempt) (l : list A) w :
  storage (fold_left (fun w' e => record (g e) w') l w) = storage w.
Proof. revert w. induction l as [|x l IH]; intros w; [done|]. simpl. by rewrite IH. Qed.

Section Install.

Variable host : Host.
Variable manifest : list string.

Lemma installEffect_idempotent name requests n c :
  fst (installEffect host name requests n)
      (fst (installEffect host name requests n) c)
  = fst (installEffect host name requests n) c.
Proof.
  unfold installEffect. destruct (fetchAll host requests) as [es|]; [|done].
  destruct (hasDuplicate (map fst es)); [done|].
  destruct (existsb _ es); [done|]. simpl. apply putEntries_idempotent.
Qed.

Lemma installCache_run name announce failure requests w n :
  storage (snd (installCache host name announce failure requests (w, n))).1 =
    Store.update name (fst (installEffect host name requests n))
                 (Store.open name (storage w)) /\
  (snd (installCache host name announce failure requests (w, n))).2 =
    snd (installEffect host name requests n).
Proof.
  unfold installCache, cacheAddAll, installEffect, bind, ret, cachesOpen,
    consoleLog, consoleError.
  destruct (fetchAll host requests) as [es|]; cbn [fst snd].
  - destruct (hasDuplicate (map fst es)); cbn [fst snd].
    + rewrite storage_say, update_id. done.
    + destruct (existsb _ es); cbn [fst snd].
      * rewrite storage_say, storage_fold_record, update_id. done.
      * rewrite storage_fold_record. done.
  - rewrite storage_say, update_id. done.
Qed.

Lemma install_storage w :
  storage (after (install host manifest) w) = installedStorage host manifest (storage w).
Proof.
  unfold after, run, install. unfold bind at 1. unfold consoleLog at 1.
  unfold bind at 1.
  match goal with
  | |- context [installCache host CACHE_PRIMARY ?a ?f ?q (?w0, ?n0)] =>
      destruct (installCache_run CACHE_PRIMARY a f q w0 n0) as [HsP HnP];
      destruct (installCache host CACHE_PRIMARY a f q (w0, n0)) as [[] [wP nP]]
  end.
  unfold bind at 1.
  match goal with
  | |- context [installCache host CACHE_SECONDARY ?a ?f ?q (?w0, ?n0)] =>
      destruct (installCache_run CACHE_SECONDARY a f q w0 n0) as [HsS HnS];
      destruct (installCache host CACHE_SECONDARY a f q (w0, n0)) as [[] [wS nS]]
  end.
  unfold bind at 1.
  match goal with
  | |- context [installCache host CACHE_DATA ?a ?f ?q (?w0, ?n0)] =>
      destruct (installCache_run CACHE_DATA a f q w0 n0) as [HsD HnD];
      destruct (installCache host CACHE_DATA a f q (w0, n0)) as [[] [wD nD]]
  end.
  cbn [fst snd] in *. unfold bind, consoleLog, skipWaiting. cbn [fst snd].
  unfold installedStorage.
  rewrite storage_say in HsP. subst nP nS. by rewrite <- HsP, <- HsS, <- HsD.
Qed.

(** The storage [install] leaves behind is one it would leave as it is. *)
Lemma installedStorage_idempotent cs :
  installedStorage host manifest (installedStorage host manifest cs) =
  installedStorage host manifest cs.
Proof.
  destruct tier_names_distinct as (Hps & Hpd & Hsd).
  set (cs1 := installedStorage host manifest cs).
  unfold installedStorage.
  set (critical := map (fun u => newRequest host u "reload") manifest).
  set (optional := map (fun u => newRequest host u "default") OPTIONAL_ASSETS).
  set (eP := installEffect host CACHE_PRIMARY critical 0).
  set (eS := installEffect host CACHE_SECONDARY critical (snd eP)).
  set (eD := installEffect host CACHE_DATA optional (snd eS)).
  assert (is_Some (Store.find CACHE_PRIMARY cs1)) as HpP.
  { subst cs1. unfold installedStorage. fold critical optional eP eS eD.
    rewrite find_update_is_Some. apply present_open. right.
    rewrite find_update_is_Some. apply present_open. right.
    rewrite find_update_is_Some. apply present_open. by left. }
  assert (is_Some (Store.find CACHE_SECONDARY cs1)) as HpS.
  { subst cs1. unfold installedStorage. fold critical optional eP eS eD.
    rewrite find_update_is_Some. apply present_open. right.
    rewrite find_update_is_Some. apply present_open. by left. }
  assert (is_Some (Store.find CACHE_DATA cs1)) as HpD.
  { subst cs1. unfold installedStorage. fold critical optional eP eS eD.
    rewrite find_update_is_Some. apply present_open. by left. }
  assert (settled CACHE_PRIMARY (fst eP) cs1) as HsP.
  { subst cs1. unfold installedStorage. fold critical optional eP eS eD.
    apply settled_update_other; [done|]. apply settled_open_other; [done|].
    apply settled_update_other; [done|]. apply settled_open_other; [done|].
    apply settled_update_same. intros c. apply installEffect_idempotent. }
  assert (settled CACHE_SECONDARY (fst eS) cs1) as HsS.
  { subst cs1. unfold installedStorage. fold critical optional eP eS eD.
    apply settled_update_other; [done|]. apply settled_open_other; [done|].
    apply settled_update_same. intros c. apply installEffect_idempotent. }
  assert (settled CACHE_DATA (fst eD) cs1) as HsD.
  { subst cs1. unfold installedStorage. fold critical optional eP eS eD.
    apply settled_update_same. intros c. apply installEffect_idempotent. }
  rewrite (open_present CACHE_PRIMARY cs1), (update_settled _ _ cs1) by done.
  rewrite (open_present CACHE_SECONDARY cs1), (update_settled _ _ cs1) by done.
  rewrite (open_present CACHE_DATA cs1), (update_settled _ _ cs1) by done.
  reflexivity.
Qed.

(** C9.  Installing twice in a row leaves the cache storage, the three
    tiers with all their contents, exactly as installing once does, for
    any behaviour of the host (network answers, storage faults) that is
    the same in the two runs: the second run opens the tiers that
    already exist and overwrites their entries with the same responses,
    so no tier and no entry is added.  After an installation the three
    tiers exist. *)
Theorem install_idempotent w :
  storage (after (install host manifest) (after (install host manifest) w)) =
    storage (after (install host manifest) w) /\
  (forall name,
     Store.tier name (storage (after (install host manifest)
                                 (after (install host manifest) w))) =
     Store.tier name (storage (after (install host manifest) w))) /\
  map fst (storage (after (install host manifest) (after (install host manifest) w))) =
    map fst (storage (after (install host manifest) w)) /\
  is_Some (Store.find CACHE_PRIMARY (storage (after (install host manifest) w))) /\
  is_Some (Store.find CACHE_SECONDARY (storage (after (install host manifest) w))) /\
  is_Some (Store.find CACHE_DATA (storage (after (install host manifest) w))).
Proof.
  assert (storage (after (install host manifest) (after (install host manifest) w)) =
          storage (after (install host manifest) w)) as Heq.
  { rewrite !install_storage. apply installedStorage_idempotent. }
  split; [exact Heq|]. split; [by rewrite Heq|]. split; [by rewrite Heq|].
  destruct tier_names_distinct as (Hps & Hpd & Hsd).
  rewrite install_storage. unfold installedStorage.
  repeat split.
  - rewrite find_update_is_Some. apply present_open. right.
    rewrite find_update_is_Some. apply present_open. right.
    rewrite find_update_is_Some. apply present_open. by left.
  - rewrite find_update_is_Some. apply present_open. right.
    rewrite find_update_is_Some. apply present_open. by left.
  - rewrite find_update_is_Some. apply present_open. by left.
Qed.

End Install.

(** Installation on an example: an empty storage gets the three tiers,
    the six assets in Primary, and a second installation changes
    nothing. *)
Example install_on_empty_storage :
  map fst (storage (after (install Demo.onlineHost CRITICAL_ASSETS) Demo.emptyWorld))
    = [CACHE_PRIMARY; CACHE_SECONDARY; CACHE_DATA] /\
  size (Store.tier CACHE_PRIMARY
          (storage (after (install Demo.onlineHost CRITICAL_ASSETS) Demo.emptyWorld))) = 6%nat /\
  size (Store.tier CACHE_DATA
          (storage (after (install Demo.onlineHost CRITICAL_ASSETS) Demo.emptyWorld))) = 0%nat.
Proof. repeat split; vm_compute; reflexivity. Qed.

(** By contrast with the dual-cache strategy, the API strategy does hand
    its cache write to the event loop: when it returns, no write has been
    attempted and the write is the one piece of pending work. *)
Example api_write_is_detached :
  result (handleApiRequest Demo.onlineHost Demo.apiTracks) Demo.emptyWorld
    = Resolved (Demo.ok "fresh https://music.example/api/tracks.json") /\
  journal (after (handleApiRequest Demo.onlineHost Demo.apiTracks) Demo.emptyWorld) = [] /\
  tasks (after (handleApiRequest Demo.onlineHost Demo.apiTracks) Demo.emptyWorld)
    = [DetachedPut CACHE_DATA Demo.apiTracks
         (Demo.ok "fresh https://music.example/api/tracks.json")].
Proof. repeat split; vm_compute; reflexivity. Qed.

(** ** Reasoning about what a computation leaves alone *)

Section Ensures.

Context (R : World -> World -> Prop) `{!PreOrder R}.

Lemma ensures_ret {A} (Q : A -> Prop) a : Q a -> ensures R Q (ret a).
Proof. intros Ha s. split; [reflexivity | exact Ha]. Qed.

Lemma ensures_bind {A B} (Q1 : A -> Prop) (Q : B -> Prop) (m : M A) (k : A -> M B) :
  ensures R Q1 m -> (forall a, Q1 a -> ensures R Q (k a)) -> ensures R Q (bind m k).
Proof.
  intros Hm Hk s. unfold bind. destruct (Hm s) as [HR HQ].
  destruct (m s) as [a s1]. simpl in *.
  destruct (Hk a HQ s1) as [HR' HQ']. split; [|exact HQ'].
  by etransitivity.
Qed.

Lemma ensures_then {A B} (Q : B -> Prop) (m : M A) (k : A -> M B) :
  ensures R (fun _ => True) m -> (forall a, ensures R Q (k a)) -> ensures R Q (bind m k).
Proof. intros Hm Hk. eapply ensures_bind; [exact Hm|]. intros a _. apply Hk. Qed.

Lemma ensures_ret_bind {A B} (Q : B -> Prop) (a : A) (k : A -> M B) :
  ensures R Q (k a) -> ensures R Q (bind (ret a) k).
Proof. intros Hk s. exact (Hk s). Qed.

Lemma ensures_weaken {A} (Q Q' : A -> Prop) (m : M A) :
  ensures R Q m -> (forall a, Q a -> Q' a) -> ensures R Q' m.
Proof. intros Hm HQ s. destruct (Hm s). split; auto. Qed.

Lemma ensures_forEach {A} (f : A -> M unit) l :
  (forall x, In x l -> ensures R (fun _ => True) (f x)) ->
  ensures R (fun _ => True) (forEach f l).
Proof.
  induction l as [|x l IH]; intros Hf; simpl.
  - by apply ensures_ret.
  - apply ensures_then; [apply Hf; by left|].
    intros _. apply IH. intros y Hy. apply Hf. by right.
Qed.

Lemma ensures_firstSome {A B} (f : A -> M (option B)) l :
  (forall x, In x l -> ensures R (fun _ => True) (f x)) ->
  ensures R (fun _ => True) (firstSome f l).
Proof.
  induction l as [|x l IH]; intros Hf; simpl.
  - by apply ensures_ret.
  - apply ensures_then; [apply Hf; by left|].
    intros [b|]; [by apply ensures_ret|].
    apply IH. intros y Hy. apply Hf. by right.
Qed.

Lemma ensures_mapM {A B} (f : A -> M B) l :
  (forall x, In x l -> ensures R (fun _ => True) (f x)) ->
  ensures R (fun _ => True) (mapM f l).
Proof.
  induction l as [|x l IH]; intros Hf; simpl.
  - by apply ensures_ret.
  - apply ensures_then; [apply Hf; by left|]. intros b.
    apply ensures_then; [apply IH; intros y Hy; apply Hf; by right|].
    intros bs. by apply ensures_ret.
Qed.

(** What [R] has to allow for the reads and the console to be within
    it. *)
Hypothesis R_say : forall e w, R w (say e w).
Hypothesis R_opened : forall name w, R w (opened name w).

Lemma ensures_consoleLog msg : ensures R (fun _ => True) (consoleLog msg).
Proof. intros [w n]. split; [apply R_say | done]. Qed.

Lemma ensures_consoleError msg : ensures R (fun _ => True) (consoleError msg).
Proof. intros [w n]. split; [apply R_say | done]. Qed.

Lemma ensures_cachesOpen name : ensures R (fun _ => True) (cachesOpen name).
Proof. intros [w n]. split; [apply R_opened | done]. Qed.

Lemma ensures_cacheMatch name key : ensures R (fun _ => True) (cacheMatch name key).
Proof. intros [w n]. rewrite cacheMatch_run. split; [apply R_opened | done]. Qed.

Lemma ensures_readCache name : ensures R (fun _ => True) (readCache name).
Proof. intros [w n]. split; [reflexivity | done]. Qed.

Lemma ensures_cachesMatch key : ensures R (fun _ => True) (cachesMatch key).
Proof. intros [w n]. split; [reflexivity | done]. Qed.

Lemma ensures_cachePut host name key r :
  (forall w, R w (putAccepted name key r w)) ->
  (forall w, R w (putRefused name key w)) ->
  ensures R (fun _ => True) (cachePut host name key r).
Proof.
  intros Hacc Href [w n]. rewrite cachePut_run.
  destruct (storageFault host n name key); split; simpl; auto.
Qed.

Lemma ensures_spawn t :
  (forall w, R w (enqueue t w)) -> ensures R (fun _ => True) (spawn t).
Proof. intros Ht [w n]. split; [apply Ht | done]. Qed.

Lemma ensures_willRefuse host k name key :
  ensures R (fun _ => True) (willRefuse host k name key).
Proof. intros [w n]. split; [reflexivity | done]. Qed.

Lemma ensures_racingPut host overtaken name key r :
  (forall w, R w (putAccepted name key r w)) ->
  (forall w, R w (putRefused name key w)) ->
  (forall w, R w (putLanding name key r w)) ->
  ensures R (fun _ => True) (racingPut host overtaken name key r).
Proof.
  intros Hacc Href Hland [w n]. rewrite racingPut_run.
  destruct (storageFault host n name key); [split; simpl; auto|].
  destruct (overtaken && landsLate host n); split; simpl; auto.
Qed.

End Ensures.

(** One step through the code of a handler: the goal is that the handler
    stays within a relation. *)
Ltac walk_prim :=
  first [ apply ensures_consoleLog | apply ensures_consoleError
        | apply ensures_cachesOpen | apply ensures_cacheMatch
        | apply ensures_readCache | apply ensures_cachesMatch
        | apply ensures_cachePut | apply ensures_spawn
        | apply ensures_willRefuse | apply ensures_racingPut ].

Ltac walk_step :=
  match goal with
  | |- ensures _ _ (ret _) => apply ensures_ret
  | |- ensures _ _ (bind (ret _) _) => apply ensures_ret_bind; cbv beta
  | |- ensures _ _ (bind _ _) =>
      apply ensures_then; try typeclasses eauto; [|intros ?]
  | |- ensures _ _ (match ?x with _ => _ end) => destruct x eqn:?
  | |- ensures _ _ (forEach _ _) =>
      apply ensures_forEach; try typeclasses eauto; intros ? ?
  | |- ensures _ _ (firstSome _ _) =>
      apply ensures_firstSome; try typeclasses eauto; intros ? ?
  | |- ensures _ _ (mapM _ _) =>
      apply ensures_mapM; try typeclasses eauto; intros ? ?
  | |- ensures _ _ _ => walk_prim
  end.

Ltac walk := repeat (walk_step; try typeclasses eauto; try done; eauto).

Section ReadOnlyCode.

Context (R : World -> World -> Prop) `{!PreOrder R}.
Hypothesis R_say : forall e w, R w (say e w).
Hypothesis R_opened : forall name w, R w (opened name w).

Variable host : Host.

Lemma ensures_probe names key : ensures R (fun _ => True) (probe names key).
Proof. unfold probe. walk. Qed.

Lemma ensures_findSimilarResource request :
  ensures R (fun _ => True) (findSimilarResource host request).
Proof. unfold findSimilarResource, probe. cbv zeta. walk. Qed.

Lemma ensures_getNavigationFallback :
  ensures R (fun _ => True) (getNavigationFallback host).
Proof. unfold getNavigationFallback. walk. Qed.

Lemma ensures_getOfflineResponse request :
  ensures R (fun _ => True) (getOfflineResponse request).
Proof. unfold getOfflineResponse, probe. walk. Qed.

Lemma ensures_checkOne manifest name :
  ensures R (fun _ => True) (checkOne host manifest name).
Proof. unfold checkOne. walk. Qed.

End ReadOnlyCode.

#[global] Instance readOnly_preorder : PreOrder readOnly.
Proof.
  split.
  - intros w. by repeat split.
  - intros w1 w2 w3 (Ht & Hj & Hk & Hs) (Ht' & Hj' & Hk' & Hs').
    split; [intros name; by rewrite Ht', Ht|]. repeat split; congruence.
Qed.

#[global] Instance onlyTouches_preorder names keys : PreOrder (onlyTouches names keys).
Proof.
  split.
  - by intros w name key _.
  - intros w1 w2 w3 H12 H23 name key Hout. by rewrite H23, H12.
Qed.

#[global] Instance noWrite_preorder : PreOrder noWrite.
Proof. split; [by intros w | intros w1 w2 w3; unfold noWrite; congruence]. Qed.

#[global] Instance anyWorld_preorder : PreOrder anyWorld.
Proof. by split. Qed.

Lemma readOnly_say e w : readOnly w (say e w).
Proof. by repeat split. Qed.

Lemma readOnly_opened name w : readOnly w (opened name w).
Proof. repeat split; try done. intros name'. apply tier_opened. Qed.

Lemma onlyTouches_say names keys e w : onlyTouches names keys w (say e w).
Proof. by intros name key _. Qed.

Lemma onlyTouches_opened names keys name w : onlyTouches names keys w (opened name w).
Proof. intros name' key _. by rewrite tier_opened. Qed.

Lemma onlyTouches_enqueue names keys t w : onlyTouches names keys w (enqueue t w).
Proof. by intros name key _. Qed.

Lemma onlyTouches_write names keys name key :
  In name names -> In key keys -> allowsWrite (onlyTouches names keys) name key.
Proof.
  intros Hname Hkey. split; [|split].
  - intros r w name' key' Hout.
    destruct (decide (name = name')) as [<-|Hne].
    + rewrite tier_putAccepted_same. apply lookup_insert_ne.
      intros <-. by destruct Hout.
    + by rewrite tier_putAccepted_other.
  - intros w name' key' _. by rewrite tier_putRefused.
  - intros r w name' key' _. by rewrite tier_putLanding.
Qed.

Section Handlers.

Context (R : World -> World -> Prop) `{!PreOrder R}.
Hypothesis R_say : forall e w, R w (say e w).
Hypothesis R_opened : forall name w, R w (opened name w).

Variable host : Host.

Lemma ensures_updateBothCaches requestKey r :
  allowsWrite R CACHE_PRIMARY (resolve host requestKey) ->
  allowsWrite R CACHE_SECONDARY (resolve host requestKey) ->
  ensures R (fun _ => True) (updateBothCaches host requestKey r).
Proof.
  intros (HPa & HPr & HPl) (HSa & HSr & HSl). unfold updateBothCaches. cbv zeta. walk.
Qed.

Lemma ensures_refreshCacheInBackground request :
  (forall w, R w (enqueue (Timeout 1000 request) w)) ->
  ensures R (fun _ => True) (refreshCacheInBackground request).
Proof. intros Htimer. unfold refreshCacheInBackground. walk. Qed.

Lemma ensures_handleDualCacheRequest request :
  allowsWrite R CACHE_PRIMARY (resolve host (url request)) ->
  allowsWrite R CACHE_SECONDARY (resolve host (url request)) ->
  allowsWrite R CACHE_PRIMARY (url request) ->
  (forall w, R w (enqueue (Timeout 1000 request) w)) ->
  ensures R (fun _ => True) (handleDualCacheRequest host request).
Proof.
  intros HP HS (HPa & HPr & _) Htimer. unfold handleDualCacheRequest, fetch. cbv zeta.
  walk;
    try (by apply ensures_updateBothCaches);
    try (by apply ensures_refreshCacheInBackground);
    try (by apply ensures_findSimilarResource);
    try (by apply ensures_getNavigationFallback).
Qed.

Lemma ensures_refreshCallback request :
  allowsWrite R CACHE_PRIMARY (resolve host (url request)) ->
  allowsWrite R CACHE_SECONDARY (resolve host (url request)) ->
  ensures R (fun _ => True) (refreshCallback host request).
Proof.
  intros HP HS. unfold refreshCallback, fetch.
  walk; by apply ensures_updateBothCaches.
Qed.

Lemma ensures_handleApiRequest request :
  (forall r w, R w (enqueue (DetachedPut CACHE_DATA request r) w)) ->
  ensures R (fun _ => True) (handleApiRequest host request).
Proof. intros Hput. unfold handleApiRequest, fetch. walk. Qed.

Lemma ensures_runTask t :
  match t with
  | Timeout _ request =>
      allowsWrite R CACHE_PRIMARY (resolve host (url request)) /\
      allowsWrite R CACHE_SECONDARY (resolve host (url request))
  | DetachedPut name request _ => allowsWrite R name (url request)
  | LandingPut name key r =>
      forall w, R w (setStorage (Store.update name (insert key r) (storage w)) w)
  end ->
  ensures R (fun _ => True) (runTask host t).
Proof.
  destruct t as [delay request|name request r|name key r]; simpl.
  - intros [HP HS]. by apply ensures_refreshCallback.
  - intros (Ha & Hr & _). walk.
  - intros Hland [w n]. split; [apply Hland | done].
Qed.

End Handlers.

Lemma after_state {A} (m : M A) w : after m w = fst (snd (m (w, 0%nat))).
Proof. unfold after, run. by destruct (m (w, 0%nat)) as [a [w' n]]. Qed.

Lemma result_state {A} (m : M A) w : result m w = fst (m (w, 0%nat)).
Proof. unfold result, run. by destruct (m (w, 0%nat)) as [a [w' n]]. Qed.

(** From a relation kept by every run to the world after a run from the
    start. *)
Lemma ensures_after {A} R (Q : A -> Prop) (m : M A) w :
  ensures R Q m -> R w (after m w) /\ Q (result m w).
Proof. intros Hm. rewrite after_state, result_state. apply (Hm (w, 0%nat)). Qed.

(** ** The fetch listener *)

(** X1.  The [fetch] listener leaves a request alone exactly when it
    is not a GET, or its URL starts with [chrome-extension://] or
    contains [browser-sync]; nothing changes then.  Any other request is
    answered with a response, never with a rejection, whatever the network
    and the storage layer do. *)
Theorem fetch_listener_always_answers host request w :
  (route request = Ignored <->
   method request <> "GET" \/
   (exists rest, url request = "chrome-extension://" +:+ rest) \/
   contains (url request) "browser-sync") /\
  match route request with
  | Ignored => run (onFetch host request) w = (None, w)
  | _ => exists r, result (onFetch host request) w = Some (Resolved r)
  end.
Proof.
  split.
  { unfold route, Str.startsWith.
    rewrite <- prefix_spec, <- includes_spec.
    destruct (String.eqb_spec (method request) "GET") as [Hm|Hm];
      destruct (String.prefix "chrome-extension://" (url request));
      destruct (Str.includes (url request) "browser-sync");
      simpl; split; try tauto; try discriminate;
      try (intros [H|[H|H]]; [by destruct H|discriminate H|discriminate H]);
      by repeat match goal with |- context [if ?b then _ else _] => destruct b end. }

  destruct (route request) eqn:Hroute.
  - unfold run, onFetch. by rewrite Hroute.
  - unfold result, run, onFetch, bind, ret. rewrite Hroute.
    pose proof (api_run host request w) as Hrun. unfold run in Hrun.
    destruct (handleApiRequest host request (w, 0%nat)) as [o [w' n']].
    destruct (network host request); inversion Hrun; subst; simpl; eauto.
  - assert (ensures anyWorld (fun o => exists r, o = Some (Resolved r))
                    (onFetch host request)) as Hens.
    { unfold onFetch. rewrite Hroute.
      apply ensures_then; [typeclasses eauto|done|]. intros [r|reason].
      - apply ensures_ret; [typeclasses eauto|eauto].
      - apply ensures_then; [typeclasses eauto|done|]. intros _.
        apply ensures_then; [typeclasses eauto|done|]. intros r.
        apply ensures_ret; [typeclasses eauto|eauto]. }
    apply (ensures_after _ _ _ w) in Hens. apply Hens.
Qed.

#[global] Instance leavesOnly_preorder expected : PreOrder (leavesOnly expected).
Proof.
  split.
  - intros w. exists []. by rewrite app_nil_r.
  - intros w1 w2 w3 (n12 & H12 & F12) (n23 & H23 & F23).
    exists (n12 ++ n23). rewrite H23, H12, <- app_assoc. split; [done|].
    by apply Forall_app.
Qed.

#[global] Instance confined_preorder names keys request :
  PreOrder (confined names keys request).
Proof.
  split.
  - intros w. split; reflexivity.
  - intros w1 w2 w3 [T12 L12] [T23 L23]. split; etransitivity; eauto.
Qed.

Lemma leavesOnly_same_tasks expected w w' : tasks w' = tasks w -> leavesOnly expected w w'.
Proof. intros Ht. exists []. by rewrite app_nil_r. Qed.

Lemma leavesOnly_enqueue (expected : Task -> Prop) t w :
  expected t -> leavesOnly expected w (enqueue t w).
Proof. intros Ht. exists [t]. split; [done|]. by constructor. Qed.

Section Confined.

Variable names keys : list string.
Variable request : Request.

Lemma confined_say e w : confined names keys request w (say e w).
Proof. split; [apply onlyTouches_say | by apply leavesOnly_same_tasks]. Qed.

Lemma confined_opened name w : confined names keys request w (opened name w).
Proof. split; [apply onlyTouches_opened | by apply leavesOnly_same_tasks]. Qed.

Lemma confined_enqueue t w :
  expectedOf names keys request t -> confined names keys request w (enqueue t w).
Proof. intros Ht. split; [apply onlyTouches_enqueue | by apply leavesOnly_enqueue]. Qed.

Lemma confined_write name key :
  In name names -> In key keys -> allowsWrite (confined names keys request) name key.
Proof.
  intros Hname Hkey.
  destruct (onlyTouches_write names keys name key Hname Hkey) as (Ha & Hr & Hl).
  split; [|split].
  - intros r w. split; [apply Ha | by apply leavesOnly_same_tasks].
  - intros w. split; [apply Hr | by apply leavesOnly_same_tasks].
  - intros r w. split; [apply Hl|].
    exists [LandingPut name key r]. split; [done|]. by constructor.
Qed.

(** Running a piece of the expected work, against any host, stays
    within the bounds. *)
Lemma confined_runTask later t :
  In (url request) keys -> In (resolve later (url request)) keys ->
  expectedOf names keys request t ->
  ensures (confined names keys request) (fun _ => True) (runTask later t).
Proof.
  intros Hurl Hres Ht.
  apply ensures_runTask;
    try typeclasses eauto; try apply confined_say; try apply confined_opened.
  destruct t as [delay q|name q r|name key r]; simpl in Ht.
  - destruct Ht as (-> & HP & HS). split; by apply confined_write.
  - destruct Ht as (-> & Hname). by apply confined_write.
  - destruct Ht as (Hname & Hkey). intros w. split.
    + intros name' key' Hout. simpl.
      destruct (decide (name = name')) as [<-|Hne].
      * unfold Store.tier. rewrite find_update, String.eqb_refl.
        destruct (Store.find name (storage w)) as [c|]; simpl; [|done].
        apply lookup_insert_ne. intros <-. by destruct Hout.
      * by rewrite tier_update_other.
    + by apply leavesOnly_same_tasks.
Qed.

(** So does the event loop, however far it gets with the work left
    behind. *)
Lemma confined_settling later w w1 w2 :
  In (url request) keys -> In (resolve later (url request)) keys ->
  confined names keys request w w1 ->
  settling later (List.length (tasks w)) w1 w2 ->
  confined names keys request w w2.
Proof.
  intros Hurl Hres H1 Hsettle. induction Hsettle as [|w' t _ IH Hin]; [done|].
  etransitivity; [exact IH|].
  destruct IH as [_ (new & Htasks & Hnew)].
  rewrite Htasks, drop_app_length in Hin.
  assert (expectedOf names keys request t) as Ht.
  { rewrite List.Forall_forall in Hnew. by apply Hnew. }
  apply (ensures_after _ _ _ w' (confined_runTask later t Hurl Hres Ht)).
Qed.

End Confined.

(** X2.  Handling a fetch event, with all the work it leaves behind
    (the re-validation timer, the detached write of an API answer, a
    cache write still in flight) however far the event loop has got with
    it, can change only the cache entries under the request's URL: for a
    request on the dual-cache route in Primary and Secondary, for an API
    request in the Data tier, for a request that is left alone nowhere.
    Every other entry of every cache is what it was before. *)
Theorem fetch_touches_only_the_request_entry host later request w w' name key :
  ~ In name (tiersOf (route request)) \/
  ~ In key [url request; resolve host (url request); resolve later (url request)] ->
  settling later (List.length (tasks w)) (after (onFetch host request) w) w' ->
  Store.tier name (storage w') !! key = Store.tier name (storage w) !! key.
Proof.
  intros Hout Hsettle.
  set (names := tiersOf (route request)) in *.
  set (keys := [url request; resolve host (url request);
                resolve later (url request)]) in *.
  assert (ensures (confined names keys request) (fun _ => True) (onFetch host request))
    as Hens.
  { unfold onFetch. subst names. destruct (route request); simpl tiersOf.
    - apply ensures_ret; [typeclasses eauto|done].
    - apply ensures_then; [typeclasses eauto| |intros o].
      + apply ensures_handleApiRequest;
          try typeclasses eauto; try apply confined_say; try apply confined_opened.
        intros r w0. apply confined_enqueue. simpl. auto.
      + apply ensures_ret; [typeclasses eauto|done].
    - apply ensures_then; [typeclasses eauto| |intros o].
      + apply ensures_handleDualCacheRequest;
          try typeclasses eauto;
          try apply confined_say; try apply confined_opened;
          try (apply confined_write; subst keys; simpl; by auto).
        intros w0. apply confined_enqueue. simpl. auto.
      + destruct o as [r|reason].
        * apply ensures_ret; [typeclasses eauto|done].
        * apply ensures_then; [typeclasses eauto| |intros _].
          { intros [w0 n0]. split; [apply confined_say|done]. }
          apply ensures_then; [typeclasses eauto| |intros r].
          { apply ensures_getOfflineResponse;
              try typeclasses eauto; try apply confined_say; try apply confined_opened. }
          apply ensures_ret; [typeclasses eauto|done]. }
  apply (ensures_after _ _ _ w) in Hens. destruct Hens as [Hhandled _].
  assert (confined names keys request w w') as [Hframe _].
  { apply (confined_settling names keys request later w
             (after (onFetch host request) w) w');
      subst keys; simpl; auto. }
  by apply Hframe.
Qed.

(** ** The fallback chain *)

Lemma firstHit_readOnly names key w w' :
  readOnly w w' -> firstHit names key (storage w') = firstHit names key (storage w).
Proof.
  intros (Htier & _). induction names as [|name names IH]; simpl; [done|].
  by rewrite Htier, IH.
Qed.

Lemma probe_run names key w n :
  exists w',
    probe names key (w, n) = (firstHit names key (storage w), (w', n)) /\
    readOnly w w'.
Proof.
  unfold probe. revert w. induction names as [|name names IH]; intros w; simpl.
  - exists w. split; [done|reflexivity].
  - unfold bind. rewrite cacheMatch_run. fold (opened name w).
    destruct (Store.tier name (storage w) !! key) as [r|].
    + exists (opened name w). split; [done|apply readOnly_opened].
    + destruct (IH (opened name w)) as (w' & Hrun & Hro).
      exists w'. rewrite Hrun. split.
      * by rewrite (firstHit_readOnly names key w (opened name w))
          by apply readOnly_opened.
      * etransitivity; [apply readOnly_opened|exact Hro].
Qed.

Lemma similarIn_readOnly host request w w' :
  readOnly w w' -> similarIn host request (storage w') = similarIn host request (storage w).
Proof. intros Hro. unfold similarIn. by rewrite !(firstHit_readOnly _ _ w w'). Qed.

Lemma findSimilarResource_run host request w n :
  exists w',
    findSimilarResource host request (w, n) =
      (similarIn host request (storage w), (w', n)) /\
    readOnly w w'.
Proof.
  unfold findSimilarResource, similarIn. cbv zeta. unfold bind, ret.
  set (first := Str.endsWith (Url.pathname (url request)) "/"
                || negb (Str.includes (Url.pathname (url request)) ".")).
  set (root := String.eqb (Url.pathname (url request)) "/"
               || String.eqb (Url.pathname (url request)) ""
               || String.eqb (Url.pathname (url request)) "/index.html").
  assert (exists w1,
            (if first
             then probe [CACHE_PRIMARY; CACHE_SECONDARY] (resolve host "/index.html")
             else fun s => (None, s)) (w, n)
            = ((if first
                then firstHit [CACHE_PRIMARY; CACHE_SECONDARY]
                       (resolve host "/index.html") (storage w)
                else None), (w1, n)) /\ readOnly w w1) as (w1 & -> & Hro1).
  { destruct first; [apply probe_run|]. exists w. split; [done|reflexivity]. }
  destruct (if first then _ else None) as [r|].
  - by exists w1.
  - destruct root.
    + destruct (probe_run [CACHE_PRIMARY; CACHE_SECONDARY] (resolve host "/") w1 n)
        as (w2 & -> & Hro2).
      exists w2. split; [|by etransitivity].
      by rewrite (firstHit_readOnly _ _ w w1).
    + by exists w1.
Qed.

Lemma getNavigationFallback_run host w n :
  exists w',
    getNavigationFallback host (w, n) = (shellIn host (storage w), (w', n)) /\
    readOnly w w'.
Proof.
  unfold getNavigationFallback, shellIn, shellOf. simpl. unfold bind, ret.
  rewrite !cacheMatch_run. simpl. rewrite !tier_open.
  destruct (Store.tier CACHE_PRIMARY (storage w) !! resolve host "/index.html") as [a|];
    [eexists; split; [reflexivity|]; repeat split; intros; simpl; by rewrite ?tier_open|].
  destruct (Store.tier CACHE_PRIMARY (storage w) !! resolve host "/") as [b|];
    [eexists; split; [reflexivity|]; repeat split; intros; simpl; by rewrite ?tier_open|].
  destruct (Store.tier CACHE_PRIMARY (storage w) !! resolve host "index.html") as [c|];
    [eexists; split; [reflexivity|]; repeat split; intros; simpl; by rewrite ?tier_open|].
  rewrite !cacheMatch_run. simpl. rewrite !tier_open.
  destruct (Store.tier CACHE_SECONDARY (storage w) !! resolve host "/index.html");
    [eexists; split; [reflexivity|]; repeat split; intros; simpl; by rewrite ?tier_open|].
  destruct (Store.tier CACHE_SECONDARY (storage w) !! resolve host "/");
    [eexists; split; [reflexivity|]; repeat split; intros; simpl; by rewrite ?tier_open|].
  destruct (Store.tier CACHE_SECONDARY (storage w) !! resolve host "index.html");
    eexists; (split; [reflexivity|]); repeat split; intros; simpl; by rewrite ?tier_open.
Qed.

Lemma shellIn_readOnly host w w' :
  readOnly w w' -> shellIn host (storage w') = shellIn host (storage w).
Proof. intros (Htier & _). unfold shellIn. by rewrite !Htier. Qed.

Lemma getOfflineResponse_run request w n :
  exists w',
    getOfflineResponse request (w, n) =
      (match firstHit [CACHE_PRIMARY; CACHE_SECONDARY; CACHE_DATA] (url request) (storage w) with
       | Some r => r
       | None => if String.eqb (mode request) "navigate" then offlinePage
                 else offlineNotFound
       end, (w', n)) /\
    readOnly w w'.
Proof.
  unfold getOfflineResponse, bind, ret.
  destruct (probe_run [CACHE_PRIMARY; CACHE_SECONDARY; CACHE_DATA] (url request) w n)
    as (w' & -> & Hro).
  exists w'. split; [|done].
  destruct (firstHit _ _ _); [done|]. by destruct (String.eqb (mode request) "navigate").
Qed.

(** The handler when the network attempt has failed and neither Primary
    nor Secondary holds the request: strategies 4 and 5, then the
    [throw]. *)
Lemma dual_miss_run host request w :
  networkFails host request ->
  Store.tier CACHE_PRIMARY (storage w) !! url request = None ->
  Store.tier CACHE_SECONDARY (storage w) !! url request = None ->
  exists w',
    handleDualCacheRequest host request (w, 0%nat) =
      (match similarIn host request (storage w) with
       | Some r => Resolved r
       | None =>
           match (if String.eqb (mode request) "navigate"
                  then shellIn host (storage w) else None) with
           | Some r => Resolved r
           | None => Rejected "No cache available"
           end
       end, (w', 0%nat)) /\
    readOnly w w'.
Proof.
  intros Hfail HP HS.
  set (w0 := match network host request with
             | Some _ => w
             | None => say (ConsoleLog "[Service Worker] Network unavailable, using cache:") w
             end).
  assert (readOnly w w0) as Hro0.
  { subst w0. destruct (network host request); [reflexivity|apply readOnly_say]. }
  set (w1 := opened CACHE_SECONDARY (opened CACHE_PRIMARY w0)).
  assert (readOnly w w1) as Hro1.
  { subst w1. etransitivity; [exact Hro0|].
    etransitivity; apply readOnly_opened. }
  assert (handleDualCacheRequest host request (w, 0%nat) =
          (similar <- findSimilarResource host request ;;
           match similar with
           | Some cachedResponse =>
               consoleLog ("[Service Worker] Served similar resource for: "
                           +:+ url request) ;;;
               ret (Resolved cachedResponse)
           | None =>
               fallback <- (if String.eqb (mode request) "navigate"
                            then getNavigationFallback host else ret None) ;;
               match fallback with
               | Some fallbackResponse => ret (Resolved fallbackResponse)
               | None => ret (Rejected "No cache available")
               end
           end) (w1, 0%nat)) as ->.
  { destruct Hro0 as (Ht0 & _). subst w1.
    unfold handleDualCacheRequest, fetch. cbv zeta. unfold bind, ret.
    destruct (networkFails_cases host request Hfail) as [Hn | (r & Hn & Hst)];
      subst w0; rewrite Hn in *; rewrite ?Hst; simpl;
      rewrite !tier_open, ?Ht0, HP; simpl;
      rewrite !tier_open, ?Ht0, HS; reflexivity. }
  unfold bind.
  destruct (findSimilarResource_run host request w1 0) as (w2 & -> & Hro2).
  rewrite (similarIn_readOnly host request w w1) by done.
  destruct (similarIn host request (storage w)) as [r|].
  - eexists. split; [reflexivity|].
    etransitivity; [exact Hro1|]. etransitivity; [exact Hro2|apply readOnly_say].
  - destruct (String.eqb (mode request) "navigate").
    + destruct (getNavigationFallback_run host w2 0) as (w3 & -> & Hro3).
      rewrite (shellIn_readOnly host w w2) by (by etransitivity).
      exists w3. split; [by destruct (shellIn host (storage w))|].
      etransitivity; [exact Hro1|]. by etransitivity.
    + exists w2. split; [done|]. by etransitivity.
Qed.

(** What the listener answers in that case, and that it is all
    lookups. *)
Lemma fetch_miss_run host request w :
  route request = DualCacheStrategy ->
  networkFails host request ->
  Store.tier CACHE_PRIMARY (storage w) !! url request = None ->
  Store.tier CACHE_SECONDARY (storage w) !! url request = None ->
  result (onFetch host request) w = Some (Resolved (lastResort host request (storage w))) /\
  readOnly w (after (onFetch host request) w).
Proof.
  intros Hroute Hfail HP HS.
  destruct (dual_miss_run host request w Hfail HP HS) as (w1 & Hrun & Hro1).
  assert (exists w2,
            onFetch host request (w, 0%nat) =
              (Some (Resolved (lastResort host request (storage w))), (w2, 0%nat)) /\
            readOnly w w2) as (w2 & Hfetch & Hro2).
  { unfold onFetch. rewrite Hroute. unfold bind. rewrite Hrun. unfold lastResort.
    destruct (similarIn host request (storage w)) as [r|]; [by exists w1|].
    destruct (if String.eqb (mode request) "navigate" then shellIn host (storage w) else None)
      as [r|]; [by exists w1|].
    unfold consoleError. cbv beta iota.
    destruct (getOfflineResponse_run request
                (say (ConsoleError "[Service Worker] Fetch failed:") w1) 0)
      as (w2 & -> & Hro2).
    exists w2. unfold ret. split.
    - rewrite (firstHit_readOnly _ _ w)
        by (etransitivity; [exact Hro1|apply readOnly_say]).
      simpl. rewrite HP, HS.
      by destruct (Store.tier CACHE_DATA (storage w) !! url request).
    - etransitivity; [exact Hro1|]. etransitivity; [apply readOnly_say|exact Hro2]. }
  by rewrite result_state, after_state, Hfetch.
Qed.

Section Fallbacks.

Variable host : Host.
Variable request : Request.
Variable w : World.

Hypothesis network_down : networkFails host request.
Hypothesis primary_miss :
  Store.tier CACHE_PRIMARY (storage w) !! url request = None.
Hypothesis secondary_miss :
  Store.tier CACHE_SECONDARY (storage w) !! url request = None.

(** X3.  When the network attempt fails and neither Primary nor
    Secondary holds the request, the handler only looks things up: every
    cache holds afterwards what it held, no write is attempted and no
    re-validation is scheduled, whether a fallback is found or not. *)
Theorem dual_miss_changes_nothing :
  readOnly w (after (handleDualCacheRequest host request) w).
Proof.
  destruct (dual_miss_run host request w network_down primary_miss secondary_miss)
    as (w1 & Hrun & Hro).
  rewrite after_state, Hrun. exact Hro.
Qed.

(** X4.  An application route (a path that ends in a slash or has no
    dot) that is not in the caches is answered with the shell document
    stored under [/index.html], the copy of Primary if it has one and
    else the copy of Secondary. *)
Theorem app_route_gets_the_shell shell :
  Str.endsWith (Url.pathname (url request)) "/"
    || negb (Str.includes (Url.pathname (url request)) ".") = true ->
  firstHit [CACHE_PRIMARY; CACHE_SECONDARY] (resolve host "/index.html") (storage w)
    = Some shell ->
  result (handleDualCacheRequest host request) w = Resolved shell.
Proof.
  intros Hpath Hshell.
  destruct (dual_miss_run host request w network_down primary_miss secondary_miss)
    as (w1 & Hrun & _).
  rewrite result_state, Hrun. unfold similarIn. cbv zeta.
  by rewrite Hpath, Hshell.
Qed.

(** X5.  A request for a file (a path with a dot that does not end in a
    slash and is not [/index.html]) that is not a navigation gets no
    substitute from Primary or Secondary: the handler fails with
    [No cache available], and the listener answers with the copy of the
    Data tier if there is one and with the 404 response [Offline]
    otherwise. *)
Theorem file_request_gets_no_substitute :
  Str.endsWith (Url.pathname (url request)) "/" = false ->
  Str.includes (Url.pathname (url request)) "." = true ->
  Url.pathname (url request) <> "/index.html" ->
  mode request <> "navigate" ->
  result (handleDualCacheRequest host request) w = Rejected "No cache available" /\
  (route request = DualCacheStrategy ->
   result (onFetch host request) w =
     Some (Resolved (default offlineNotFound
                       (Store.tier CACHE_DATA (storage w) !! url request)))) /\
  status offlineNotFound = 404 /\ statusText offlineNotFound = "Offline".
Proof.
  intros Hslash Hdot Hindex Hmode.
  apply String.eqb_neq in Hmode.
  assert (similarIn host request (storage w) = None) as Hsim.
  { unfold similarIn. cbv zeta. rewrite Hslash, Hdot. simpl.
    destruct (String.eqb_spec (Url.pathname (url request)) "/") as [Heq|_].
    { rewrite Heq in Hslash. discriminate. }
    destruct (String.eqb_spec (Url.pathname (url request)) "") as [Heq|_].
    { rewrite Heq in Hdot. discriminate. }
    destruct (String.eqb_spec (Url.pathname (url request)) "/index.html"); done. }
  split; [|split; [|done]].
  - destruct (dual_miss_run host request w network_down primary_miss secondary_miss)
      as (w1 & Hrun & _).
    by rewrite result_state, Hrun, Hsim, Hmode.
  - intros Hroute.
    destruct (fetch_miss_run host request w Hroute network_down primary_miss secondary_miss)
      as (-> & _).
    unfold lastResort. rewrite Hsim, Hmode.
    by destruct (Store.tier CACHE_DATA (storage w) !! url request).
Qed.

(** X6.  A navigation for which no similar resource is found (a
    navigation to a file, say) is still answered with the shell document
    when a tier has it: Primary is asked for [/index.html], [/] and
    [index.html] in that order, then Secondary. *)
Theorem navigation_gets_the_shell shell :
  mode request = "navigate" ->
  similarIn host request (storage w) = None ->
  shellIn host (storage w) = Some shell ->
  result (handleDualCacheRequest host request) w = Resolved shell.
Proof.
  intros Hmode Hsim Hshell.
  destruct (dual_miss_run host request w network_down primary_miss secondary_miss)
    as (w1 & Hrun & _).
  by rewrite result_state, Hrun, Hsim, Hmode, Hshell.
Qed.

(** X7.  With Primary and Secondary empty and nothing for the request in
    the Data tier, the listener synthesizes its answer: for a navigation
    the offline page, with status 200 and [Cache-Control: no-cache], and
    for anything else the 404 response [Offline]. *)
Theorem empty_caches_give_the_offline_response :
  route request = DualCacheStrategy ->
  Store.tier CACHE_PRIMARY (storage w) = ∅ ->
  Store.tier CACHE_SECONDARY (storage w) = ∅ ->
  Store.tier CACHE_DATA (storage w) !! url request = None ->
  result (onFetch host request) w =
    Some (Resolved (if String.eqb (mode request) "navigate"
                    then offlinePage else offlineNotFound)) /\
  status offlinePage = 200 /\
  headers offlinePage = [("Content-Type", "text/html"); ("Cache-Control", "no-cache")] /\
  status offlineNotFound = 404.
Proof.
  intros Hroute HP HS HD.
  destruct (fetch_miss_run host request w Hroute network_down primary_miss secondary_miss)
    as (-> & _).
  split; [|done]. unfold lastResort, similarIn, shellIn, shellOf. cbv zeta. simpl.
  rewrite HP, HS, HD, !lookup_empty.
  by repeat match goal with |- context [if ?b then _ else _] => destruct b end.
Qed.

End Fallbacks.

(** ** Background re-validation and round trips *)

(** The handler on a hit in Primary. *)
Lemma primary_hit_run host request entry w :
  networkFails host request ->
  Store.tier CACHE_PRIMARY (storage w) !! url request = Some entry ->
  exists w1,
    readOnly w w1 /\
    handleDualCacheRequest host request (w, 0%nat) =
      (Resolved entry,
       (if isAudioUrl (url request) then w1 else enqueue (Timeout 1000 request) w1,
        0%nat)).
Proof.
  intros Hfail Hhit.
  set (w0 := match network host request with
             | Some _ => w
             | None => say (ConsoleLog "[Service Worker] Network unavailable, using cache:") w
             end).
  assert (readOnly w w0) as Hro0.
  { subst w0. destruct (network host request); [reflexivity|apply readOnly_say]. }
  exists (say (ConsoleLog ("[Service Worker] Served from primary cache: " +:+ url request))
            (opened CACHE_PRIMARY w0)).
  split.
  - etransitivity; [exact Hro0|].
    etransitivity; [apply readOnly_opened|apply readOnly_say].
  - destruct Hro0 as (Ht0 & _).
    unfold handleDualCacheRequest, refreshCacheInBackground, fetch, bind, ret.
    destruct (networkFails_cases host request Hfail) as [Hn | (r & Hn & Hst)];
      subst w0; rewrite Hn in *; rewrite ?Hst; simpl;
      rewrite !tier_open, ?Ht0, Hhit; simpl;
      by destruct (isAudioUrl (url request)).
Qed.

(** X8.  The timer callback of the background re-validation fails
    silently: when its fetch is rejected or answers with another status
    than 200, it leaves the world exactly as it was, console included. *)
Theorem refresh_failure_is_silent host request delay w :
  networkFails host request ->
  run (runTask host (Timeout delay request)) w = (tt, w).
Proof.
  intros Hfail. unfold run, runTask, refreshCallback, fetch, bind, ret.
  by destruct (networkFails_cases host request Hfail) as [-> | (r & -> & ->)].
Qed.

(** The callback when the fetch answers 200 and both writes go
    through. *)
Lemma refresh_success_run later request fresh w :
  network later request = Some fresh -> status fresh = 200 ->
  storageFault later 0 CACHE_PRIMARY (resolve later (url request)) = false ->
  storageFault later 1 CACHE_SECONDARY (resolve later (url request)) = false ->
  Store.tier CACHE_PRIMARY
    (storage (after (runTask later (Timeout 1000 request)) w))
    !! resolve later (url request) = Some fresh /\
  Store.tier CACHE_SECONDARY
    (storage (after (runTask later (Timeout 1000 request)) w))
    !! resolve later (url request) = Some fresh.
Proof.
  intros Hnet Hst HP HS.
  assert (after (runTask later (Timeout 1000 request)) w =
          say (ConsoleLog ("[Service Worker] Updated both caches for: " +:+ url request))
            (putAccepted CACHE_SECONDARY (resolve later (url request)) fresh
               (putAccepted CACHE_PRIMARY (resolve later (url request)) fresh w))) as ->.
  { rewrite after_state. unfold runTask, refreshCallback, fetch, bind, ret.
    rewrite Hnet, Hst. change (200 =? 200) with true. cbv beta iota.
    by rewrite updateBothCaches_accepted. }
  rewrite storage_say.
  destruct tier_names_distinct as (Hps & _ & _). split.
  - rewrite tier_putAccepted_other by done. apply lookup_putAccepted.
  - apply lookup_putAccepted.
Qed.

(** X9.  Stale-while-revalidate.  A request answered from Primary while
    the network was down (and that is not an audio file) leaves exactly
    one timer behind; when that timer fires with the network back and the
    writes accepted, the fresh response replaces the entry in Primary and
    in Secondary. *)
Theorem stale_entry_is_revalidated host later request entry fresh w :
  networkFails host request ->
  Store.tier CACHE_PRIMARY (storage w) !! url request = Some entry ->
  isAudioUrl (url request) = false ->
  network later request = Some fresh -> status fresh = 200 ->
  resolve later (url request) = url request ->
  storageFault later 0 CACHE_PRIMARY (url request) = false ->
  storageFault later 1 CACHE_SECONDARY (url request) = false ->
  result (handleDualCacheRequest host request) w = Resolved entry /\
  tasks (after (handleDualCacheRequest host request) w) =
    tasks w ++ [Timeout 1000 request] /\
  Store.tier CACHE_PRIMARY
    (storage (after (runTask later (Timeout 1000 request))
                    (after (handleDualCacheRequest host request) w)))
    !! url request = Some fresh /\
  Store.tier CACHE_SECONDARY
    (storage (after (runTask later (Timeout 1000 request))
                    (after (handleDualCacheRequest host request) w)))
    !! url request = Some fresh.
Proof.
  intros Hfail Hhit Haudio Hnet Hst Habs HP HS.
  destruct (primary_hit_run host request entry w Hfail Hhit) as (w1 & Hro & Hrun).
  rewrite Haudio in Hrun.
  rewrite result_state, (after_state (handleDualCacheRequest host request)), Hrun.
  cbn [fst snd]. split; [done|]. split.
  - destruct Hro as (_ & _ & Htasks & _). simpl. by rewrite Htasks.
  - pose proof (refresh_success_run later request fresh
                  (enqueue (Timeout 1000 request) w1) Hnet Hst) as Hfresh.
    rewrite Habs in Hfresh. by apply Hfresh.
Qed.

(** X10.  What the dual-cache strategy stores is what it serves: after a
    request answered from the network with status 200 and written without
    a fault, the same request with the network down is answered with that
    very response. *)
Theorem cached_response_is_served_offline online offline request r w :
  network online request = Some r -> status r = 200 ->
  resolve online (url request) = url request ->
  storageFault online 0 CACHE_PRIMARY (url request) = false ->
  storageFault online 1 CACHE_SECONDARY (url request) = false ->
  networkFails offline request ->
  result (handleDualCacheRequest offline request)
         (after (handleDualCacheRequest online request) w) = Resolved r.
Proof.
  intros Hnet Hst Habs HP HS Hfail.
  assert (Store.tier CACHE_PRIMARY
            (storage (after (handleDualCacheRequest online request) w))
            !! url request = Some r) as Hhit.
  { rewrite (dual_success_after online request r w) by done.
    rewrite after_state, updateBothCaches_accepted by (by rewrite Habs).
    cbn [fst snd]. rewrite storage_say, Habs.
    destruct tier_names_distinct as (Hps & _ & _).
    rewrite tier_putAccepted_other by done. apply lookup_putAccepted. }
  destruct (primary_hit_run offline request r _ Hfail Hhit) as (w1 & _ & Hrun).
  by rewrite result_state, Hrun.
Qed.

Lemma in_update_other name f (cs : CacheStorage) n c :
  In (n, c) (Store.update name f cs) -> n <> name -> In (n, c) cs.
Proof.
  induction cs as [|[n' c'] cs IH]; simpl; [done|].
  intros [Heq|Hin] Hne; [|right; by apply IH].
  left. inversion Heq; subst. apply String.eqb_neq in Hne. by rewrite Hne.
Qed.

Lemma in_open_other name (cs : CacheStorage) n c :
  In (n, c) (Store.open name cs) -> n <> name -> In (n, c) cs.
Proof.
  unfold Store.open. destruct (Store.find name cs); [done|].
  intros Hin Hne. apply in_app_or in Hin as [Hin|[Heq|[]]]; [done|].
  inversion Heq. congruence.
Qed.

(** X11.  What the API strategy stores is what it serves: once the
    detached write of a 200 answer has run without a fault, the same
    request with the network down is answered with that response,
    provided no other cache than the Data tier holds the URL (they are
    asked first when they were created first). *)
Theorem api_response_is_served_offline online later offline request r w :
  network online request = Some r -> status r = 200 ->
  storageFault later 0 CACHE_DATA (url request) = false ->
  network offline request = None ->
  (forall name cache,
     In (name, cache) (storage w) -> name <> CACHE_DATA -> cache !! url request = None) ->
  tasks (after (handleApiRequest online request) w) =
    tasks w ++ [DetachedPut CACHE_DATA request r] /\
  result (handleApiRequest offline request)
         (after (runTask later (DetachedPut CACHE_DATA request r))
                (after (handleApiRequest online request) w)) = Resolved r.
Proof.
  intros Hnet Hst Hok Hoff Hothers.
  assert (after (handleApiRequest online request) w =
          enqueue (DetachedPut CACHE_DATA request r) w) as ->.
  { unfold after. by rewrite api_run, Hnet, Hst. }
  split; [done|].
  unfold result. rewrite api_run, Hoff. cbn [fst].
  rewrite after_state. unfold runTask, bind, ret.
  rewrite cachePut_run, Hok. cbn [fst snd].
  rewrite (matchAny_only CACHE_DATA (url request) r); [done| |].
  - apply lookup_putAccepted.
  - intros n c Hin Hne. unfold putAccepted in Hin. simpl in Hin.
    apply in_update_other in Hin; [|done].
    apply in_open_other in Hin; [|done].
    by apply (Hothers n c).
Qed.

(** ** More on installation *)

Lemma tier_update_open_any name name' f (cs : CacheStorage) :
  Store.tier name' (Store.update name f (Store.open name cs)) =
  if String.eqb name' name then f (Store.tier name' cs) else Store.tier name' cs.
Proof.
  destruct (String.eqb_spec name' name) as [->|Hne].
  - apply tier_update_open.
  - rewrite tier_update_other by done. apply tier_open.
Qed.

Lemma fetchAll_keys host requests es :
  fetchAll host requests = Some es -> map fst es = map url requests.
Proof.
  revert es. induction requests as [|q qs IH]; intros es; simpl.
  - by intros [= <-].
  - destruct (network host q) as [r|]; [|done].
    destruct (addAllAccepts r); [|done].
    destruct (fetchAll host qs) as [es'|]; [|done].
    intros [= <-]. simpl. by rewrite (IH es').
Qed.

Lemma fetchAll_fails host requests q :
  In q requests ->
  match network host q with
  | Some r => addAllAccepts r = false
  | None => True
  end ->
  fetchAll host requests = None.
Proof.
  induction requests as [|q' qs IH]; [done|].
  intros [->|Hin] Hbad; simpl.
  - destruct (network host q) as [r|]; [|done]. by rewrite Hbad.
  - destruct (network host q') as [r|]; [|done].
    destruct (addAllAccepts r); [|done]. by rewrite IH.
Qed.

Lemma fetchAll_succeeds host (served : string -> Response) assets mode :
  (forall asset, In asset assets ->
     network host (newRequest host asset mode) = Some (served asset) /\
     addAllAccepts (served asset) = true) ->
  fetchAll host (map (fun u => newRequest host u mode) assets) =
  Some (map (fun asset => (resolve host asset, served asset)) assets).
Proof.
  induction assets as [|a assets IH]; intros Hok; [done|].
  simpl. destruct (Hok a (or_introl eq_refl)) as [-> ->].
  rewrite IH; [done|]. intros asset Hin. apply Hok. by right.
Qed.

Lemma hasDuplicate_NoDup ks : List.NoDup ks -> hasDuplicate ks = false.
Proof.
  induction 1 as [|k ks Hk _ IH]; [done|]. simpl. rewrite IH, orb_false_r.
  apply not_true_is_false. intros Hex. apply existsb_exists in Hex as (k' & Hin & Heq).
  apply String.eqb_eq in Heq. by subst.
Qed.

Lemma putEntries_in es c k v :
  List.NoDup (map fst es) -> In (k, v) es -> putEntries es c !! k = Some v.
Proof.
  revert c. induction es as [|[k' v'] es IH]; intros c Hnd Hin; [done|].
  rewrite putEntries_cons. simpl in *. inversion Hnd as [|? ? Hk' Hnd']; subst.
  destruct Hin as [[= -> ->]|Hin].
  - rewrite putEntries_outside by done. apply lookup_insert_eq.
  - by apply IH.
Qed.

Lemma putEntries_nil c : putEntries [] c = c.
Proof. reflexivity. Qed.

Section InstallMore.

Variable host : Host.
Variable manifest : list string.

(** The contents of one tier after an installation. *)
Lemma tier_installed name cs :
  Store.tier name (installedStorage host manifest cs) =
  let critical := map (fun u => newRequest host u "reload") manifest in
  let optional := map (fun u => newRequest host u "default") OPTIONAL_ASSETS in
  let eP := installEffect host CACHE_PRIMARY critical 0 in
  let eS := installEffect host CACHE_SECONDARY critical (snd eP) in
  let eD := installEffect host CACHE_DATA optional (snd eS) in
  if String.eqb name CACHE_PRIMARY then fst eP (Store.tier name cs)
  else if String.eqb name CACHE_SECONDARY then fst eS (Store.tier name cs)
  else if String.eqb name CACHE_DATA then fst eD (Store.tier name cs)
  else Store.tier name cs.
Proof.
  unfold installedStorage. cbv zeta. rewrite !tier_update_open_any.
  destruct (String.eqb_spec name CACHE_PRIMARY) as [->|HP]; [done|].
  destruct (String.eqb_spec name CACHE_SECONDARY) as [->|HS]; [done|].
  by destruct (String.eqb_spec name CACHE_DATA) as [->|HD].
Qed.

Lemma installEffect_frame name requests n c key :
  ~ In key (map url requests) ->
  fst (installEffect host name requests n) c !! key = c !! key.
Proof.
  intros Hkey. unfold installEffect.
  destruct (fetchAll host requests) as [es|] eqn:E; [|done].
  destruct (hasDuplicate (map fst es)); [done|].
  destruct (existsb _ es); [done|]. simpl.
  apply putEntries_outside. by rewrite (fetchAll_keys host requests es).
Qed.

Lemma map_url_newRequest mode assets :
  map url (map (fun u => newRequest host u mode) assets) = map (resolve host) assets.
Proof. by rewrite map_map. Qed.

(** X12.  Installation only adds or overwrites the entries of the
    manifest: an entry under any other key, in any cache, is after the
    installation what it was before, whatever the network and the storage
    layer do. *)
Theorem install_keeps_other_entries w name key :
  ~ In key (map (resolve host) manifest) ->
  Store.tier name (storage (after (install host manifest) w)) !! key =
  Store.tier name (storage w) !! key.
Proof.
  intros Hkey. rewrite install_storage, tier_installed. cbv zeta.
  destruct (String.eqb name CACHE_PRIMARY);
    [apply installEffect_frame; by rewrite map_url_newRequest|].
  destruct (String.eqb name CACHE_SECONDARY);
    [apply installEffect_frame; by rewrite map_url_newRequest|].
  destruct (String.eqb name CACHE_DATA); [|done].
  apply installEffect_frame. simpl. tauto.
Qed.

Lemma install_skips_waiting w :
  skipWaitingCalled (after (install host manifest) w) = true.
Proof.
  rewrite after_state. unfold install.
  repeat (unfold bind at 1;
          match goal with
          | |- context [let '(_, s') := ?m ?s in _] => destruct (m s) as [? ?]
          end).
  by match goal with |- context [skipWaiting ?p] => destruct p end.
Qed.

(** X13.  A failed installation is complete all the same.  When one
    asset of the manifest cannot be fetched (the fetch is rejected, or
    its status is not an ok status, or is 206), no cache is written at
    all, the failure is swallowed, and the worker still calls
    [skipWaiting]. *)
Theorem failed_install_writes_nothing asset w :
  In asset manifest ->
  match network host (newRequest host asset "reload") with
  | Some r => addAllAccepts r = false
  | None => True
  end ->
  (forall name,
     Store.tier name (storage (after (install host manifest) w)) =
     Store.tier name (storage w)) /\
  skipWaitingCalled (after (install host manifest) w) = true.
Proof.
  intros Hin Hbad. split; [|apply install_skips_waiting].
  intros name. rewrite install_storage, tier_installed. cbv zeta.
  assert (fetchAll host (map (fun u => newRequest host u "reload") manifest) = None) as Hnone.
  { apply (fetchAll_fails host _ (newRequest host asset "reload")); [|done].
    by apply (in_map (fun u => newRequest host u "reload")). }
  unfold installEffect. rewrite Hnone. simpl.
  by repeat match goal with |- context [if ?b then _ else _] => destruct b end.
Qed.

End InstallMore.

Lemma existsb_map {A B} (f : A -> B) (p : B -> bool) l :
  existsb p (map f l) = existsb (fun x => p (f x)) l.
Proof. induction l as [|x l IH]; [done|]. simpl. by rewrite IH. Qed.

Lemma countCritical_all host c assets :
  (forall asset, In asset assets ->
     exists r, c !! resolve host asset = Some r /\ status r = 200) ->
  countCritical host c assets = Z.of_nat (List.length assets).
Proof.
  induction assets as [|a assets IH]; intros Hall; [done|].
  cbn [countCritical List.length]. rewrite IH by (intros; apply Hall; by right).
  destruct (Hall a (or_introl eq_refl)) as (r & -> & ->). simpl. lia.
Qed.

(** The health check when both verdicts are good: nothing but the
    console changes. *)
Lemma healthy_check_run host manifest w n :
  verdict host manifest CACHE_PRIMARY w = true ->
  verdict host manifest CACHE_SECONDARY w = true ->
  exists w2,
    checkCacheHealth host manifest (w, n) =
      ([(CACHE_PRIMARY, true); (CACHE_SECONDARY, true)], (w2, n)) /\
    readOnly w w2.
Proof.
  intros HvP HvS.
  set (w0 := say (ConsoleLog "[Service Worker] Running cache health check...") w).
  assert (readOnly w w0) as Hro0 by apply readOnly_say.
  assert (verdict host manifest CACHE_PRIMARY w0 = true) as HvP0 by exact HvP.
  set (w1 := say (healthLog host manifest CACHE_PRIMARY w0)
                 (opened CACHE_PRIMARY w0)).
  assert (readOnly w w1) as Hro1.
  { etransitivity; [exact Hro0|].
    etransitivity; [apply readOnly_opened|apply readOnly_say]. }
  assert (verdict host manifest CACHE_SECONDARY w1 = true) as HvS1.
  { unfold verdict. destruct Hro1 as (Ht & _). by rewrite Ht. }
  set (w2 := say (healthLog host manifest CACHE_SECONDARY w1)
                 (opened CACHE_SECONDARY w1)).
  exists w2. split.
  - unfold checkCacheHealth. cbn [mapM]. unfold bind, ret.
    unfold consoleLog at 1. cbv beta iota. fold w0.
    rewrite checkOne_run. fold w1. rewrite checkOne_run. fold w2.
    by rewrite HvP0, HvS1.
  - etransitivity; [exact Hro1|].
    etransitivity; [apply readOnly_opened|apply readOnly_say].
Qed.

Section InstallSuccess.

Variable host : Host.
Variable manifest : list string.

(** What the network serves for each asset of the manifest. *)
Variable served : string -> Response.

Hypothesis all_served :
  forall asset, In asset manifest ->
    network host (newRequest host asset "reload") = Some (served asset) /\
    addAllAccepts (served asset) = true.

Hypothesis distinct_urls : List.NoDup (map (resolve host) manifest).

Lemma critical_effect name n :
  installEffect host name (map (fun u => newRequest host u "reload") manifest) n =
  (if existsb (fun asset => storageFault host n name (resolve host asset)) manifest
   then id
   else putEntries (map (fun asset => (resolve host asset, served asset)) manifest),
   S n).
Proof.
  unfold installEffect. rewrite (fetchAll_succeeds host served) by done.
  rewrite map_map. simpl. rewrite hasDuplicate_NoDup by done.
  rewrite existsb_map. simpl.
  by destruct (existsb _ manifest).
Qed.

Lemma batch_lookup c asset :
  In asset manifest ->
  putEntries (map (fun asset => (resolve host asset, served asset)) manifest) c
    !! resolve host asset = Some (served asset).
Proof.
  intros Hin. apply putEntries_in.
  - by rewrite map_map.
  - by apply (in_map (fun asset => (resolve host asset, served asset))).
Qed.

Lemma installed_tiers w :
  Store.tier CACHE_PRIMARY (storage (after (install host manifest) w)) =
    (if existsb (fun asset => storageFault host 0 CACHE_PRIMARY (resolve host asset))
                manifest
     then id
     else putEntries (map (fun asset => (resolve host asset, served asset)) manifest))
      (Store.tier CACHE_PRIMARY (storage w)) /\
  Store.tier CACHE_SECONDARY (storage (after (install host manifest) w)) =
    (if existsb (fun asset => storageFault host 1 CACHE_SECONDARY (resolve host asset))
                manifest
     then id
     else putEntries (map (fun asset => (resolve host asset, served asset)) manifest))
      (Store.tier CACHE_SECONDARY (storage w)).
Proof.
  rewrite install_storage, !tier_installed. cbv zeta.
  rewrite !critical_effect. cbn [fst snd].
  change (String.eqb CACHE_PRIMARY CACHE_PRIMARY) with true.
  change (String.eqb CACHE_SECONDARY CACHE_PRIMARY) with false.
  change (String.eqb CACHE_SECONDARY CACHE_SECONDARY) with true.
  by cbv beta iota.
Qed.

(** X14.  The tiers are installed independently of one another.  With
    every asset of the manifest served by the network, each of Primary
    and Secondary either takes the whole manifest or, when the storage
    layer refuses its batch, stays as it was, and what happens to one
    does not depend on what happened to the other. *)
Theorem install_writes_each_tier_on_its_own w :
  (if existsb (fun asset => storageFault host 0 CACHE_PRIMARY (resolve host asset)) manifest
   then Store.tier CACHE_PRIMARY (storage (after (install host manifest) w)) =
        Store.tier CACHE_PRIMARY (storage w)
   else forall asset, In asset manifest ->
        Store.tier CACHE_PRIMARY (storage (after (install host manifest) w))
          !! resolve host asset = Some (served asset)) /\
  (if existsb (fun asset => storageFault host 1 CACHE_SECONDARY (resolve host asset)) manifest
   then Store.tier CACHE_SECONDARY (storage (after (install host manifest) w)) =
        Store.tier CACHE_SECONDARY (storage w)
   else forall asset, In asset manifest ->
        Store.tier CACHE_SECONDARY (storage (after (install host manifest) w))
          !! resolve host asset = Some (served asset)).
Proof.
  destruct (installed_tiers w) as [HP HS]. rewrite HP, HS. split.
  - destruct (existsb _ manifest); [done|]. intros asset Hin. by apply batch_lookup.
  - destruct (existsb (fun asset => storageFault host 1 CACHE_SECONDARY (resolve host asset))
                      manifest); [done|].
    intros asset Hin. by apply batch_lookup.
Qed.

(** X15.  A worker installed from a network that serves every asset of
    the manifest with status 200, without a storage fault, passes its
    own health check: both verdicts are good and the check repairs
    nothing. *)
Theorem installed_worker_is_healthy w :
  (forall asset, In asset manifest -> status (served asset) = 200) ->
  (forall asset, In asset manifest ->
     storageFault host 0 CACHE_PRIMARY (resolve host asset) = false /\
     storageFault host 1 CACHE_SECONDARY (resolve host asset) = false) ->
  result (checkCacheHealth host manifest) (after (install host manifest) w) =
    [(CACHE_PRIMARY, true); (CACHE_SECONDARY, true)] /\
  journal (after (checkCacheHealth host manifest) (after (install host manifest) w)) =
    journal (after (install host manifest) w).
Proof.
  intros Hstatus Hok.
  assert (existsb (fun asset => storageFault host 0 CACHE_PRIMARY (resolve host asset))
                  manifest = false) as HfP.
  { apply not_true_is_false. intros Hex.
    apply existsb_exists in Hex as (a & Hin & Hf).
    destruct (Hok a Hin) as [H0 _]. congruence. }
  assert (existsb (fun asset => storageFault host 1 CACHE_SECONDARY (resolve host asset))
                  manifest = false) as HfS.
  { apply not_true_is_false. intros Hex.
    apply existsb_exists in Hex as (a & Hin & Hf).
    destruct (Hok a Hin) as [_ H1]. congruence. }
  pose proof (installed_tiers w) as Haux.
  set (w1 := after (install host manifest) w) in *.
  assert (verdict host manifest CACHE_PRIMARY w1 = true) as HvP.
  { unfold verdict. rewrite countCritical_all.
    - unfold meetsThreshold. apply Z.leb_le. lia.
    - intros asset Hin. exists (served asset). split; [|by apply Hstatus].
      destruct Haux as [HP _]. rewrite HfP in HP. rewrite HP. by apply batch_lookup. }
  assert (verdict host manifest CACHE_SECONDARY w1 = true) as HvS.
  { unfold verdict. rewrite countCritical_all.
    - unfold meetsThreshold. apply Z.leb_le. lia.
    - intros asset Hin. exists (served asset). split; [|by apply Hstatus].
      destruct Haux as [_ HS]. rewrite HfS in HS. rewrite HS. by apply batch_lookup. }
  destruct (healthy_check_run host manifest w1 0 HvP HvS) as (w2 & Hrun & Hro).
  rewrite result_state, after_state, Hrun. cbn [fst snd]. split; [done|].
  by destruct Hro as (_ & -> & _).
Qed.

End InstallSuccess.

(** ** More on the health check *)

Lemma countCritical_mono host c c' assets :
  (forall asset, In asset assets ->
     heldWithSuccess host c asset = true -> heldWithSuccess host c' asset = true) ->
  countCritical host c assets <= countCritical host c' assets.
Proof.
  induction assets as [|a assets IH]; intros Hmono; [done|].
  cbn [countCritical].
  specialize (IH (fun asset Hin => Hmono asset (or_intror Hin))).
  specialize (Hmono a (or_introl eq_refl)). unfold heldWithSuccess in Hmono.
  destruct (c !! resolve host a) as [r|]; destruct (c' !! resolve host a) as [r'|];
    try destruct (status r =? 200); try destruct (status r' =? 200);
    try lia; specialize (Hmono eq_refl); discriminate.
Qed.

Lemma countCritical_bounds host c assets :
  0 <= countCritical host c assets <= Z.of_nat (List.length assets).
Proof.
  rewrite countCritical_healthyEntries. unfold healthyEntries.
  pose proof (List.filter_length_le (heldWithSuccess host c) assets). lia.
Qed.

Section HealthMore.

Variable host : Host.
Variable manifest : list string.

Lemma ensures_repairCache R `{!PreOrder R} name :
  (forall e w, R w (say e w)) ->
  (forall name w, R w (opened name w)) ->
  (forall asset, In asset manifest -> allowsWrite R name (resolve host asset)) ->
  ensures R (fun _ => True) (repairCache host manifest name).
Proof.
  intros Hsay Hopened Hwrite. unfold repairCache. cbv zeta.
  walk. unfold repairAsset. walk; by apply Hwrite.
Qed.

Lemma repairIfUnhealthy_within R `{!PreOrder R} name v s :
  (forall e w, R w (say e w)) ->
  (forall name w, R w (opened name w)) ->
  (forall asset, In asset manifest -> allowsWrite R name (resolve host asset)) ->
  R (fst s) (fst (repairIfUnhealthy host manifest name v s)).
Proof.
  intros Hsay Hopened Hwrite. unfold repairIfUnhealthy. destruct v; [reflexivity|].
  etransitivity;
    [apply (Hsay (ConsoleLog ("[Service Worker] Repairing " +:+ name +:+ "...")) (fst s))|].
  apply (ensures_repairCache R name Hsay Hopened Hwrite
           (say (ConsoleLog ("[Service Worker] Repairing " +:+ name +:+ "...")) (fst s),
            snd s)).
Qed.

(** X16.  The health check writes only entries of the manifest, and
    only into Primary and Secondary: every other entry of every cache is
    after the check what it was before. *)
Theorem health_check_touches_only_the_manifest w name key :
  ~ In name [CACHE_PRIMARY; CACHE_SECONDARY] \/
  ~ In key (map (resolve host) manifest) ->
  Store.tier name (storage (after (checkCacheHealth host manifest) w)) !! key =
  Store.tier name (storage w) !! key.
Proof.
  intros Hout.
  destruct (checkCacheHealth_run host manifest w 0) as (w2 & Htier & _ & Hrun).
  rewrite after_state, Hrun. cbn [fst snd].
  set (R := onlyTouches [CACHE_PRIMARY; CACHE_SECONDARY] (map (resolve host) manifest)).
  assert (forall name, In name [CACHE_PRIMARY; CACHE_SECONDARY] ->
            forall asset, In asset manifest -> allowsWrite R name (resolve host asset))
    as Hwrite.
  { intros name' Hname asset Hin. apply onlyTouches_write; [done|by apply in_map]. }
  assert (R w2 (fst (repairIfUnhealthy host manifest CACHE_SECONDARY
                       (verdict host manifest CACHE_SECONDARY w)
                       (repairIfUnhealthy host manifest CACHE_PRIMARY
                          (verdict host manifest CACHE_PRIMARY w) (w2, 0%nat))))) as HR.
  { etransitivity.
    - apply (repairIfUnhealthy_within R CACHE_PRIMARY
               (verdict host manifest CACHE_PRIMARY w) (w2, 0%nat));
        [apply onlyTouches_say|apply onlyTouches_opened|apply Hwrite; simpl; auto].
    - apply (repairIfUnhealthy_within R CACHE_SECONDARY
               (verdict host manifest CACHE_SECONDARY w)
               (repairIfUnhealthy host manifest CACHE_PRIMARY
                  (verdict host manifest CACHE_PRIMARY w) (w2, 0%nat)));
        [apply onlyTouches_say|apply onlyTouches_opened|apply Hwrite; simpl; auto]. }
  etransitivity; [apply (HR name key Hout)|]. by rewrite Htier.
Qed.

(** X17.  A tier the health check finds healthy is left exactly as it
    was, whatever happens to the other tier. *)
Theorem healthy_tier_is_left_alone w name :
  In (name, true) (result (checkCacheHealth host manifest) w) ->
  Store.tier name (storage (after (checkCacheHealth host manifest) w)) =
  Store.tier name (storage w).
Proof.
  destruct (checkCacheHealth_run host manifest w 0) as (w2 & Htier & _ & Hrun).
  destruct tier_names_distinct as (Hps & _ & _).
  rewrite result_state, after_state, Hrun. cbn [fst snd].
  intros [[= <- HvP]|[[= <- HvS]|[]]].
  - rewrite repairIfUnhealthy_others by done.
    rewrite HvP. unfold repairIfUnhealthy. cbn [fst]. apply Htier.
  - rewrite HvS. unfold repairIfUnhealthy at 1.
    rewrite repairIfUnhealthy_others by done. apply Htier.
Qed.

Lemma check_result w :
  result (checkCacheHealth host manifest) w =
    [(CACHE_PRIMARY, verdict host manifest CACHE_PRIMARY w);
     (CACHE_SECONDARY, verdict host manifest CACHE_SECONDARY w)].
Proof.
  destruct (checkCacheHealth_run host manifest w 0) as (w2 & _ & _ & Hrun).
  by rewrite result_state, Hrun.
Qed.

Lemma repair_restores_verdict w name :
  In name [CACHE_PRIMARY; CACHE_SECONDARY] ->
  verdict host manifest (donorOf name) w = true ->
  (forall asset m, In asset manifest ->
     storageFault host m name (resolve host asset) = false) ->
  verdict host manifest name (after (checkCacheHealth host manifest) w) = true.
Proof.
  intros Hname Hdonor Hok.
  destruct (checkCacheHealth_run host manifest w 0) as (w2 & Htier & _ & Hrun).
  destruct tier_names_distinct as (Hps & _ & _).
  rewrite after_state, Hrun. cbn [fst snd].
  assert (forall c,
            (forall asset r, In asset manifest ->
               Store.tier (donorOf name) (storage w) !! resolve host asset = Some r ->
               c !! resolve host asset = Some r) ->
            meetsThreshold (countCritical host c manifest)
                           (Z.of_nat (List.length manifest)) = true) as Hgood.
  { intros c Hcopy. unfold verdict, meetsThreshold in *.
    apply Z.leb_le. apply Z.leb_le in Hdonor.
    pose proof (countCritical_mono host (Store.tier (donorOf name) (storage w)) c manifest)
      as Hmono.
    assert (countCritical host (Store.tier (donorOf name) (storage w)) manifest
            <= countCritical host c manifest); [|lia].
    apply Hmono. intros asset Hin. unfold heldWithSuccess.
    destruct (Store.tier (donorOf name) (storage w) !! resolve host asset) as [r|] eqn:E;
      [|done].
    by rewrite (Hcopy asset r Hin E). }
  destruct Hname as [<-|[<-|[]]].
  - (* Primary, with Secondary healthy: Secondary is not repaired *)
    change (donorOf CACHE_PRIMARY) with CACHE_SECONDARY in *.
    rewrite Hdonor. unfold repairIfUnhealthy at 1.
    destruct (verdict host manifest CACHE_PRIMARY w) eqn:HvP.
    + unfold repairIfUnhealthy, verdict in *. cbn [fst]. by rewrite Htier.
    + unfold verdict at 1. apply Hgood. intros asset r Hin Hr.
      apply repairIfUnhealthy_copies; [done| |by intros; apply Hok].
      cbn [fst]. change (donorOf CACHE_PRIMARY) with CACHE_SECONDARY.
      by rewrite Htier.
  - (* Secondary, with Primary healthy: Primary is not repaired *)
    change (donorOf CACHE_SECONDARY) with CACHE_PRIMARY in *.
    rewrite Hdonor. unfold repairIfUnhealthy at 2.
    destruct (verdict host manifest CACHE_SECONDARY w) eqn:HvS.
    + unfold repairIfUnhealthy, verdict in *. cbn [fst]. by rewrite Htier.
    + unfold verdict at 1. apply Hgood. intros asset r Hin Hr.
      apply repairIfUnhealthy_copies; [done| |by intros; apply Hok].
      cbn [fst]. change (donorOf CACHE_SECONDARY) with CACHE_PRIMARY.
      by rewrite Htier.
Qed.

(** X18.  Repair restores health.  When the check finds the other tier
    healthy and the storage layer refuses no write into this one, a
    second check finds this tier healthy. *)
Theorem repair_restores_health w name :
  In name [CACHE_PRIMARY; CACHE_SECONDARY] ->
  In (donorOf name, true) (result (checkCacheHealth host manifest) w) ->
  (forall asset m, In asset manifest ->
     storageFault host m name (resolve host asset) = false) ->
  In (name, true)
     (result (checkCacheHealth host manifest)
             (after (checkCacheHealth host manifest) w)).
Proof.
  intros Hname Hdonor Hok.
  destruct tier_names_distinct as (Hps & _ & _).
  rewrite check_result in Hdonor. rewrite check_result.
  assert (verdict host manifest (donorOf name) w = true) as Hv.
  { destruct Hname as [<-|[<-|[]]].
    - change (donorOf CACHE_PRIMARY) with CACHE_SECONDARY in *.
      destruct Hdonor as [Heq|[Heq|[]]]; apply pair_equal_spec in Heq as [Hn Hv];
        [by destruct Hps|exact Hv].
    - change (donorOf CACHE_SECONDARY) with CACHE_PRIMARY in *.
      destruct Hdonor as [Heq|[Heq|[]]]; apply pair_equal_spec in Heq as [Hn Hv];
        [exact Hv|by destruct Hps]. }
  pose proof (repair_restores_verdict w name Hname Hv Hok) as Hgood.
  destruct Hname as [<-|[<-|[]]]; rewrite Hgood; simpl; auto.
Qed.

#[global] Instance copiesOnly_preorder : PreOrder copiesOnly.
Proof.
  split.
  - intros w name key r [<-|[<-|[]]] Hr; auto.
  - intros w1 w2 w3 H12 H23 name key r Hname Hr.
    destruct (H23 name key r Hname Hr) as [H|H];
      [apply (H12 CACHE_PRIMARY key r)|apply (H12 CACHE_SECONDARY key r)];
      simpl; auto.
Qed.

Lemma copiesOnly_same_tiers w w' :
  (forall name, Store.tier name (storage w') = Store.tier name (storage w)) ->
  copiesOnly w w'.
Proof.
  intros Htier name key r Hname Hr. rewrite Htier in Hr.
  by destruct Hname as [<-|[<-|[]]]; auto.
Qed.

Lemma copiesOnly_repairAsset name asset s :
  In name [CACHE_PRIMARY; CACHE_SECONDARY] ->
  copiesOnly (fst s) (fst (snd (repairAsset host name (donorOf name) asset s))).
Proof.
  intros Hname. destruct s as [w n]. rewrite repairAsset_run. cbn [fst].
  assert (In (donorOf name) [CACHE_PRIMARY; CACHE_SECONDARY]) as Hdonor.
  { unfold donorOf. destruct (String.eqb name CACHE_PRIMARY); simpl; auto. }
  destruct (Store.tier (donorOf name) (storage w) !! resolve host asset) as [r|] eqn:Hr.
  - destruct (storageFault host n name (resolve host asset)); cbn [fst snd].
    + apply copiesOnly_same_tiers. intros name'.
      by rewrite storage_say, tier_putRefused, tier_opened.
    + intros name' key r' Hname' Hr'. rewrite storage_say in Hr'.
      destruct (decide (name = name')) as [<-|Hne].
      * rewrite tier_putAccepted_same in Hr'.
        destruct (decide (resolve host asset = key)) as [<-|Hkey].
        -- rewrite lookup_insert_eq in Hr'. injection Hr' as <-.
           destruct Hdonor as [Heq|[Heq|[]]]; rewrite <- Heq in Hr; auto.
        -- rewrite lookup_insert_ne, tier_opened in Hr' by done.
           by destruct Hname as [<-|[<-|[]]]; auto.
      * rewrite tier_putAccepted_other, tier_opened in Hr' by done.
        by destruct Hname' as [<-|[<-|[]]]; auto.
  - cbn [fst snd]. apply copiesOnly_same_tiers. intros name'. apply tier_opened.
Qed.

Lemma copiesOnly_repairIfUnhealthy name v s :
  In name [CACHE_PRIMARY; CACHE_SECONDARY] ->
  copiesOnly (fst s) (fst (repairIfUnhealthy host manifest name v s)).
Proof.
  intros Hname. unfold repairIfUnhealthy. destruct v; [reflexivity|].
  assert (ensures copiesOnly (fun _ => True) (repairCache host manifest name)) as Hrepair.
  { unfold repairCache. cbv zeta. fold (donorOf name).
    apply ensures_then; [typeclasses eauto| |intros _].
    { intros [w0 n0]. split; [|done]. apply copiesOnly_same_tiers.
      intros name'. apply tier_opened. }
    apply ensures_then; [typeclasses eauto| |intros _].
    { intros [w0 n0]. split; [|done]. apply copiesOnly_same_tiers.
      intros name'. apply tier_opened. }
    apply ensures_then; [typeclasses eauto| |intros _].
    { apply ensures_forEach; [typeclasses eauto|]. intros asset _ s0.
      split; [|done]. by apply copiesOnly_repairAsset. }
    intros [w0 n0]. split; [|done]. by apply copiesOnly_same_tiers. }
  etransitivity; [|apply Hrepair].
  by apply copiesOnly_same_tiers.
Qed.

(** X19.  The health check invents nothing.  It never goes to the
    network: it runs the same against any host that resolves URLs and
    refuses writes alike, whatever that host's network answers.  And
    whatever Primary or Secondary holds after the check, one of the two
    held under the same key before it; in particular two empty tiers stay
    empty. *)
Theorem health_check_only_copies w :
  (forall other,
     resolve other = resolve host -> storageFault other = storageFault host ->
     run (checkCacheHealth other manifest) w = run (checkCacheHealth host manifest) w) /\
  (forall name key r,
     In name [CACHE_PRIMARY; CACHE_SECONDARY] ->
     Store.tier name (storage (after (checkCacheHealth host manifest) w)) !! key = Some r ->
     Store.tier CACHE_PRIMARY (storage w) !! key = Some r \/
     Store.tier CACHE_SECONDARY (storage w) !! key = Some r).
Proof.
  split.
  { intros other Hresolve Hfault. clear -Hresolve Hfault.
    destruct host as [res net fault late], other as [res' net' fault' late'].
    simpl in Hresolve, Hfault. subst res' fault'. reflexivity. }
  intros name key r Hname.
  destruct (checkCacheHealth_run host manifest w 0) as (w2 & Htier & _ & Hrun).
  rewrite after_state, Hrun. cbn [fst snd].
  assert (copiesOnly w
            (fst (repairIfUnhealthy host manifest CACHE_SECONDARY
                    (verdict host manifest CACHE_SECONDARY w)
                    (repairIfUnhealthy host manifest CACHE_PRIMARY
                       (verdict host manifest CACHE_PRIMARY w) (w2, 0%nat))))) as HR.
  { etransitivity; [apply (copiesOnly_same_tiers w w2 Htier)|].
    etransitivity.
    - apply (copiesOnly_repairIfUnhealthy CACHE_PRIMARY
               (verdict host manifest CACHE_PRIMARY w) (w2, 0%nat)). simpl; auto.
    - apply (copiesOnly_repairIfUnhealthy CACHE_SECONDARY
               (verdict host manifest CACHE_SECONDARY w)
               (repairIfUnhealthy host manifest CACHE_PRIMARY
                  (verdict host manifest CACHE_PRIMARY w) (w2, 0%nat))). simpl; auto. }
  apply (HR name key r Hname).
Qed.

End HealthMore.

(** ** Activation and the control channel *)

Lemma filter_filter_and {A} (f g : A -> bool) l :
  List.filter f (List.filter g l) = List.filter (fun x => g x && f x) l.
Proof.
  induction l as [|x l IH]; [done|]. simpl.
  destruct (g x); simpl; [destruct (f x)|]; by rewrite IH.
Qed.

(** Deleting the caches of a list of names, one after the other, leaves
    the caches whose name is not in the list. *)
Lemma delete_each names (cs : CacheStorage) :
  fold_left (fun cs' name => storeDelete name cs') names cs =
  List.filter (fun nc => negb (existsb (String.eqb (fst nc)) names)) cs.
Proof.
  revert cs. induction names as [|name names IH]; intros cs; simpl.
  - induction cs as [|nc cs IHcs]; [done|]. simpl. by rewrite <- IHcs.
  - rewrite IH. unfold storeDelete. rewrite filter_filter_and.
    apply List.filter_ext. intros [n c]. simpl.
    by destruct (String.eqb n name).
Qed.

Lemma activate_loop names w n :
  exists w',
    forEach
      (fun cacheName =>
         if negb (isCurrent cacheName)
         then consoleLog ("[Service Worker] Deleting old cache: " +:+ cacheName) ;;;
              _ <- cachesDelete cacheName ;; ret tt
         else ret tt)
      names (w, n) = (tt, (w', n)) /\
    storage w' =
      fold_left (fun cs' name => storeDelete name cs')
                (List.filter (fun name => negb (isCurrent name)) names) (storage w) /\
    journal w' = journal w /\ tasks w' = tasks w.
Proof.
  revert w. induction names as [|name names IH]; intros w.
  - by exists w.
  - cbn [forEach List.filter]. unfold bind at 1.
    destruct (negb (isCurrent name)).
    + unfold bind, consoleLog, cachesDelete, ret. cbv beta iota. cbn [fst snd].
      match goal with
      | |- context [forEach _ names (?w1, n)] =>
          destruct (IH w1) as (w' & Hrun & Hst & Hj & Ht)
      end.
      exists w'. split; [exact Hrun|]. by rewrite Hst, Hj, Ht.
    + unfold ret at 1. apply IH.
Qed.

Lemma activate_run w :
  exists w',
    activate (w, 0%nat) = (tt, (w', 0%nat)) /\
    storage w' =
      fold_left (fun cs' name => storeDelete name cs')
                (List.filter (fun name => negb (isCurrent name)) (map fst (storage w)))
                (storage w) /\
    journal w' = journal w /\ tasks w' = tasks w.
Proof.
  unfold activate.
  unfold bind at 1. unfold consoleLog at 1. cbv beta iota.
  unfold bind at 1. unfold cachesKeys. cbv beta iota.
  unfold bind at 1.
  destruct (activate_loop
              (map fst (storage (say (ConsoleLog "[Service Worker] Activating...") w)))
              (say (ConsoleLog "[Service Worker] Activating...") w) 0)
    as (w' & -> & Hst & Hj & Ht).
  unfold consoleLog. cbn [fst snd].
  eexists. split; [reflexivity|]. by rewrite storage_say.
Qed.

(** X20.  With [caches.keys()] and the deletions resolving, activation
    keeps the caches named Primary, Secondary and Data, in their order
    and with all their contents, deletes every other cache, and creates
    none; it attempts no cache write and leaves no work behind. *)
Theorem activate_keeps_the_current_tiers w :
  storage (after activate w) =
    List.filter (fun nc => isCurrent (fst nc)) (storage w) /\
  journal (after activate w) = journal w /\
  tasks (after activate w) = tasks w.
Proof.
  destruct (activate_run w) as (w' & Hrun & Hst & Hj & Ht).
  rewrite after_state, Hrun. cbn [fst snd].
  split; [|by split].
  rewrite Hst, delete_each.
  apply List.filter_ext_in. intros [n c] Hin. cbn [fst].
  destruct (isCurrent n) eqn:Hcur.
  - apply negb_true_iff, not_true_is_false. intros Hex.
    apply existsb_exists in Hex as (n' & Hin' & Heq).
    apply String.eqb_eq in Heq. subst n'.
    apply filter_In in Hin' as [_ Hnot]. by rewrite Hcur in Hnot.
  - apply negb_false_iff, existsb_exists. exists n. split; [|apply String.eqb_refl].
    apply filter_In. split; [|by rewrite Hcur].
    by apply (in_map fst) in Hin.
Qed.

Lemma clear_loop names w n :
  exists w',
    forEach (fun cacheName => _ <- cachesDelete cacheName ;; ret tt) names (w, n)
      = (tt, (w', n)) /\
    storage w' = fold_left (fun cs' name => storeDelete name cs') names (storage w) /\
    journal w' = journal w /\ tasks w' = tasks w /\ console w' = console w.
Proof.
  revert w. induction names as [|name names IH]; intros w.
  - by exists w.
  - cbn [forEach]. unfold bind at 1. unfold bind at 1, cachesDelete, ret at 1.
    cbv beta iota. cbn [fst snd].
    match goal with
    | |- context [forEach _ names (?w1, n)] =>
        destruct (IH w1) as (w' & Hrun & Hst & Hj & Ht & Hc)
    end.
    exists w'. split; [exact Hrun|]. by rewrite Hst, Hj, Ht, Hc.
Qed.

Lemma clear_cache_run host manifest hasPort w :
  exists w',
    onMessage host manifest (Some "CLEAR_CACHE") hasPort (w, 0%nat) =
      (if hasPort then [Success] else [], (w', 0%nat)) /\
    storage w' = [] /\ journal w' = journal w /\ tasks w' = tasks w.
Proof.
  unfold onMessage. change (String.eqb "CLEAR_CACHE" "CLEAR_CACHE") with true.
  change (String.eqb "CLEAR_CACHE" "CHECK_CACHE") with false. cbv beta iota.
  unfold bind at 1. unfold bind at 1. unfold cachesKeys. cbv beta iota.
  unfold bind at 1.
  destruct (clear_loop (map fst (storage w)) w 0) as (w' & -> & Hst & Hj & Ht & _).
  exists w'. unfold bind, ret. cbn [fst snd]. rewrite app_nil_r.
  split; [done|]. split; [|done].
  rewrite Hst, delete_each.
  assert (forall (l : CacheStorage),
            (forall nc, In nc l -> In (fst nc) (map fst (storage w))) ->
            List.filter (fun nc => negb (existsb (String.eqb (fst nc))
                                           (map fst (storage w)))) l = []) as Hall.
  { induction l as [|nc l IHl]; intros Hin; [done|]. simpl.
    assert (existsb (String.eqb (fst nc)) (map fst (storage w)) = true) as ->.
    { apply existsb_exists. exists (fst nc). split; [|apply String.eqb_refl].
      apply Hin. by left. }
    simpl. apply IHl. intros nc' Hin'. apply Hin. by right. }
  apply Hall. intros nc Hin. by apply in_map.
Qed.

(** X21.  The clear-all command.  After a [CLEAR_CACHE] message no cache
    is left, the reply [{ success: true }] is posted when the message
    came with a port (and the caches are deleted all the same when it did
    not); from then on, with the network down, a request on the
    dual-cache side is answered with the synthesized offline page or the
    404 response, and an API request with the synthesized JSON body. *)
Theorem clear_cache_empties_the_storage host manifest hasPort w :
  storage (after (onMessage host manifest (Some "CLEAR_CACHE") hasPort) w) = [] /\
  result (onMessage host manifest (Some "CLEAR_CACHE") hasPort) w =
    (if hasPort then [Success] else []) /\
  (forall offline request,
     network offline request = None ->
     result (onFetch offline request)
            (after (onMessage host manifest (Some "CLEAR_CACHE") hasPort) w) =
     match route request with
     | Ignored => None
     | ApiStrategy => Some (Resolved offlineApiResponse)
     | DualCacheStrategy =>
         Some (Resolved (if String.eqb (mode request) "navigate"
                         then offlinePage else offlineNotFound))
     end).
Proof.
  destruct (clear_cache_run host manifest hasPort w) as (w' & Hrun & Hst & _).
  rewrite result_state, after_state, Hrun. cbn [fst snd].
  split; [done|]. split; [done|].
  intros offline request Hnet.
  destruct (route request) eqn:Hroute.
  - rewrite result_state. unfold onFetch. by rewrite Hroute.
  - rewrite result_state. unfold onFetch. rewrite Hroute. unfold bind, ret.
    pose proof (api_run offline request w') as Hapi. unfold run in Hapi.
    destruct (handleApiRequest offline request (w', 0%nat)) as [o [w2 n2]].
    rewrite Hnet, Hst in Hapi. simpl in Hapi. by inversion Hapi.
  - assert (networkFails offline request) as Hfail by (unfold networkFails; by rewrite Hnet).
    assert (forall name key, Store.tier name (storage w') !! key = None) as Hnone.
    { intros name key. rewrite Hst. apply lookup_empty. }
    destruct (fetch_miss_run offline request w' Hroute Hfail (Hnone _ _) (Hnone _ _))
      as (-> & _).
    unfold lastResort, similarIn, shellIn, shellOf. cbv zeta. simpl.
    rewrite !Hnone.
    by repeat match goal with |- context [if ?b then _ else _] => destruct b end.
Qed.

(** ** A non-200 answer *)

(** X22.  The dual-cache strategy never passes on an answer of the
    network whose status is not 200: it answers exactly as it would have
    with the network down. *)
Theorem non_200_answer_is_treated_as_no_answer host request r w :
  network host request = Some r -> status r <> 200 ->
  result (handleDualCacheRequest host request) w =
  result (handleDualCacheRequest (disconnected host) request) w.
Proof.
  intros Hnet Hst.
  assert (networkFails host request) as Hfail by (unfold networkFails; by rewrite Hnet).
  assert (networkFails (disconnected host) request) as Hfail' by exact I.
  rewrite !result_state.
  destruct (Store.tier CACHE_PRIMARY (storage w) !! url request) as [entry|] eqn:HP.
  - destruct (primary_hit_run host request entry w Hfail HP) as (w1 & _ & ->).
    by destruct (primary_hit_run (disconnected host) request entry w Hfail' HP)
      as (w1' & _ & ->).
  - destruct (Store.tier CACHE_SECONDARY (storage w) !! url request) as [entry|] eqn:HS.
    + destruct (secondary_hit_run host request entry w Hfail HP HS) as (w1 & _ & _ & ->).
      destruct (secondary_hit_run (disconnected host) request entry w Hfail' HP HS)
        as (w1' & _ & _ & ->).
      change (storageFault (disconnected host)) with (storageFault host).
      by destruct (storageFault host 0 CACHE_PRIMARY (url request)).
    + destruct (dual_miss_run host request w Hfail HP HS) as (w1 & -> & _).
      by destruct (dual_miss_run (disconnected host) request w Hfail' HP HS)
        as (w1' & -> & _).
Qed.

(** ** Worked instances *)

(** A POST is left to the browser. *)
Lemma fetch_listener_always_answers_witness :
  route Scenario.upload = Ignored /\
  run (onFetch Demo.onlineHost Scenario.upload) Demo.emptyWorld = (None, Demo.emptyWorld).
Proof.
  destruct (fetch_listener_always_answers Demo.onlineHost Scenario.upload Demo.emptyWorld)
    as [Hskip Hrun].
  assert (route Scenario.upload = Ignored) as Hroute.
  { apply Hskip. left. discriminate. }
  split; [exact Hroute|]. rewrite Hroute in Hrun. exact Hrun.
Defined.

(** Fetching [/api/tracks.json] online, with a song in the Data tier,
    and then running the detached write the handler has left behind:
    the write replaces the entry of the request, and the song stays. *)
Lemma fetch_touches_only_the_request_entry_witness :
  Store.tier CACHE_DATA
    (storage (after (runTask Demo.onlineHost
                       (DetachedPut CACHE_DATA Demo.apiTracks
                          (Demo.ok "fresh https://music.example/api/tracks.json")))
                (after (onFetch Demo.onlineHost Demo.apiTracks)
                       (Demo.onlyIn CACHE_DATA Demo.songMp3 Demo.cachedSong))))
    !! url Demo.songMp3 =
  Store.tier CACHE_DATA
    (storage (Demo.onlyIn CACHE_DATA Demo.songMp3 Demo.cachedSong))
    !! url Demo.songMp3.
Proof.
  apply (fetch_touches_only_the_request_entry Demo.onlineHost Demo.onlineHost
           Demo.apiTracks (Demo.onlyIn CACHE_DATA Demo.songMp3 Demo.cachedSong)
           (after (runTask Demo.onlineHost
                     (DetachedPut CACHE_DATA Demo.apiTracks
                        (Demo.ok "fresh https://music.example/api/tracks.json")))
                  (after (onFetch Demo.onlineHost Demo.apiTracks)
                         (Demo.onlyIn CACHE_DATA Demo.songMp3 Demo.cachedSong)))
           CACHE_DATA (url Demo.songMp3)).
  - right. vm_compute. intros [H|[H|[H|[]]]]; discriminate H.
  - apply settling_step; [apply settling_now|]. vm_compute. left. reflexivity.
Defined.

Lemma api_fetch_ends_in_the_data_tier :
  Store.tier CACHE_DATA
    (storage (after (onFetch Demo.onlineHost Demo.apiTracks)
                    (Demo.onlyIn CACHE_DATA Demo.apiTracks Demo.cachedTracks)))
    !! url Demo.apiTracks = Some Demo.cachedTracks /\
  Store.tier CACHE_DATA
    (storage (after (runTask Demo.onlineHost
                       (DetachedPut CACHE_DATA Demo.apiTracks
                          (Demo.ok "fresh https://music.example/api/tracks.json")))
                (after (onFetch Demo.onlineHost Demo.apiTracks)
                       (Demo.onlyIn CACHE_DATA Demo.apiTracks Demo.cachedTracks))))
    !! url Demo.apiTracks = Some (Demo.ok "fresh https://music.example/api/tracks.json").
Proof. split; vm_compute; reflexivity. Qed.

(** [/app.js], offline, nothing cached. *)
Lemma dual_miss_changes_nothing_witness :
  readOnly Demo.emptyWorld
    (after (handleDualCacheRequest Demo.offlineHost Demo.appJs) Demo.emptyWorld).
Proof.
  apply (dual_miss_changes_nothing Demo.offlineHost Demo.appJs Demo.emptyWorld).
  - exact I.
  - vm_compute. reflexivity.
  - vm_compute. reflexivity.
Defined.

(** [/dashboard], offline, with the shell in Primary. *)
Lemma app_route_gets_the_shell_witness :
  result (handleDualCacheRequest Demo.offlineHost Scenario.dashboard)
         (Demo.onlyIn CACHE_PRIMARY Demo.indexHtml Demo.cachedShell)
    = Resolved Demo.cachedShell.
Proof.
  apply (app_route_gets_the_shell Demo.offlineHost Scenario.dashboard
           (Demo.onlyIn CACHE_PRIMARY Demo.indexHtml Demo.cachedShell)).
  - exact I.
  - vm_compute. reflexivity.
  - vm_compute. reflexivity.
  - vm_compute. reflexivity.
  - vm_compute. reflexivity.
Defined.

(** [/logo.png], offline, with only the shell in Primary. *)
Lemma file_request_gets_no_substitute_witness :
  result (handleDualCacheRequest Demo.offlineHost Scenario.logoPng)
         (Demo.onlyIn CACHE_PRIMARY Demo.indexHtml Demo.cachedShell)
    = Rejected "No cache available" /\
  result (onFetch Demo.offlineHost Scenario.logoPng)
         (Demo.onlyIn CACHE_PRIMARY Demo.indexHtml Demo.cachedShell)
    = Some (Resolved offlineNotFound).
Proof.
  destruct (file_request_gets_no_substitute Demo.offlineHost Scenario.logoPng
              (Demo.onlyIn CACHE_PRIMARY Demo.indexHtml Demo.cachedShell))
    as (Hhandler & Hlistener & _).
  - exact I.
  - vm_compute. reflexivity.
  - vm_compute. reflexivity.
  - vm_compute. reflexivity.
  - vm_compute. reflexivity.
  - vm_compute. discriminate.
  - vm_compute. discriminate.
  - split; [exact Hhandler|]. apply Hlistener. vm_compute. reflexivity.
Defined.

(** A navigation to [/about.html], offline, with the shell in Primary. *)
Lemma navigation_gets_the_shell_witness :
  result (handleDualCacheRequest Demo.offlineHost Scenario.aboutPage)
         (Demo.onlyIn CACHE_PRIMARY Demo.indexHtml Demo.cachedShell)
    = Resolved Demo.cachedShell.
Proof.
  apply (navigation_gets_the_shell Demo.offlineHost Scenario.aboutPage
           (Demo.onlyIn CACHE_PRIMARY Demo.indexHtml Demo.cachedShell)).
  - exact I.
  - vm_compute. reflexivity.
  - vm_compute. reflexivity.
  - reflexivity.
  - vm_compute. reflexivity.
  - vm_compute. reflexivity.
Defined.

(** The same navigation with nothing cached at all. *)
Lemma empty_caches_give_the_offline_response_witness :
  result (onFetch Demo.offlineHost Scenario.aboutPage) Demo.emptyWorld
    = Some (Resolved offlinePage) /\
  status offlinePage = 200.
Proof.
  destruct (empty_caches_give_the_offline_response Demo.offlineHost Scenario.aboutPage
              Demo.emptyWorld)
    as (Hanswer & Hstatus & _).
  - exact I.
  - vm_compute. reflexivity.
  - vm_compute. reflexivity.
  - vm_compute. reflexivity.
  - reflexivity.
  - reflexivity.
  - vm_compute. reflexivity.
  - split; [exact Hanswer | exact Hstatus].
Defined.

Lemma refresh_failure_is_silent_witness :
  run (runTask Demo.offlineHost (Timeout 1000 Demo.appJs)) Demo.emptyWorld
    = (tt, Demo.emptyWorld).
Proof.
  apply (refresh_failure_is_silent Demo.offlineHost Demo.appJs 1000 Demo.emptyWorld).
  exact I.
Defined.

(** [/app.js] served stale while offline, then re-validated online. *)
Lemma stale_entry_is_revalidated_witness :
  result (handleDualCacheRequest Demo.offlineHost Demo.appJs)
         (Demo.onlyIn CACHE_PRIMARY Demo.appJs Demo.cachedAppJs)
    = Resolved Demo.cachedAppJs /\
  Store.tier CACHE_PRIMARY
    (storage (after (runTask Demo.onlineHost (Timeout 1000 Demo.appJs))
                    (after (handleDualCacheRequest Demo.offlineHost Demo.appJs)
                           (Demo.onlyIn CACHE_PRIMARY Demo.appJs Demo.cachedAppJs))))
    !! url Demo.appJs = Some Demo.freshAppJs.
Proof.
  destruct (stale_entry_is_revalidated Demo.offlineHost Demo.onlineHost Demo.appJs
              Demo.cachedAppJs Demo.freshAppJs
              (Demo.onlyIn CACHE_PRIMARY Demo.appJs Demo.cachedAppJs))
    as (Hserved & _ & Hprimary & _).
  - exact I.
  - vm_compute. reflexivity.
  - vm_compute. reflexivity.
  - reflexivity.
  - reflexivity.
  - vm_compute. reflexivity.
  - reflexivity.
  - reflexivity.
  - split; [exact Hserved | exact Hprimary].
Defined.

Lemma cached_response_is_served_offline_witness :
  result (handleDualCacheRequest Demo.offlineHost Demo.appJs)
         (after (handleDualCacheRequest Demo.onlineHost Demo.appJs) Demo.emptyWorld)
    = Resolved Demo.freshAppJs.
Proof.
  apply (cached_response_is_served_offline Demo.onlineHost Demo.offlineHost Demo.appJs
           Demo.freshAppJs Demo.emptyWorld).
  - reflexivity.
  - reflexivity.
  - vm_compute. reflexivity.
  - reflexivity.
  - reflexivity.
  - exact I.
Defined.

Lemma api_response_is_served_offline_witness :
  result (handleApiRequest Demo.offlineHost Demo.apiTracks)
         (after (runTask Demo.onlineHost
                   (DetachedPut CACHE_DATA Demo.apiTracks
                      (Demo.ok "fresh https://music.example/api/tracks.json")))
                (after (handleApiRequest Demo.onlineHost Demo.apiTracks) Demo.emptyWorld))
    = Resolved (Demo.ok "fresh https://music.example/api/tracks.json").
Proof.
  apply (api_response_is_served_offline Demo.onlineHost Demo.onlineHost Demo.offlineHost
           Demo.apiTracks (Demo.ok "fresh https://music.example/api/tracks.json")
           Demo.emptyWorld).
  - reflexivity.
  - reflexivity.
  - reflexivity.
  - reflexivity.
  - intros name cache [].
Defined.

(** Installing over a Primary that holds a song: the song stays. *)
Lemma install_keeps_other_entries_witness :
  Store.tier CACHE_PRIMARY
    (storage (after (install Demo.onlineHost CRITICAL_ASSETS)
                    (Demo.onlyIn CACHE_PRIMARY Demo.songMp3 Demo.cachedSong)))
    !! url Demo.songMp3 =
  Store.tier CACHE_PRIMARY
    (storage (Demo.onlyIn CACHE_PRIMARY Demo.songMp3 Demo.cachedSong))
    !! url Demo.songMp3.
Proof.
  apply (install_keeps_other_entries Demo.onlineHost CRITICAL_ASSETS
           (Demo.onlyIn CACHE_PRIMARY Demo.songMp3 Demo.cachedSong)
           CACHE_PRIMARY (url Demo.songMp3)).
  vm_compute. intros [H|[H|[H|[H|[H|[H|[]]]]]]]; discriminate H.
Defined.

(** Installing when the icon cannot be fetched. *)
Lemma failed_install_writes_nothing_witness :
  (forall name,
     Store.tier name
       (storage (after (install Scenario.iconMissing CRITICAL_ASSETS) Demo.emptyWorld)) =
     Store.tier name (storage Demo.emptyWorld)) /\
  skipWaitingCalled (after (install Scenario.iconMissing CRITICAL_ASSETS) Demo.emptyWorld)
    = true.
Proof.
  apply (failed_install_writes_nothing Scenario.iconMissing CRITICAL_ASSETS "/icon.svg"
           Demo.emptyWorld).
  - right. right. right. left. reflexivity.
  - vm_compute. exact I.
Defined.

(** Installing online into an empty storage. *)
Lemma install_writes_each_tier_on_its_own_witness :
  Store.tier CACHE_PRIMARY
    (storage (after (install Demo.onlineHost CRITICAL_ASSETS) Demo.emptyWorld))
    !! resolve Demo.onlineHost "/index.html" = Some (Scenario.served "/index.html") /\
  Store.tier CACHE_SECONDARY
    (storage (after (install Demo.onlineHost CRITICAL_ASSETS) Demo.emptyWorld))
    !! resolve Demo.onlineHost "/index.html" = Some (Scenario.served "/index.html").
Proof.
  assert (forall asset, In asset CRITICAL_ASSETS ->
            network Demo.onlineHost (newRequest Demo.onlineHost asset "reload")
              = Some (Scenario.served asset) /\
            addAllAccepts (Scenario.served asset) = true) as all_served.
  { intros asset _. split; reflexivity. }
  assert (List.NoDup (map (resolve Demo.onlineHost) CRITICAL_ASSETS)) as distinct_urls.
  { vm_compute.
    repeat (constructor;
            [intros H; repeat (destruct H as [H|H]; [discriminate H|]); exact H|]).
    constructor. }
  destruct (install_writes_each_tier_on_its_own Demo.onlineHost CRITICAL_ASSETS
              Scenario.served all_served distinct_urls Demo.emptyWorld)
    as (HP & HS).
  split; [apply HP | apply HS]; right; left; reflexivity.
Defined.

Lemma installed_worker_is_healthy_witness :
  result (checkCacheHealth Demo.onlineHost CRITICAL_ASSETS)
         (after (install Demo.onlineHost CRITICAL_ASSETS) Demo.emptyWorld)
    = [(CACHE_PRIMARY, true); (CACHE_SECONDARY, true)].
Proof.
  assert (forall asset, In asset CRITICAL_ASSETS ->
            network Demo.onlineHost (newRequest Demo.onlineHost asset "reload")
              = Some (Scenario.served asset) /\
            addAllAccepts (Scenario.served asset) = true) as all_served.
  { intros asset _. split; reflexivity. }
  assert (List.NoDup (map (resolve Demo.onlineHost) CRITICAL_ASSETS)) as distinct_urls.
  { vm_compute.
    repeat (constructor;
            [intros H; repeat (destruct H as [H|H]; [discriminate H|]); exact H|]).
    constructor. }
  apply (installed_worker_is_healthy Demo.onlineHost CRITICAL_ASSETS Scenario.served
           all_served distinct_urls Demo.emptyWorld).
  - intros asset _. reflexivity.
  - intros asset _. split; reflexivity.
Defined.

(** The health check with the shell in Secondary only: the Data tier is
    not touched. *)
Lemma health_check_touches_only_the_manifest_witness :
  Store.tier CACHE_DATA
    (storage (after (checkCacheHealth Demo.offlineHost Scenario.shellOnly)
                    (Demo.onlyIn CACHE_SECONDARY Demo.indexHtml Demo.cachedShell)))
    !! url Demo.indexHtml =
  Store.tier CACHE_DATA
    (storage (Demo.onlyIn CACHE_SECONDARY Demo.indexHtml Demo.cachedShell))
    !! url Demo.indexHtml.
Proof.
  apply (health_check_touches_only_the_manifest Demo.offlineHost Scenario.shellOnly
           (Demo.onlyIn CACHE_SECONDARY Demo.indexHtml Demo.cachedShell)
           CACHE_DATA (url Demo.indexHtml)).
  left. vm_compute. intros [H|[H|[]]]; discriminate H.
Defined.

(** The same check: Secondary, found healthy, is left alone. *)
Lemma healthy_tier_is_left_alone_witness :
  Store.tier CACHE_SECONDARY
    (storage (after (checkCacheHealth Demo.offlineHost Scenario.shellOnly)
                    (Demo.onlyIn CACHE_SECONDARY Demo.indexHtml Demo.cachedShell))) =
  Store.tier CACHE_SECONDARY
    (storage (Demo.onlyIn CACHE_SECONDARY Demo.indexHtml Demo.cachedShell)).
Proof.
  apply (healthy_tier_is_left_alone Demo.offlineHost Scenario.shellOnly
           (Demo.onlyIn CACHE_SECONDARY Demo.indexHtml Demo.cachedShell)
           CACHE_SECONDARY).
  vm_compute. right. left. reflexivity.
Defined.

(** The same check: Primary, found empty, is healthy afterwards. *)
Lemma repair_restores_health_witness :
  In (CACHE_PRIMARY, true)
     (result (checkCacheHealth Demo.offlineHost Scenario.shellOnly)
             (after (checkCacheHealth Demo.offlineHost Scenario.shellOnly)
                    (Demo.onlyIn CACHE_SECONDARY Demo.indexHtml Demo.cachedShell))).
Proof.
  apply (repair_restores_health Demo.offlineHost Scenario.shellOnly
           (Demo.onlyIn CACHE_SECONDARY Demo.indexHtml Demo.cachedShell)
           CACHE_PRIMARY).
  - left. reflexivity.
  - vm_compute. right. left. reflexivity.
  - intros asset m _. reflexivity.
Defined.

(** The same check: it runs online as it runs offline, and the shell
    Primary holds afterwards came from Secondary. *)
Lemma health_check_only_copies_witness :
  run (checkCacheHealth Demo.onlineHost Scenario.shellOnly)
      (Demo.onlyIn CACHE_SECONDARY Demo.indexHtml Demo.cachedShell) =
  run (checkCacheHealth Demo.offlineHost Scenario.shellOnly)
      (Demo.onlyIn CACHE_SECONDARY Demo.indexHtml Demo.cachedShell) /\
  (Store.tier CACHE_PRIMARY
     (storage (Demo.onlyIn CACHE_SECONDARY Demo.indexHtml Demo.cachedShell))
     !! url Demo.indexHtml = Some Demo.cachedShell \/
   Store.tier CACHE_SECONDARY
     (storage (Demo.onlyIn CACHE_SECONDARY Demo.indexHtml Demo.cachedShell))
     !! url Demo.indexHtml = Some Demo.cachedShell).
Proof.
  destruct (health_check_only_copies Demo.offlineHost Scenario.shellOnly
              (Demo.onlyIn CACHE_SECONDARY Demo.indexHtml Demo.cachedShell))
    as [Hnetwork Hcopies].
  split.
  - apply (Hnetwork Demo.onlineHost); reflexivity.
  - apply (Hcopies CACHE_PRIMARY (url Demo.indexHtml) Demo.cachedShell).
    + left. reflexivity.
    + vm_compute. reflexivity.
Defined.

(** Clearing a storage that holds [/app.js], then asking for it
    offline. *)
Lemma clear_cache_empties_the_storage_witness :
  result (onFetch Demo.offlineHost Demo.appJs)
         (after (onMessage Demo.onlineHost CRITICAL_ASSETS (Some "CLEAR_CACHE") true)
                (Demo.onlyIn CACHE_PRIMARY Demo.appJs Demo.cachedAppJs))
    = Some (Resolved offlineNotFound).
Proof.
  destruct (clear_cache_empties_the_storage Demo.onlineHost CRITICAL_ASSETS true
              (Demo.onlyIn CACHE_PRIMARY Demo.appJs Demo.cachedAppJs))
    as (_ & _ & Hfetch).
  apply (Hfetch Demo.offlineHost Demo.appJs). reflexivity.
Defined.

(** [/app.js] answered with status 404 by the network, with a copy in
    Primary. *)
Lemma non_200_answer_is_treated_as_no_answer_witness :
  result (handleDualCacheRequest Scenario.answering404 Demo.appJs)
         (Demo.onlyIn CACHE_PRIMARY Demo.appJs Demo.cachedAppJs) =
  result (handleDualCacheRequest (disconnected Scenario.answering404) Demo.appJs)
         (Demo.onlyIn CACHE_PRIMARY Demo.appJs Demo.cachedAppJs).
Proof.
  apply (non_200_answer_is_treated_as_no_answer Scenario.answering404 Demo.appJs
           Scenario.notFound (Demo.onlyIn CACHE_PRIMARY Demo.appJs Demo.cachedAppJs)).
  - reflexivity.
  - vm_compute. discriminate.
Defined.

